(** * ImageAutoCropper: UV export, variant deduplication, cropping, remapping

    A shallow embedding of the Blender add-on scripts
    [export_uv_info.py] (module [Legacy] below) and [export_uv_infoV1.py]
    (module [V1] below), with the properties of their pipeline stated and
    proved over the embedded definitions.

    Conventions.
    - Pixel coordinates and image sizes are Python [int]s: [Z].
    - UV coordinates are Python [float]s (binary64): primitive floats.
    - A Python [dict] iterated with [.items()] is an insertion-ordered
      association list ([Py.Dict]); a [set] of face indices is a [gset nat].
    - A tuple [(xmin, ymin, xmax, ymax)] is the nested pair [Z * Z * Z * Z].
    - A [None] result is [option]; a Python exception that leaves a
      function is the [Raise] constructor of [Exc]. *)

From Stdlib Require Import ZArith Lia Ascii String.
From Stdlib Require Import Floats.PrimFloat Floats.FloatOps Floats.SpecFloat.
From Stdlib Require Import Floats.FloatAxioms.
From Stdlib Require Import Numbers.Cyclic.Int63.Uint63.
From stdpp Require Import base numbers list gmap strings pretty relations.

Local Open Scope Z_scope.

(** ** Python built-ins used by the scripts *)

Module Py.

Inductive Error :=
| KeyError
| ValueError
| OverflowError
| ZeroDivisionError
| IndexError
| StopIteration
| RuntimeError
| AttributeError
| ReferenceError
| FileNotFoundError
| OutOfFuel.

(** A computation that returns or raises. [OutOfFuel] is no Python
    exception: it marks a modelled [while] loop whose step budget ran out. *)
Inductive Exc (A : Type) :=
| Ret (a : A)
| Raise (e : Error).
Arguments Ret {A} a.
Arguments Raise {A} e.

Definition bind {A B} (k : A -> Exc B) (m : Exc A) : Exc B :=
  match m with
  | Ret a => k a
  | Raise e => Raise e
  end.

#[global] Instance exc_ret : MRet Exc := @Ret.
#[global] Instance exc_bind : MBind Exc := @bind.

Definition of_option {A} (e : Error) (o : option A) : Exc A :=
  match o with
  | Some a => Ret a
  | None => Raise e
  end.

(** [for x in xs: st = body(st, x)], leaving the loop at the first raise. *)
Fixpoint for_each {A S} (body : S -> A -> Exc S) (xs : list A) (st : S) : Exc S :=
  match xs with
  | [] => Ret st
  | x :: rest => st' ← body st x; for_each body rest st'
  end.

(** *** Insertion-ordered dictionaries *)

Definition Dict (K V : Type) : Type := list (K * V).

Section Dict.
Context {K V : Type} `{EqDecision K}.

Fixpoint get (d : Dict K V) (k : K) : option V :=
  match d with
  | [] => None
  | (k', v) :: rest => if decide (k' = k) then Some v else get rest k
  end.

(** [d[k] = v]: an existing key keeps its place, a new key goes last. *)
Fixpoint setitem (d : Dict K V) (k : K) (v : V) : Dict K V :=
  match d with
  | [] => [(k, v)]
  | (k', v') :: rest =>
      if decide (k' = k) then (k', v) :: rest else (k', v') :: setitem rest k v
  end.

(** [d.setdefault(k, v)]: the dictionary afterwards. *)
Definition setdefault (d : Dict K V) (k : K) (v : V) : Dict K V :=
  match get d k with
  | Some _ => d
  | None => setitem d k v
  end.

Definition keys (d : Dict K V) : list K := d.*1.

End Dict.

(** *** Strings and paths *)

(** [s.startswith(prefix)] *)
Definition startswith (s prefix : string) : bool := String.prefix prefix s.

(** [s.endswith(suffix)] *)
Definition endswith (s suffix : string) : bool :=
  let n := String.length s in
  let k := String.length suffix in
  bool_decide (k <= n)%nat && bool_decide (String.substring (n - k) k s = suffix).

(** [os.path.join(a, b)] as [posixpath] defines it: a [b] that starts
    with the separator replaces [a]; otherwise [b] is appended, after a
    separator unless [a] is empty or already ends with one. *)
Definition path_join (a b : string) : string :=
  if startswith b "/" then b
  else if bool_decide (a = "") || endswith a "/" then a +:+ b
  else a +:+ "/" +:+ b.

(** [sep.join(lines)] *)
Fixpoint join (sep : string) (lines : list string) : string :=
  match lines with
  | [] => ""
  | [l] => l
  | l :: rest => l +:+ sep +:+ join sep rest
  end.

Definition lower_char (c : Ascii.ascii) : Ascii.ascii :=
  let n := Ascii.nat_of_ascii c in
  if bool_decide (65 <= n <= 90)%nat then Ascii.ascii_of_nat (n + 32) else c.

(** [s.lower()] on ASCII text *)
Fixpoint lower (s : string) : string :=
  match s with
  | EmptyString => EmptyString
  | String c rest => String (lower_char c) (lower rest)
  end.

(** [str(t)] for a 4-tuple of ints. *)
Definition str_tuple4 (t : Z * Z * Z * Z) : string :=
  let '(a, b, c, d) := t in
  "(" +:+ pretty a +:+ ", " +:+ pretty b +:+ ", " +:+ pretty c +:+ ", "
      +:+ pretty d +:+ ")".


(** [xs.index(x)] *)
Fixpoint index_of `{EqDecision A} (x : A) (xs : list A) : option nat :=
  match xs with
  | [] => None
  | y :: rest => if decide (y = x) then Some O else S <$> index_of x rest
  end.

Definition dquote : string := String (Ascii.ascii_of_nat 34) EmptyString.
Definition newline : string := String (Ascii.ascii_of_nat 10) EmptyString.

(** *** Floats *)

(** [float(n)] for an int below 2^63 in magnitude (exact below 2^53). *)
Definition float_of_int (n : Z) : float :=
  match n with
  | Z0 => PrimFloat.zero
  | Zpos _ => PrimFloat.of_uint63 (Uint63.of_Z n)
  | Zneg p => PrimFloat.opp (PrimFloat.of_uint63 (Uint63.of_Z (Zpos p)))
  end.

(** [int(x)]: truncation toward zero; raises on a NaN or an infinity. *)
Definition int (x : float) : Exc Z :=
  match Prim2SF x with
  | S754_zero _ => Ret 0
  | S754_finite s m e =>
      let mag := if decide (0 <= e) then Z.pos m * 2 ^ e else Z.pos m / 2 ^ (- e) in
      Ret (if s then - mag else mag)
  | S754_infinity _ => Raise OverflowError
  | S754_nan => Raise ValueError
  end.



(** [min(xs)] and [max(xs)]: the first extremal element under [<]; the
    empty sequence raises [ValueError]. *)
Definition min (xs : list float) : Exc float :=
  match xs with
  | [] => Raise ValueError
  | x :: rest => Ret (foldl (fun cur y => if PrimFloat.ltb y cur then y else cur) x rest)
  end.

Definition max (xs : list float) : Exc float :=
  match xs with
  | [] => Raise ValueError
  | x :: rest => Ret (foldl (fun cur y => if PrimFloat.ltb cur y then y else cur) x rest)
  end.

End Py.

(** ** The PIL interface used by [crop_task] *)

Module PIL.

Definition RGBA : Type := Z * Z * Z * Z.

(** [im.size] and the pixel access of a decoded raster. *)
Record Image := mkImage {
  size : Z * Z;
  getpixel : Z * Z -> RGBA
}.

Definition inside (im : Image) (p : Z * Z) : bool :=
  bool_decide (0 <= p.1 < (size im).1 /\ 0 <= p.2 < (size im).2).

(** [im.crop((x0, y0, x1, y1))]: raises [ValueError] when the right
    (lower) coordinate is less than the left (upper) one; otherwise a new
    raster of size [(x1 - x0, y1 - y0)] whose pixel [(x, y)] is the source
    pixel [(x0 + x, y0 + y)], transparent black outside the source. *)
Definition crop (im : Image) (box : Z * Z * Z * Z) : Py.Exc Image :=
  let '(x0, y0, x1, y1) := box in
  if decide (x1 < x0 \/ y1 < y0) then Py.Raise Py.ValueError
  else Py.Ret {|
    size := (x1 - x0, y1 - y0);
    getpixel := fun p =>
      let src := (x0 + p.1, y0 + p.2) in
      if inside im src then getpixel im src else (0, 0, 0, 0)
  |}.

(** The files [Image.open] can see: a path that is absent does not exist;
    a path bound to [None] exists but does not decode. *)
Definition FileSystem : Type := gmap string (option Image).

(** Whether [cropped.save(path)] returns is the host's to say: the
    directory of the path may be missing or read-only, and the encoder may
    refuse the raster. A [Saver] tells, for a path and a raster, whether
    the save returns; a save that returns leaves the raster at the path,
    and a save that raises is taken to leave the path as it was. *)
Definition Saver : Type := string -> Image -> bool.

End PIL.

(** ** The Blender data the scripts read and write *)

Module Bpy.

Definition Box : Type := Z * Z * Z * Z.

(** [bpy.types.Image]: [name], [filepath], [size]. *)
Record Image := mkImage {
  img_name : string;
  img_filepath : string;
  img_size : Z * Z
}.

(** A shader node: [type] and, for an image texture node, [image]. *)
Record Node := mkNode {
  node_type : string;
  node_image : option Image
}.

Record Material := mkMaterial {
  mat_name : string;
  use_nodes : bool;
  nodes : list Node
}.

(** [loop[uv_layer].uv] *)
Record UV := mkUV {
  uv_x : float;
  uv_y : float
}.

(** A [BMFace]: its [index], [material_index], the UVs of its [loops] and
    the identifiers of its [edges]. *)
Record BMFace := mkFace {
  index : nat;
  material_index : nat;
  loops : list UV;
  edges : list nat
}.

(** The edit mesh: [bm.faces] in index order and [e.link_faces] for an
    edge identifier [e]. *)
Record BMesh := mkBMesh {
  faces : list BMFace;
  link_faces : nat -> list BMFace
}.

(** An object: [obj.name], [obj.type], the slots of [obj.data.materials]
    (a slot holds a material or is empty: [None]), whether
    [bm.loops.layers.uv.active] exists, and the edit mesh. *)
Record Object := mkObject {
  obj_name : string;
  obj_type : string;
  materials : list (option Material);
  uv_layer : bool;
  bm : BMesh
}.

(** The mesh invariants of the host: a face's index is its position in
    [bm.faces], and an edge links exactly the faces that have it. *)
Record wf_mesh (m : BMesh) : Prop := {
  wf_index : forall i f, faces m !! i = Some f -> index f = i;
  wf_link : forall e g, g ∈ link_faces m e <-> g ∈ faces m /\ e ∈ edges g
}.

(** The edge-to-face links of a face list, in face order. *)
Definition link_faces_of (fs : list BMFace) (e : nat) : list BMFace :=
  filter (fun g => e ∈ edges g) fs.

Definition mesh_of (fs : list BMFace) : BMesh :=
  {| faces := fs; link_faces := link_faces_of fs |}.

(** [bpy.path.abspath]: paths are kept in resolved form. *)
Definition abspath (p : string) : string := p.

Fixpoint basename_from (acc s : string) : string :=
  match s with
  | EmptyString => acc
  | String c rest =>
      if decide (c = "/"%char) then basename_from "" rest
      else basename_from (acc +:+ String c "") rest
  end.

(** [bpy.path.basename] *)
Definition basename (p : string) : string := basename_from "" p.

(** The first image texture node of a node tree that carries an image. *)
Fixpoint first_tex_image (ns : list Node) : option Image :=
  match ns with
  | [] => None
  | n :: rest =>
      if decide (node_type n = "TEX_IMAGE") then
        match node_image n with
        | Some im => Some im
        | None => first_tex_image rest
        end
      else first_tex_image rest
  end.

(** Two faces share an edge. *)
Definition adjacent (m : BMesh) (f g : BMFace) : Prop :=
  f ∈ faces m /\ g ∈ faces m /\ exists e, e ∈ edges f /\ e ∈ edges g.

(** Two faces are linked by a chain of faces sharing edges. *)
Definition connected (m : BMesh) : relation BMFace := rtc (adjacent m).

End Bpy.

(** ** export_uv_infoV1.py *)

Module V1.
Import Bpy.

(** [ExportUVInfoOperator.get_image_from_face] against the material
    slots of the active object. Line 288 reads [use_nodes] of whatever the
    slot holds: on an empty slot that is an attribute of [None]. *)
Definition image_of_slot (mats : list (option Material)) (mat_index : nat)
    : Py.Exc (option Image) :=
  match mats !! mat_index with
  | Some (Some mat) => mret (if use_nodes mat then first_tex_image (nodes mat) else None)
  | Some None => Py.Raise Py.AttributeError
  | None => mret None
  end.

Fixpoint scan_loops (mats : list (option Material)) (face : BMFace) (ls : list UV)
    : Py.Exc (option Image) :=
  match ls with
  | [] => mret None
  | _ :: rest =>
      r ← image_of_slot mats (material_index face);
      match r with
      | Some im => mret (Some im)
      | None => scan_loops mats face rest
      end
  end.

Definition get_image_from_face (mats : list (option Material)) (face : BMFace)
    : Py.Exc (option Image) :=
  scan_loops mats face (loops face).

(** What [get_image_from_face] gives a caller that it returns to: the
    image of the face, if it has one. *)
Definition resolved (mats : list (option Material)) (face : BMFace) : option Image :=
  match get_image_from_face mats face with
  | Py.Ret r => r
  | Py.Raise _ => None
  end.

(** An entry of [global_variants]: [(bounds, path, variant_id)]. *)
Definition Variant : Type := Box * string * option nat.

(** An entry of [assignments]: [(face.index, img.name, bounds)]. *)
Definition Assignment : Type := nat * string * Box.

Record Gathered := mkGathered {
  global_variants : Py.Dict string (list Variant);
  global_sizes : Py.Dict string (Z * Z);
  assignments : list Assignment
}.

(** [global_variants.setdefault(name, []).append(v)] *)
Definition append_variant (gv : Py.Dict string (list Variant)) (name : string)
    (v : Variant) : Py.Dict string (list Variant) :=
  let gv' := Py.setdefault gv name [] in
  Py.setitem gv' name (default [] (Py.get gv' name) ++ [v]).

(** Lines 97-100 and 114-117: the unzipped [xs] and [ys], the truncated
    extrema and the vertical flip against the image height [h]. *)
Definition bounds_of (coords : list (float * float)) (h : Z) : Py.Exc Box :=
  let xs := coords.*1 in
  let ys := coords.*2 in
  xmin ← Py.min xs ≫= Py.int;
  xmax ← Py.max xs ≫= Py.int;
  ymin ← Py.min ys ≫= Py.int;
  ymax ← Py.max ys ≫= Py.int;
  mret (xmin, h - ymax, xmax, h - ymin).

Definition to_pixels (w h : Z) (uv : UV) : float * float :=
  (PrimFloat.mul (uv_x uv) (Py.float_of_int w),
   PrimFloat.mul (uv_y uv) (Py.float_of_int h)).

(** The body of the per-face loop (lines 107-120). *)
Definition gather_face (mats : list (option Material)) (st : Gathered) (face : BMFace)
    : Py.Exc Gathered :=
  r ← get_image_from_face mats face;
  match r with
  | None => mret st
  | Some img =>
      let '(w, h) := img_size img in
      let sizes := Py.setitem (global_sizes st) (img_name img) (w, h) in
      let uvs_px := to_pixels w h <$> loops face in
      bounds ← bounds_of uvs_px h;
      let path := abspath (img_filepath img) in
      mret {|
        global_variants :=
          append_variant (global_variants st) (img_name img) (bounds, path, None);
        global_sizes := sizes;
        assignments := assignments st ++ [(index face, img_name img, bounds)]
      |}
  end.

(** [for e in f.edges: for lf in e.link_faces] *)
Definition neighbours (m : BMesh) (f : BMFace) : list BMFace :=
  flat_map (link_faces m) (edges f).

(** The [while stack] loop of lines 75-84. The stack is kept with its top
    (the end of the Python list) at the head. *)
Fixpoint flood (fuel : nat) (m : BMesh) (visited : gset nat)
    (stack group : list BMFace) : Py.Exc (gset nat * list BMFace) :=
  match stack with
  | [] => mret (visited, group)
  | f :: stack' =>
      match fuel with
      | O => Py.Raise Py.OutOfFuel
      | S fuel' =>
          if decide (index f ∈ visited) then flood fuel' m visited stack' group
          else
            let visited' := visited ∪ {[index f]} in
            let pushed := filter (fun lf => index lf ∉ visited') (neighbours m f) in
            flood fuel' m visited' (foldl (fun s lf => lf :: s) stack' pushed)
                  (group ++ [f])
      end
  end.

(** A step budget that covers every run of the loop on a mesh: one pop for
    the start face and one for every push a visited face can make. *)
Definition flood_budget (m : BMesh) : nat :=
  S (sum_list ((fun g => S (length (neighbours m g))) <$> faces m)).

(** Lines 74-84: [stack, group = [face], []] and the loop. *)
Definition flood_fill (m : BMesh) (visited : gset nat) (face : BMFace)
    : Py.Exc (gset nat * list BMFace) :=
  flood (flood_budget m) m visited [face] [].

(** One turn of the [for face in bm.faces] loop of lines 71-104, around a
    [body] that consumes the [group]. *)
Definition island_step {S} (m : BMesh) (body : S -> list BMFace -> Py.Exc S)
    (acc : gset nat * S) (face : BMFace) : Py.Exc (gset nat * S) :=
  if decide (index face ∈ acc.1) then mret acc
  else
    '(visited', group) ← flood_fill m acc.1 face;
    st' ← body acc.2 group;
    mret (visited', st').

(** The loop, from [visited = set()]. *)
Definition island_loop {S} (m : BMesh) (body : S -> list BMFace -> Py.Exc S)
    (st : S) : Py.Exc (gset nat * S) :=
  Py.for_each (island_step m body) (faces m) (∅, st).

(** The islands of a mesh, in the order the loop finds them. *)
Definition island_groups (m : BMesh) : Py.Exc (list (list BMFace)) :=
  r ← island_loop m (fun gs group => mret (gs ++ [group])) []; mret r.2.

(** The scan of lines 85-94 over the faces of a group and their loops. *)
Record Scan := mkScan {
  sc_coords : list (float * float);
  sc_img : option Image;
  sc_sizes : Py.Dict string (Z * Z)
}.

Definition scan_loop (mats : list (option Material)) (f2 : BMFace) (sc : Scan) (uv : UV)
    : Py.Exc Scan :=
  r ← get_image_from_face mats f2;
  match r with
  | Some im =>
      let '(w, h) := img_size im in
      mret {| sc_coords := sc_coords sc ++ [to_pixels w h uv];
              sc_img := Some im;
              sc_sizes := Py.setitem (sc_sizes sc) (img_name im) (w, h) |}
  | None => mret sc
  end.

Definition scan_face (mats : list (option Material)) (sc : Scan) (f2 : BMFace)
    : Py.Exc Scan :=
  Py.for_each (scan_loop mats f2) (loops f2) sc.

Definition scan_group (mats : list (option Material)) (sizes : Py.Dict string (Z * Z))
    (group : list BMFace) : Py.Exc Scan :=
  Py.for_each (scan_face mats) group
    {| sc_coords := []; sc_img := None; sc_sizes := sizes |}.

(** Lines 85-104: what the loop does with one [group]. The height [h] of
    line 100 is the one assigned with [img] on line 92. *)
Definition gather_island (mats : list (option Material)) (st : Gathered)
    (group : list BMFace) : Py.Exc Gathered :=
  sc ← scan_group mats (global_sizes st) group;
  match sc_coords sc, sc_img sc with
  | _ :: _, Some img =>
      bounds ← bounds_of (sc_coords sc) (img_size img).2;
      let path := abspath (img_filepath img) in
      mret {|
        global_variants :=
          append_variant (global_variants st) (img_name img) (bounds, path, None);
        global_sizes := sc_sizes sc;
        assignments :=
          assignments st ++ ((fun f2 => (index f2, img_name img, bounds)) <$> group)
      |}
  | _, _ =>
      mret {|
        global_variants := global_variants st;
        global_sizes := sc_sizes sc;
        assignments := assignments st
      |}
  end.

(** The operator's properties. *)
Record Settings := mkSettings {
  directory : string;
  crop_images : bool;
  crop_per_border : bool;
  remap_model : bool
}.

(** [self.report({level}, message)] *)
Definition Report : Type := string * string.

(** The state of the gathering loop over the selected objects. *)
Record Collected := mkCollected {
  gathered : Gathered;
  face_map : Py.Dict string (list Assignment);
  reports : list Report
}.

(** The body of the loop of lines 56-124. *)
Definition gather_object (cfg : Settings) (st : Collected) (obj : Object)
    : Py.Exc Collected :=
  if uv_layer obj then
    let g0 := {|
      global_variants := global_variants (gathered st);
      global_sizes := global_sizes (gathered st);
      assignments := []
    |} in
    g ← (if crop_per_border cfg then
           r ← island_loop (bm obj) (gather_island (materials obj)) g0; mret r.2
         else Py.for_each (gather_face (materials obj)) (faces (bm obj)) g0);
    mret {|
      gathered := g;
      face_map := Py.setitem (face_map st) (obj_name obj) (assignments g);
      reports := reports st
    |}
  else
    mret {|
      gathered := gathered st;
      face_map := face_map st;
      reports := reports st ++ [("WARNING", "No UVs found on " +:+ obj_name obj +:+ ".")]
    |}.

(** Lines 128-133: the distinct bounds of one image in first-seen order,
    numbered from 1. *)
Definition dedup_step (acc : list (Box * string * nat) * gmap Box nat) (v : Variant)
    : list (Box * string * nat) * gmap Box nat :=
  let '(unique, seen) := acc in
  let '(bounds, path, _) := v in
  match seen !! bounds with
  | None =>
      let vid := S (length unique) in
      (unique ++ [(bounds, path, vid)], <[bounds := vid]> seen)
  | Some _ => acc
  end.

Definition deduplicate (lst : list Variant) : list (Box * string * nat) :=
  (foldl dedup_step ([], ∅) lst).1.

(** Lines 127-134: every value of [global_variants] is replaced by its
    deduplicated list; the keys keep their places. *)
Definition deduplicate_all (gv : Py.Dict string (list Variant))
    : Py.Dict string (list (Box * string * nat)) :=
  prod_map id deduplicate <$> gv.

(** Line 205: [next(v for (bnds, _, v) in variants if bnds == bounds)] *)
Fixpoint variant_of (variants : list (Box * string * nat)) (bounds : Box) : Py.Exc nat :=
  match variants with
  | [] => Py.Raise Py.StopIteration
  | (bnds, _, v) :: rest =>
      if decide (bnds = bounds) then mret v else variant_of rest bounds
  end.

(** [f"{name}_variant{vid}"] *)
Definition variant_name (name : string) (vid : nat) : string :=
  name +:+ "_variant" +:+ pretty vid.

(** Lines 155-158: the box clamped against an image of size [(w, h)]. *)
Definition clamp_box (w h : Z) (bounds : Box) : Box :=
  let '(x0, y0, x1, y1) := bounds in
  let x0 := Z.max 0 (Z.min x0 (w - 1)) in
  let y0 := Z.max 0 (Z.min y0 (h - 1)) in
  let x1 := Z.max (x0 + 1) (Z.min x1 w) in
  let y1 := Z.max (y0 + 1) (Z.min y1 h) in
  (x0, y0, x1, y1).

(** [crop_task]: [None], or the returned tuple together with the raster
    that [cropped.save(out_path)] has written. Whatever raises between
    lines 152 and 165, the save included, is caught on line 166. *)
Definition crop_task (cfg : Settings) (saver : PIL.Saver) (fs : PIL.FileSystem)
    (args : string * string * nat * Box)
    : option ((string * nat * string * Box) * PIL.Image) :=
  let '(name, src_path, vid, bounds) := args in
  match fs !! src_path with
  | None => None
  | Some None => None
  | Some (Some im) =>
      let '(w, h) := PIL.size im in
      let '(x0, y0, x1, y1) := clamp_box w h bounds in
      if decide (x1 <= x0 \/ y1 <= y0) then None
      else
        match PIL.crop im (x0, y0, x1, y1) with
        | Py.Raise _ => None
        | Py.Ret cropped =>
            let filename := variant_name name vid +:+ ".png" in
            let out_path := Py.path_join (directory cfg) filename in
            if saver out_path cropped
            then Some ((name, vid, out_path, (x0, y0, x1, y1)), cropped)
            else None
        end
  end.

(** Lines 142-146: the crop tasks, one per deduplicated variant. *)
Definition tasks_of (variants : Py.Dict string (list (Box * string * nat)))
    : list (string * string * nat * Box) :=
  flat_map (fun '(name, vs) =>
    (fun '(bounds, path, variant_id) => (name, path, variant_id, bounds)) <$> vs) variants.

(** [image_map], [crop_bounds] and the files the crop tasks wrote. *)
Record Crops := mkCrops {
  image_map : Py.Dict (string * nat) string;
  crop_bounds : Py.Dict (string * nat) Box;
  files : PIL.FileSystem
}.

(** Lines 171-174: the merge of one task result. *)
Definition merge_result (c : Crops)
    (result : option ((string * nat * string * Box) * PIL.Image)) : Crops :=
  match result with
  | Some ((name, vid, out_path, bnds), cropped) =>
      {| image_map := Py.setitem (image_map c) (name, vid) out_path;
         crop_bounds := Py.setitem (crop_bounds c) (name, vid) bnds;
         files := <[out_path := Some cropped]> (files c) |}
  | None => c
  end.

(** Lines 139-174. Every task reads the files as they were before the
    pool started; results are merged in task order. *)
Definition run_crops (cfg : Settings) (saver : PIL.Saver) (fs : PIL.FileSystem)
    (variants : Py.Dict string (list (Box * string * nat))) : Crops :=
  let start := {| image_map := []; crop_bounds := []; files := fs |} in
  if crop_images cfg || crop_per_border cfg then
    foldl merge_result start (crop_task cfg saver fs <$> tasks_of variants)
  else start.

(** [bpy.data.images.load(path, check_existing=True)] *)
Definition load_image (fs : PIL.FileSystem) (path : string) : Py.Exc Image :=
  match fs !! path with
  | Some (Some im) =>
      mret {| img_name := basename path; img_filepath := path; img_size := PIL.size im |}
  | _ => Py.Raise Py.RuntimeError
  end.

(** [bpy.data.materials.new(name)] followed by [use_nodes = True]. *)
Definition new_material (name : string) : Material :=
  {| mat_name := name; use_nodes := true;
     nodes := [mkNode "BSDF_PRINCIPLED" None; mkNode "OUTPUT_MATERIAL" None] |}.

(** Lines 181-190 for one entry of [image_map]: the material of the
    variant gets an image texture node (its link to the base colour is
    not represented). The pair is [bpy.data.materials] and [mats]. *)
Definition bind_material (fs : PIL.FileSystem)
    (acc : Py.Dict string Material * Py.Dict string Material)
    (entry : string * nat * string)
    : Py.Exc (Py.Dict string Material * Py.Dict string Material) :=
  let '(store, mats) := acc in
  let '(name, vid, img_path) := entry in
  let mat_name := variant_name name vid in
  img ← load_image fs img_path;
  let mat := default (new_material mat_name) (Py.get store mat_name) in
  let mat' := {| mat_name := Bpy.mat_name mat; use_nodes := true;
                 nodes := nodes mat ++ [mkNode "TEX_IMAGE" (Some img)] |} in
  mret (Py.setitem store mat_name mat', Py.setitem mats mat_name mat').

(** [obj.data.materials.find(name)]: the first slot that holds a material
    of that name, or -1. *)
Fixpoint find (slots : list (option Material)) (name : string) : Z :=
  match slots with
  | [] => -1
  | slot :: rest =>
      if decide (mat_name <$> slot = Some name) then 0
      else let i := find rest name in if decide (i = -1) then -1 else i + 1
  end.

(** Lines 198-200 *)
Definition add_slots (slots : list (option Material)) (mats : Py.Dict string Material)
    : list (option Material) :=
  foldl (fun slots '(name, mat) =>
    if decide (find slots name = -1) then slots ++ [Some mat] else slots) slots mats.

(** [float / int], raising on a zero divisor. *)
Definition div_int (a : float) (n : Z) : Py.Exc float :=
  if decide (n = 0) then Py.Raise Py.ZeroDivisionError
  else mret (PrimFloat.div a (Py.float_of_int n)).

(** Lines 211-216: the UVs placed inside the clamped crop box. *)
Definition place_in_crop (ow oh : Z) (bnds : Box) (uvs : list UV) : Py.Exc (list UV) :=
  let '(x0, y0, x1, y1) := bnds in
  let cw := x1 - x0 in
  let ch := y1 - y0 in
  mapM (fun uv =>
    let px := PrimFloat.mul (uv_x uv) (Py.float_of_int ow) in
    let py := PrimFloat.mul (uv_y uv) (Py.float_of_int oh) in
    x ← div_int (PrimFloat.sub px (Py.float_of_int x0)) cw;
    y ← div_int (PrimFloat.sub py (Py.float_of_int y0)) ch;
    mret {| uv_x := x; uv_y := y |}) uvs.

(** Lines 218-226: the UVs stretched over their own extent. *)
Definition fill_own_extent (uvs : list UV) : Py.Exc (list UV) :=
  min_u ← Py.min (uv_x <$> uvs);
  max_u ← Py.max (uv_x <$> uvs);
  min_v ← Py.min (uv_y <$> uvs);
  max_v ← Py.max (uv_y <$> uvs);
  let du := PrimFloat.sub max_u min_u in
  let dv := PrimFloat.sub max_v min_v in
  if PrimFloat.ltb PrimFloat.zero du && PrimFloat.ltb PrimFloat.zero dv then
    mret ((fun uv => {| uv_x := PrimFloat.div (PrimFloat.sub (uv_x uv) min_u) du;
                        uv_y := PrimFloat.div (PrimFloat.sub (uv_y uv) min_v) dv |}) <$> uvs)
  else mret uvs.

(** The body of the loop of lines 203-226 on the faces of the edit mesh.
    An assigned material index is clamped by the host to its range. *)
Definition remap_face (cfg : Settings)
    (variants : Py.Dict string (list (Box * string * nat)))
    (sizes : Py.Dict string (Z * Z)) (c : Crops) (mat_index_map : Py.Dict string Z)
    (fcs : list BMFace) (a : Assignment) : Py.Exc (list BMFace) :=
  let '(face_idx, name, bounds) := a in
  face ← Py.of_option Py.IndexError (fcs !! face_idx);
  vs ← Py.of_option Py.KeyError (Py.get variants name);
  vid ← variant_of vs bounds;
  let mat_name := variant_name name vid in
  mi ← Py.of_option Py.KeyError (Py.get mat_index_map mat_name);
  '(ow, oh) ← Py.of_option Py.KeyError (Py.get sizes name);
  uvs ← (if crop_per_border cfg then
           match Py.get (crop_bounds c) (name, vid) with
           | Some bnds => place_in_crop ow oh bnds (loops face)
           | None => fill_own_extent (loops face)
           end
         else fill_own_extent (loops face));
  mret (<[face_idx := {| index := index face; material_index := Z.to_nat mi;
                         loops := uvs; edges := edges face |}]> fcs).

(** Lines 178-229 for one object: [bpy.data.materials] and the object
    afterwards. (The edge links of the result still list the faces as they
    were; nothing reads them after the remap.) *)
Definition remap_object (cfg : Settings)
    (variants : Py.Dict string (list (Box * string * nat)))
    (sizes : Py.Dict string (Z * Z)) (c : Crops)
    (fmap : Py.Dict string (list Assignment))
    (store : Py.Dict string Material) (obj : Object)
    : Py.Exc (Py.Dict string Material * Object) :=
  let assignments := default [] (Py.get fmap (obj_name obj)) in
  if remap_model cfg && bool_decide (image_map c <> []) then
    '(store', mats) ← Py.for_each (bind_material (files c)) (image_map c) (store, []);
    let slots := add_slots (materials obj) mats in
    let mat_index_map := (fun '(name, _) => (name, find slots name)) <$> mats in
    fcs ← Py.for_each (remap_face cfg variants sizes c mat_index_map) assignments
            (faces (bm obj));
    mret (store',
          {| obj_name := obj_name obj; obj_type := obj_type obj; materials := slots;
             uv_layer := uv_layer obj;
             bm := {| faces := fcs; link_faces := link_faces (bm obj) |} |})
  else mret (store, obj).

(** The three listings of lines 258-263. *)
Record Listings := mkListings {
  coords_lines : list string;
  names_lines : list string;
  crops_lines : list string
}.

(** Line 261: [f"{bounds},    # '{name}_variant{vid}'"] *)
Definition coord_line (name : string) (vid : nat) (bounds : Box) : string :=
  Py.str_tuple4 bounds +:+ ",    # '" +:+ variant_name name vid +:+ "'".

(** Line 262 *)
Definition name_line (name : string) (vid : nat) : string :=
  Py.dquote +:+ variant_name name vid +:+ Py.dquote +:+ ",".

(** Line 263 *)
Definition crop_line (name : string) : string :=
  Py.dquote +:+ name +:+ Py.dquote +:+ ",".

(** Lines 261-263: one entry is appended to each listing. *)
Definition emit (name : string) (acc : Listings) (v : Box * string * nat) : Listings :=
  let '(bounds, _, vid) := v in
  {| coords_lines := coords_lines acc ++ [coord_line name vid bounds];
     names_lines := names_lines acc ++ [name_line name vid];
     crops_lines := crops_lines acc ++ [crop_line name] |}.

Definition listings_of (variants : Py.Dict string (list (Box * string * nat))) : Listings :=
  foldl (fun acc '(name, vs) => foldl (emit name) acc vs)
        {| coords_lines := []; names_lines := []; crops_lines := [] |} variants.

(** The deduplicated variants in the order of the listings: image by
    image, and within an image in the order of its list. *)
Definition units_of (variants : Py.Dict string (list (Box * string * nat)))
    : list (string * nat * Box) :=
  flat_map (fun '(name, vs) => (fun '(bounds, _, vid) => (name, vid, bounds)) <$> vs)
           variants.

(** Line 272 *)
Definition size_line (entry : string * (Z * Z)) : string :=
  let '(name, (w, h)) := entry in
  "(" +:+ Py.dquote +:+ name +:+ Py.dquote +:+ ", " +:+ pretty w +:+ ", " +:+ pretty h +:+ "),"
      +:+ Py.newline.

(** Lines 264-272: the four files, by path. *)
Definition write_metadata (cfg : Settings)
    (variants : Py.Dict string (list (Box * string * nat)))
    (sizes : Py.Dict string (Z * Z)) : Py.Dict string string :=
  let l := listings_of variants in
  [ (Py.path_join (directory cfg) "uv_coordinates.txt", Py.join Py.newline (coords_lines l));
    (Py.path_join (directory cfg) "image_names.txt", Py.join Py.newline (names_lines l));
    (Py.path_join (directory cfg) "image_names_to_crop.txt", Py.join Py.newline (crops_lines l));
    (Py.path_join (directory cfg) "image_sizes.txt",
       foldl (fun text entry => text +:+ size_line entry) "" sizes) ].

(** The selected meshes as the host has them at some point of the last
    loop, in the order of [objs]; [None] stands for an object the host has
    removed (a join removes the objects it merges into the active one). *)
Definition World : Type := list (option Object).

(** What the host decides. [os_makedirs] is [os.makedirs(directory,
    exist_ok=True)] on a directory other than the empty string;
    [can_save] says which saves of a cropped image return;
    [fill_separate_join k] is lines 231-255 run for the object at place [k]
    of [objs]: the UV fill of the selection, the separation by material, the
    fill of the parts and their join. These operators act on everything
    that is selected, so [fill_separate_join] takes and gives the whole
    [World]. *)
Record Ops := mkOps {
  os_makedirs : string -> Py.Exc unit;
  can_save : PIL.Saver;
  fill_separate_join : nat -> World -> Py.Exc World
}.

(** What the operator is run on. *)
Record Scene := mkScene {
  selected_objects : list Object;
  data_materials : Py.Dict string Material;
  disk : PIL.FileSystem;
  ops : Ops
}.

(** Line 136. The empty path names no directory: [os.makedirs] raises
    [FileNotFoundError] on it. *)
Definition makedirs (o : Ops) (directory : string) : Py.Exc unit :=
  if decide (directory = "") then Py.Raise Py.FileNotFoundError
  else os_makedirs o directory.

(** The body of the loop of lines 177-255 for the object at place [k] of
    [objs]. Reading [obj.name] of an object the host has removed raises
    [ReferenceError]. *)
Definition process_object (cfg : Settings) (o : Ops)
    (variants : Py.Dict string (list (Box * string * nat)))
    (sizes : Py.Dict string (Z * Z)) (c : Crops)
    (fmap : Py.Dict string (list Assignment))
    (acc : Py.Dict string Material * World) (k : nat)
    : Py.Exc (Py.Dict string Material * World) :=
  let '(store, world) := acc in
  obj ← Py.of_option Py.ReferenceError (mjoin (world !! k));
  '(store', obj') ← remap_object cfg variants sizes c fmap store obj;
  world' ← fill_separate_join o k (<[k := Some obj']> world);
  mret (store', world').

Record Finished := mkFinished {
  out_objects : World;
  out_materials : Py.Dict string Material;
  out_disk : PIL.FileSystem;
  out_variants : Py.Dict string (list (Box * string * nat));
  out_sizes : Py.Dict string (Z * Z);
  out_text : Py.Dict string string;
  out_reports : list Report
}.

Inductive Outcome :=
| CANCELLED (rs : list Report)
| FINISHED (out : Finished).

(** [ExportUVInfoOperator.execute]. The changes of mode and of the active
    object around the loops are taken to succeed. *)
Definition execute (cfg : Settings) (scene : Scene) : Py.Exc Outcome :=
  let objs := filter (fun o => obj_type o = "MESH") (selected_objects scene) in
  match objs with
  | [] => mret (CANCELLED [("WARNING", "Select at least one mesh.")])
  | _ =>
      let start := {|
        gathered := {| global_variants := []; global_sizes := []; assignments := [] |};
        face_map := []; reports := [] |} in
      col ← Py.for_each (gather_object cfg) objs start;
      let variants := deduplicate_all (global_variants (gathered col)) in
      let sizes := global_sizes (gathered col) in
      _ ← makedirs (ops scene) (directory cfg);
      let c := run_crops cfg (can_save (ops scene)) (disk scene) variants in
      '(store, world) ←
        Py.for_each (process_object cfg (ops scene) variants sizes c (face_map col))
          (seq 0 (length objs)) (data_materials scene, Some <$> objs);
      mret (FINISHED {|
        out_objects := world; out_materials := store; out_disk := files c;
        out_variants := variants; out_sizes := sizes;
        out_text := write_metadata cfg variants sizes;
        out_reports := reports col ++
          [("INFO", "Export complete: UV data, crops, remapping, fills, separation, and join finished.")]
      |})
  end.

(** The image files when [execute] has left, by a return or by an
    exception. The crop pool is the only writer of image files, and it has
    run once the gathering loops and [os.makedirs] have returned; nothing
    in it raises. *)
Definition written (cfg : Settings) (scene : Scene) : PIL.FileSystem :=
  let objs := filter (fun o => obj_type o = "MESH") (selected_objects scene) in
  match objs with
  | [] => disk scene
  | _ =>
      let start := {|
        gathered := {| global_variants := []; global_sizes := []; assignments := [] |};
        face_map := []; reports := [] |} in
      match Py.for_each (gather_object cfg) objs start,
            makedirs (ops scene) (directory cfg) with
      | Py.Ret col, Py.Ret _ =>
          files (run_crops cfg (can_save (ops scene)) (disk scene)
                   (deduplicate_all (global_variants (gathered col))))
      | _, _ => disk scene
      end
  end.

(** *** [ProcessMultipleOperator] *)

(** The host operators the batch calls: the two importers give the
    selection and [bpy.data.materials] after the import, or raise; the
    exporter writes the objects that are selected to a path, or raises;
    [h_ops] is what the host decides inside the export operator. *)
Record Host := mkHost {
  obj_import : string -> Py.Exc (list Object * Py.Dict string Material);
  fbx_import : string -> Py.Exc (list Object * Py.Dict string Material);
  obj_export : string -> list Object -> Py.Exc unit;
  h_ops : Ops
}.

(** What a batch has left behind: the image files, the metadata files and
    the exported models, in the order they were written. *)
Record Batch := mkBatch {
  b_disk : PIL.FileSystem;
  b_text : Py.Dict string string;
  b_exported : list string
}.

Definition is_asset (fname : string) : bool :=
  Py.endswith (Py.lower fname) ".obj" || Py.endswith (Py.lower fname) ".fbx".

(** [os.path.splitext(fname)[0]] for a name with a three-letter extension. *)
Definition splitext0 (fname : string) : string :=
  String.substring 0 (String.length fname - 4) fname.

(** The body of the loop over [filenames] (lines 371-422): what the
    batch has left behind when the body is left, and the exception that
    left it, if one did. The export operator writes its crops before it
    remaps and its metadata last, so a model whose remap raises leaves its
    crops, and a model whose export to [out_path] raises leaves its crops
    and its metadata. *)
Definition process_file (host : Host) (cfg : Settings) (dirpath : string)
    (st : Batch) (fname : string) : Batch * option Py.Error :=
  if is_asset fname then
    let fullpath := Py.path_join dirpath fname in
    match (if Py.endswith (Py.lower fname) ".obj" then obj_import host fullpath
           else fbx_import host fullpath) with
    | Py.Raise e => (st, Some e)
    | Py.Ret (selected, store) =>
        match filter (fun o => obj_type o = "MESH") selected with
        | [] => (st, None)
        | _ =>
            let cfg' := {| directory := dirpath; crop_images := crop_images cfg;
                           crop_per_border := crop_per_border cfg;
                           remap_model := remap_model cfg |} in
            let scene := {| selected_objects := selected; data_materials := store;
                            disk := b_disk st; ops := h_ops host |} in
            let cropped := {| b_disk := written cfg' scene; b_text := b_text st;
                              b_exported := b_exported st |} in
            match execute cfg' scene with
            | Py.Raise e => (cropped, Some e)
            | Py.Ret out =>
                let listed :=
                  match out with
                  | CANCELLED _ => cropped
                  | FINISHED o =>
                      {| b_disk := b_disk cropped;
                         b_text := foldl (fun d '(path, text) => Py.setitem d path text)
                                         (b_text st) (out_text o);
                         b_exported := b_exported st |}
                  end in
                let left :=
                  match out with
                  | CANCELLED _ => selected
                  | FINISHED o => omap id (out_objects o)
                  end in
                let out_path := Py.path_join dirpath (splitext0 fname +:+ "_Fix.obj") in
                match obj_export host out_path left with
                | Py.Raise e => (listed, Some e)
                | Py.Ret _ =>
                    ({| b_disk := b_disk listed; b_text := b_text listed;
                        b_exported := b_exported listed ++ [out_path] |}, None)
                end
            end
        end
    end
  else (st, None).


(** The two nested loops of lines 370-422 over the files of the walk; an
    exception leaves them with what was written until it was raised. *)
Fixpoint process_files (host : Host) (cfg : Settings)
    (todo : list (string * string)) (st : Batch) : Batch * option Py.Error :=
  match todo with
  | [] => (st, None)
  | (dirpath, fname) :: rest =>
      match process_file host cfg dirpath st fname with
      | (st', None) => process_files host cfg rest st'
      | (st', Some e) => (st', Some e)
      end
  end.


End V1.

(** ** [UVIslandFillOperator] of export_uv_infoV1.py *)

Module UVIslandFill.
Import Bpy.

(** [a / b] on floats: Python raises on a divisor equal to zero. *)
Definition truediv (a b : float) : Py.Exc float :=
  if PrimFloat.eqb b PrimFloat.zero then Py.Raise Py.ZeroDivisionError
  else mret (PrimFloat.div a b).

(** Lines 326-327: one UV moved into the bounding box of all of them. *)
Definition stretch (min_u min_v du dv : float) (uv : UV) : Py.Exc UV :=
  x ← truediv (PrimFloat.sub (uv_x uv) min_u) du;
  y ← truediv (PrimFloat.sub (uv_y uv) min_v) dv;
  mret {| uv_x := x; uv_y := y |}.

(** The body of the loop of lines 310-328 for one object (taken to be in
    edit mode, as [from_edit_mesh] asks): all UVs of the mesh are gathered
    in [all_uvs] and rewritten against their common bounding box. *)
Definition fill_object (obj : Object) : Py.Exc Object :=
  if uv_layer obj then
    let all_uvs := flat_map loops (faces (bm obj)) in
    match all_uvs with
    | [] => mret obj
    | _ :: _ =>
        min_u ← Py.min (uv_x <$> all_uvs);
        max_u ← Py.max (uv_x <$> all_uvs);
        min_v ← Py.min (uv_y <$> all_uvs);
        max_v ← Py.max (uv_y <$> all_uvs);
        let du := PrimFloat.sub max_u min_u in
        let dv := PrimFloat.sub max_v min_v in
        if PrimFloat.eqb du PrimFloat.zero || PrimFloat.eqb dv PrimFloat.zero then mret obj
        else
          fcs ← mapM (fun f =>
                   uvs ← mapM (stretch min_u min_v du dv) (loops f);
                   mret {| index := index f; material_index := material_index f;
                           loops := uvs; edges := edges f |}) (faces (bm obj));
          mret {| obj_name := obj_name obj; obj_type := obj_type obj;
                  materials := materials obj; uv_layer := uv_layer obj;
                  bm := {| faces := fcs; link_faces := link_faces (bm obj) |} |}
    end
  else mret obj.

Inductive Outcome :=
| CANCELLED (r : string * string)
| FINISHED (objs : list Object).

(** [UVIslandFillOperator.execute] on [context.selected_editable_objects]:
    the mesh objects afterwards. *)
Definition execute (selected_editable_objects : list Object) : Py.Exc Outcome :=
  match filter (fun o => obj_type o = "MESH") selected_editable_objects with
  | [] => mret (CANCELLED ("ERROR", "No mesh objects in edit mode."))
  | objs => objs' ← mapM fill_object objs; mret (FINISHED objs')
  end.

End UVIslandFill.

(** ** export_uv_info.py *)

Module Legacy.
Import Bpy.

(** [ExportUVInfoOperator.get_image_from_face]. Line 167 tests the slot
    before it reads [use_nodes]: an empty slot gives no image. *)
Definition image_of_slot (mats : list (option Material)) (idx : nat) : option Image :=
  match mats !! idx with
  | Some (Some mat) => if use_nodes mat then first_tex_image (nodes mat) else None
  | Some None => None
  | None => None
  end.

Fixpoint scan_loops (mats : list (option Material)) (face : BMFace) (ls : list UV)
    : option Image :=
  match ls with
  | [] => None
  | _ :: rest =>
      match image_of_slot mats (material_index face) with
      | Some im => Some im
      | None => scan_loops mats face rest
      end
  end.

Definition get_image_from_face (mats : list (option Material)) (face : BMFace)
    : option Image :=
  scan_loops mats face (loops face).

(** [convert_coords] on floats against the int height [h]. *)
Definition convert_coords (coords : float * float * float * float) (h : Z)
    : float * float * float * float :=
  let '(xmin, ymin, xmax, ymax) := coords in
  (xmin, PrimFloat.sub (Py.float_of_int h) ymax, xmax, PrimFloat.sub (Py.float_of_int h) ymin).

(** Lines 63-68 *)
Definition bounds_of (w h : Z) (ls : list UV) : Py.Exc Box :=
  let uvs := (fun uv => (PrimFloat.mul (uv_x uv) (Py.float_of_int w),
                         PrimFloat.mul (uv_y uv) (Py.float_of_int h))) <$> ls in
  let xs := uvs.*1 in
  let ys := uvs.*2 in
  xmin ← Py.min xs;
  xmax ← Py.max xs;
  ymin ← Py.min ys;
  ymax ← Py.max ys;
  let '(xmin, ymin, xmax, ymax) := convert_coords (xmin, ymin, xmax, ymax) h in
  a ← Py.int xmin;
  b ← Py.int ymin;
  c ← Py.int xmax;
  d ← Py.int ymax;
  mret (a, b, c, d).

(** Lines 70-72: the variant of [bounds] among the boxes of [name], and
    the table afterwards. *)
Definition dedup (unique : Py.Dict string (list Box)) (name : string) (bounds : Box)
    : Py.Exc (Py.Dict string (list Box) * nat) :=
  let unique1 := Py.setdefault unique name [] in
  let seen := default [] (Py.get unique1 name) in
  let unique2 :=
    if decide (bounds ∈ seen) then unique1
    else Py.setitem unique1 name (seen ++ [bounds]) in
  pos ← Py.of_option Py.ValueError
          (Py.index_of bounds (default [] (Py.get unique2 name)));
  mret (unique2, S pos).

(** The deduplicator presented with an ordered sequence of
    [(name, bounds)] pairs, starting from the empty table: the table at the
    end and the variants in order. *)
Definition dedup_pair (st : Py.Dict string (list Box) * list nat) (x : string * Box)
    : Py.Exc (Py.Dict string (list Box) * list nat) :=
  '(unique', variant) ← dedup st.1 x.1 x.2;
  mret (unique', st.2 ++ [variant]).

Definition dedup_sequence (seq : list (string * Box))
    : Py.Exc (Py.Dict string (list Box) * list nat) :=
  Py.for_each dedup_pair seq ([], []).

(** [f"{name}_variant{variant}"] *)
Definition variant_name (name : string) (variant : nat) : string :=
  name +:+ "_variant" +:+ pretty variant.

(** Line 76: [f"{bounds},    # coords for '{name}_variant{variant}'"] *)
Definition coord_line (name : string) (variant : nat) (bounds : Box) : string :=
  Py.str_tuple4 bounds +:+ ",    # coords for '" +:+ variant_name name variant +:+ "'".

(** Line 74 *)
Definition name_line (name : string) (variant : nat) : string :=
  Py.dquote +:+ variant_name name variant +:+ Py.dquote +:+ ",".

(** Line 75 *)
Definition crop_line (name : string) : string :=
  Py.dquote +:+ name +:+ Py.dquote +:+ ",".

(** The containers of lines 47-54. *)
Record Collected := mkCollected {
  coord_data : list string;
  name_data : list string;
  crop_data : list string;
  unique : Py.Dict string (list Box);
  dimensions : Py.Dict string (Z * Z);
  count : Py.Dict string nat;
  bounds_per_image : Py.Dict string (list (Box * string * nat));
  face_assignments : list (nat * string * nat * Box)
}.

Definition empty : Collected :=
  {| coord_data := []; name_data := []; crop_data := []; unique := [];
     dimensions := []; count := []; bounds_per_image := []; face_assignments := [] |}.

(** The body of the loop of lines 56-82. *)
Definition collect_face (mats : list (option Material)) (st : Collected) (face : BMFace)
    : Py.Exc Collected :=
  match get_image_from_face mats face with
  | None => mret st
  | Some image =>
      let name := basename (img_filepath image) in
      let path := abspath (img_filepath image) in
      let '(w, h) := img_size image in
      bounds ← bounds_of w h (loops face);
      '(unique', variant) ← dedup (unique st) name bounds;
      let per_image := Py.setdefault (bounds_per_image st) name [] in
      mret {|
        coord_data := coord_data st ++ [coord_line name variant bounds];
        name_data := name_data st ++ [name_line name variant];
        crop_data := crop_data st ++ [crop_line name];
        unique := unique';
        dimensions := Py.setdefault (dimensions st) name (w, h);
        count := Py.setitem (count st) name (default O (Py.get (count st) name) + 1)%nat;
        bounds_per_image :=
          Py.setitem per_image name
            (default [] (Py.get per_image name) ++ [(bounds, path, variant)]);
        face_assignments := face_assignments st ++ [(index face, name, variant, bounds)]
      |}
  end.

(** Line 90 *)
Definition size_line (name : string) (w h : Z) : string :=
  "(" +:+ Py.dquote +:+ name +:+ Py.dquote +:+ ", " +:+ pretty w +:+ ", " +:+ pretty h
      +:+ ")," +:+ Py.newline.

(** Lines 87-90: the lines written to the size file, in order. *)
Definition size_lines (st : Collected) : Py.Exc (list string) :=
  Py.for_each (fun acc '(name, (w, h)) =>
    n ← Py.of_option Py.KeyError (Py.get (count st) name);
    mret (acc ++ replicate n (size_line name w h))) (dimensions st) [].

(** The operator's properties. *)
Record Settings := mkSettings {
  directory : string;
  crop_images : bool;
  remap_model : bool
}.

Definition Report : Type := string * string.

(** [image_map], the image files and the warnings of the crop loop. *)
Record Crops := mkCrops {
  image_map : Py.Dict (string * nat) (string * string);
  files : PIL.FileSystem;
  crop_reports : list Report
}.

(** The body of the loop of lines 97-109 (the text of a caught exception
    is not represented in the warning). Whatever raises between lines 102
    and 107, the save included, is caught on line 108. *)
Definition crop_variant (cfg : Settings) (saver : PIL.Saver) (name : string) (c : Crops)
    (entry : Box * string * nat) : Crops :=
  let '(bounds, path, variant) := entry in
  let failed := {| image_map := image_map c; files := files c;
                   crop_reports := crop_reports c ++
                     [("WARNING", "Error al recortar " +:+ name)] |} in
  match files c !! path with
  | None =>
      {| image_map := image_map c; files := files c;
         crop_reports := crop_reports c ++
           [("WARNING", "No se encontro la imagen: " +:+ path)] |}
  | Some None => failed
  | Some (Some im) =>
      match PIL.crop im bounds with
      | Py.Raise _ => failed
      | Py.Ret cropped =>
          let new_name := variant_name name variant +:+ ".png" in
          let save_path := Py.path_join (directory cfg) new_name in
          if saver save_path cropped then
            {| image_map := Py.setitem (image_map c) (name, variant) (save_path, new_name);
               files := <[save_path := Some cropped]> (files c);
               crop_reports := crop_reports c |}
          else failed
      end
  end.

(** Lines 92-109 *)
Definition crop_all (cfg : Settings) (saver : PIL.Saver) (fs : PIL.FileSystem)
    (st : Collected) : Crops :=
  let start := {| image_map := []; files := fs; crop_reports := [] |} in
  if crop_images cfg then
    foldl (fun c '(name, bounds_list) => foldl (crop_variant cfg saver name) c bounds_list)
          start (bounds_per_image st)
  else start.

(** Lines 137-147: the UVs of a face stretched over their own extent. *)
Definition fill_uvs (uvs : list UV) : Py.Exc (list UV) :=
  min_u ← Py.min (uv_x <$> uvs);
  max_u ← Py.max (uv_x <$> uvs);
  min_v ← Py.min (uv_y <$> uvs);
  max_v ← Py.max (uv_y <$> uvs);
  let width := PrimFloat.sub max_u min_u in
  let height := PrimFloat.sub max_v min_v in
  if PrimFloat.ltb PrimFloat.zero width && PrimFloat.ltb PrimFloat.zero height then
    mret ((fun uv => {| uv_x := PrimFloat.div (PrimFloat.sub (uv_x uv) min_u) width;
                        uv_y := PrimFloat.div (PrimFloat.sub (uv_y uv) min_v) height |}) <$> uvs)
  else mret uvs.

(** Everything the remap loop can write to: [mat_lookup], the material
    slots of the object, the faces of the edit mesh, and the operator's
    reports. *)
Record Remap := mkRemap {
  mat_lookup : Py.Dict string nat;
  slots : list (option Material);
  r_faces : list BMFace;
  r_reports : list Report
}.

(** [bpy.data.images.load(path, check_existing=True)] *)
Definition load_image (fs : PIL.FileSystem) (path : string) : Py.Exc Image :=
  match fs !! path with
  | Some (Some im) =>
      mret {| img_name := basename path; img_filepath := path; img_size := PIL.size im |}
  | _ => Py.Raise Py.RuntimeError
  end.

(** The body of the loop of lines 115-147. *)
Definition remap_face (fs : PIL.FileSystem)
    (imap : Py.Dict (string * nat) (string * string)) (st : Remap)
    (a : nat * string * nat * Box) : Py.Exc Remap :=
  let '(face_idx, orig_name, variant, bounds) := a in
  match Py.get imap (orig_name, variant) with
  | None => mret st
  | Some (image_path, image_filename) =>
      if decide (image_path = "") then mret st
      else
        image ← load_image fs image_path;
        let mat_key := variant_name orig_name variant in
        let '(lookup, slots') :=
          match Py.get (mat_lookup st) mat_key with
          | Some _ => (mat_lookup st, slots st)
          | None =>
              let mat := {| mat_name := mat_key; use_nodes := true;
                            nodes := [mkNode "BSDF_PRINCIPLED" None;
                                      mkNode "OUTPUT_MATERIAL" None;
                                      mkNode "TEX_IMAGE" (Some image)] |} in
              let slots' := slots st ++ [Some mat] in
              (Py.setitem (mat_lookup st) mat_key (length slots' - 1)%nat, slots')
          end in
        mat_index ← Py.of_option Py.KeyError (Py.get lookup mat_key);
        face ← Py.of_option Py.IndexError (r_faces st !! face_idx);
        uvs ← fill_uvs (loops face);
        mret {| mat_lookup := lookup; slots := slots';
                r_faces := <[face_idx := {| index := index face; material_index := mat_index;
                                            loops := uvs; edges := edges face |}]> (r_faces st);
                r_reports := r_reports st |}
  end.

(** What the operator is run on: [context.object], the image files, and
    which saves of a cropped image the host lets return. *)
Record Context := mkContext {
  object : option Object;
  disk : PIL.FileSystem;
  can_save : PIL.Saver
}.

Record Finished := mkFinished {
  out_collected : Collected;
  out_text : Py.Dict string string;
  out_crops : Crops;
  out_remap : Remap;
  out_reports : list Report
}.

Inductive Outcome :=
| CANCELLED (r : Report)
| FINISHED (out : Finished).

(** [ExportUVInfoOperator.execute] *)
Definition execute (cfg : Settings) (ctx : Context) : Py.Exc Outcome :=
  match object ctx with
  | None => mret (CANCELLED ("WARNING", "Selecciona un mesh en modo Edicion."))
  | Some obj =>
      if decide (obj_type obj = "MESH") then
        if uv_layer obj then
          st ← Py.for_each (collect_face (materials obj)) (faces (bm obj)) empty;
          sizes ← size_lines st;
          let text :=
            [ (Py.path_join (directory cfg) "uv_coordinates.txt",
                 Py.join Py.newline (coord_data st));
              (Py.path_join (directory cfg) "image_names.txt",
                 Py.join Py.newline (name_data st));
              (Py.path_join (directory cfg) "image_names_to_crop.txt",
                 Py.join Py.newline (crop_data st));
              (Py.path_join (directory cfg) "image_sizes.txt",
                 foldl (fun text line => text +:+ line) "" sizes) ] in
          let c := crop_all cfg (can_save ctx) (disk ctx) st in
          let start := {| mat_lookup := []; slots := materials obj;
                          r_faces := faces (bm obj); r_reports := crop_reports c |} in
          r ← (if remap_model cfg && crop_images cfg then
                 Py.for_each (remap_face (files c) (image_map c)) (face_assignments st) start
               else mret start);
          mret (FINISHED {|
            out_collected := st; out_text := text; out_crops := c; out_remap := r;
            out_reports := r_reports r ++
              [("INFO", "Exportacion, remapeo y ajuste UV completados en " +:+ directory cfg)]
          |})
        else mret (CANCELLED ("WARNING", "No se encontraron UVs."))
      else mret (CANCELLED ("WARNING", "Selecciona un mesh en modo Edicion."))
  end.

End Legacy.

(** ** Statements of the specification that are compared with the code *)

Module Spec.
Import Bpy.


(** The Variant Deduplicator as stated: it keeps for every image name the
    list of the distinct boxes seen for it; a box already in the list of
    its image gets its 1-based position there, and a new box is appended
    and gets the new position. *)
Definition dedup (table : string -> list Box) (name : string) (box : Box)
    : (string -> list Box) * nat :=
  match Py.index_of box (table name) with
  | Some i => (table, S i)
  | None =>
      (fun n => if decide (n = name) then table name ++ [box] else table n,
       S (length (table name)))
  end.

(** The stated deduplicator presented with an ordered sequence, starting
    with no box seen: the lists at the end and the variants in order. *)
Definition dedup_all (seq : list (string * Box)) : (string -> list Box) * list nat :=
  foldl (fun acc x =>
           let '(table', v) := dedup acc.1 x.1 x.2 in (table', acc.2 ++ [v]))
        (fun _ => [], []) seq.

(** First match wins: the image of the first face of a group that
    resolves one. *)
Definition first_resolved_image (mats : list (option Material)) (group : list BMFace)
    : option Image :=
  head (omap (V1.resolved mats) group).

End Spec.

(** ** Concrete scenes *)

Module Scenes.
Import Bpy.

(** An opaque white raster of a given size. *)
Definition blank (w h : Z) : PIL.Image :=
  {| PIL.size := (w, h); PIL.getpixel := fun _ => (255, 255, 255, 255) |}.

Definition imgA : Image := mkImage "A.png" "/tex/A.png" (8, 8).
Definition imgB : Image := mkImage "B.png" "/tex/B.png" (4, 4).

Definition matA : Material := mkMaterial "MatA" true [mkNode "TEX_IMAGE" (Some imgA)].
Definition matB : Material := mkMaterial "MatB" true [mkNode "TEX_IMAGE" (Some imgB)].
Definition matNone : Material := mkMaterial "Plain" false [].

(** Both textures are on disk. *)
Definition disk_AB : PIL.FileSystem :=
  {[ "/tex/A.png" := Some (blank 8 8); "/tex/B.png" := Some (blank 4 4) ]}.

(** Only the first texture is on disk. *)
Definition disk_A : PIL.FileSystem := {[ "/tex/A.png" := Some (blank 8 8) ]}.

(** A host on which every save of a crop returns. *)
Definition saves : PIL.Saver := fun _ _ => true.

(** A host on which directories can be made and crops saved. Its
    operators of lines 231-255 return, and are made to hand the objects
    back as they got them, so that a scene shows what the script itself has
    done to them. *)
Definition ops_ok : V1.Ops :=
  {| V1.os_makedirs := fun _ => Py.Ret tt;
     V1.can_save := saves;
     V1.fill_separate_join := fun _ world => Py.Ret world |}.

Definition cfg_face : V1.Settings := V1.mkSettings "/out" true false true.
Definition cfg_island : V1.Settings := V1.mkSettings "/out" false true true.

(** The lower-left quarter and the upper-right quarter of UV space. *)
Definition quarter_ll : list UV :=
  [mkUV 0 0; mkUV 0.5 0; mkUV 0.5 0.5; mkUV 0 0.5]%float.
Definition quarter_ur : list UV :=
  [mkUV 0.5 0.5; mkUV 1 0.5; mkUV 1 1; mkUV 0.5 1]%float.

(** Three quads: the first two share edge 1 and use different textures,
    the third is isolated and its material has no texture. *)
Definition face0 : BMFace := mkFace 0 0 quarter_ll [0; 1; 2; 3]%nat.
Definition face1 : BMFace := mkFace 1 1 quarter_ur [1; 4; 5; 6]%nat.
Definition face2 : BMFace := mkFace 2 2 quarter_ll [7; 8; 9; 10]%nat.

Definition mesh3 : BMesh := mesh_of [face0; face1; face2].

Definition cube : Object :=
  mkObject "Cube" "MESH" [Some matA; Some matB; Some matNone] true mesh3.

(** Two quads with the same UVs and the same texture. *)
Definition twin0 : BMFace := mkFace 0 0 quarter_ll [0; 1; 2; 3]%nat.
Definition twin1 : BMFace := mkFace 1 0 quarter_ll [4; 5; 6; 7]%nat.
Definition twin2 : BMFace := mkFace 2 0 quarter_ur [8; 9; 10; 11]%nat.

Definition twins : Object :=
  mkObject "Twins" "MESH" [Some matA] true (mesh_of [twin0; twin1; twin2]).

(** A quad over the lower-left eighth of a 1024 by 128 texture. *)
Definition imgT : Image := mkImage "T.png" "/tex/T.png" (1024, 128).

Definition strip : Object :=
  mkObject "Strip" "MESH" [Some (mkMaterial "MatT" true [mkNode "TEX_IMAGE" (Some imgT)])]
    true
    (mesh_of [mkFace 0 0 [mkUV 0 0; mkUV 0.5 0; mkUV 0.5 0.25; mkUV 0 0.25]%float
                     [0; 1; 2; 3]%nat]).

Definition disk_T : PIL.FileSystem := {[ "/tex/T.png" := Some (blank 1024 128) ]}.








(** What a finished run of the newer script leaves: the variants, the UV
    loops of the faces of every object, and the size of the image file at
    [path]. *)
Definition remapped (r : Py.Exc V1.Outcome) (path : string)
    : option (Py.Dict string (list (Box * string * nat)) * list (list (list UV))
              * option (option (Z * Z))) :=
  match r with
  | Py.Ret (V1.FINISHED o) =>
      Some (V1.out_variants o,
            map (fun ob => map loops (faces (bm ob))) (omap id (V1.out_objects o)),
            match V1.out_disk o !! path with
            | Some im => Some (option_map PIL.size im)
            | None => None
            end)
  | _ => None
  end.

(** What a finished run of the newer script reports and lists. *)
Definition summary (r : Py.Exc V1.Outcome)
    : option (list V1.Report * Py.Dict string (list (Box * string * nat))
              * Py.Dict string string) :=
  match r with
  | Py.Ret (V1.FINISHED o) => Some (V1.out_reports o, V1.out_variants o, V1.out_text o)
  | _ => None
  end.

End Scenes.

(** ** Invariants used in the proofs *)

(** The keys of the two tables of the newer script are distinct, and
    every image that has variants has a size. *)
Definition well_keyed (g : V1.Gathered) : Prop :=
  NoDup (Py.keys (V1.global_variants g)) /\ NoDup (Py.keys (V1.global_sizes g)) /\
  forall name, is_Some (Py.get (V1.global_variants g) name) ->
               is_Some (Py.get (V1.global_sizes g) name).

(** The image lookup returns for every face of a list. *)
Definition lookups_return (mats : list (option Bpy.Material)) (fs : list Bpy.BMFace)
    : Prop :=
  Forall (fun f => exists r, V1.get_image_from_face mats f = Py.Ret r) fs.

(** The scan of the loops of a face, and of the faces of a group, when the
    image lookups return: what [V1.scan_face] and [V1.scan_group] then
    come to. *)
Definition scanned_face (mats : list (option Bpy.Material)) (sc : V1.Scan)
    (f2 : Bpy.BMFace) : V1.Scan :=
  foldl (fun sc uv =>
    match V1.resolved mats f2 with
    | Some im =>
        let '(w, h) := Bpy.img_size im in
        {| V1.sc_coords := V1.sc_coords sc ++ [V1.to_pixels w h uv];
           V1.sc_img := Some im;
           V1.sc_sizes := Py.setitem (V1.sc_sizes sc) (Bpy.img_name im) (w, h) |}
    | None => sc
    end) sc (Bpy.loops f2).

Definition scanned_group (mats : list (option Bpy.Material))
    (sizes : Py.Dict string (Z * Z)) (group : list Bpy.BMFace) : V1.Scan :=
  foldl (scanned_face mats)
    {| V1.sc_coords := []; V1.sc_img := None; V1.sc_sizes := sizes |} group.

(** The bodies of the two gathering loops when the image lookups return:
    what [V1.gather_face] and [V1.gather_island] then come to. *)
Definition gathered_face (mats : list (option Bpy.Material)) (st : V1.Gathered)
    (face : Bpy.BMFace) : Py.Exc V1.Gathered :=
  match V1.resolved mats face with
  | None => mret st
  | Some img =>
      let '(w, h) := Bpy.img_size img in
      let sizes := Py.setitem (V1.global_sizes st) (Bpy.img_name img) (w, h) in
      let uvs_px := V1.to_pixels w h <$> Bpy.loops face in
      bounds ← V1.bounds_of uvs_px h;
      let path := Bpy.abspath (Bpy.img_filepath img) in
      mret {|
        V1.global_variants :=
          V1.append_variant (V1.global_variants st) (Bpy.img_name img) (bounds, path, None);
        V1.global_sizes := sizes;
        V1.assignments := V1.assignments st ++ [(Bpy.index face, Bpy.img_name img, bounds)]
      |}
  end.

Definition gathered_island (mats : list (option Bpy.Material)) (st : V1.Gathered)
    (group : list Bpy.BMFace) : Py.Exc V1.Gathered :=
  let sc := scanned_group mats (V1.global_sizes st) group in
  match V1.sc_coords sc, V1.sc_img sc with
  | _ :: _, Some img =>
      bounds ← V1.bounds_of (V1.sc_coords sc) (Bpy.img_size img).2;
      let path := Bpy.abspath (Bpy.img_filepath img) in
      mret {|
        V1.global_variants :=
          V1.append_variant (V1.global_variants st) (Bpy.img_name img) (bounds, path, None);
        V1.global_sizes := V1.sc_sizes sc;
        V1.assignments :=
          V1.assignments st ++
            ((fun f2 => (Bpy.index f2, Bpy.img_name img, bounds)) <$> group)
      |}
  | _, _ =>
      mret {|
        V1.global_variants := V1.global_variants st;
        V1.global_sizes := V1.sc_sizes sc;
        V1.assignments := V1.assignments st
      |}
  end.

(** What the scan of a group does to the sizes: keys stay distinct, none
    is lost, and the image it ends with has one. *)
Definition scan_sized (sizes : Py.Dict string (Z * Z)) (sc : V1.Scan) : Prop :=
  NoDup (Py.keys (V1.sc_sizes sc)) /\
  (forall name, is_Some (Py.get sizes name) -> is_Some (Py.get (V1.sc_sizes sc) name)) /\
  (forall im, V1.sc_img sc = Some im -> is_Some (Py.get (V1.sc_sizes sc) (Bpy.img_name im))).

(** The pushes still ahead of the flood fill: for every face not yet
    visited, its neighbours and one more. *)
Definition work (m : Bpy.BMesh) (visited : gset nat) : nat :=
  sum_list ((fun g => if decide (Bpy.index g ∈ visited) then O
                      else S (length (V1.neighbours m g))) <$> Bpy.faces m).

(** A set of face indices that no shared edge leaves. *)
Definition closed (m : Bpy.BMesh) (visited : gset nat) : Prop :=
  forall f g, Bpy.adjacent m f g -> Bpy.index f ∈ visited -> Bpy.index g ∈ visited.

(** What a run of the flood loop from [visited] and [stack] adds: the
    faces [new], all unvisited before and distinct, each linked to a face
    of the stack; afterwards every face of the stack is visited and no
    shared edge leads from a new face to an unvisited one. *)
Definition flooded (m : Bpy.BMesh) (visited : gset nat) (stack : list Bpy.BMFace)
    (visited' : gset nat) (new : list Bpy.BMFace) : Prop :=
  visited' = visited ∪ list_to_set (Bpy.index <$> new) /\
  NoDup (Bpy.index <$> new) /\
  (forall g, g ∈ new -> g ∈ Bpy.faces m /\ (Bpy.index g ∉ visited) /\
                        exists s, s ∈ stack /\ Bpy.connected m s g) /\
  (forall s, s ∈ stack -> Bpy.index s ∈ visited') /\
  (forall g h, g ∈ new -> Bpy.adjacent m g h -> Bpy.index h ∈ visited').

(** An island is the set of faces linked to one of its faces. *)
Definition is_component (m : Bpy.BMesh) (group : list Bpy.BMFace) : Prop :=
  NoDup group /\
  exists f0, f0 ∈ Bpy.faces m /\
    forall h, h ∈ group <-> h ∈ Bpy.faces m /\ Bpy.connected m f0 h.

(** The state of the loop over the faces: the visited indices are those of
    the grouped faces, no shared edge leaves them, and the groups are
    disjoint components. *)
Definition islands_so_far (m : Bpy.BMesh) (visited : gset nat)
    (groups : list (list Bpy.BMFace)) : Prop :=
  closed m visited /\
  visited = list_to_set (Bpy.index <$> concat groups) /\
  NoDup (Bpy.index <$> concat groups) /\
  Forall (is_component m) groups.

(** How many face assignments of the older script name an image. *)
Definition faces_of_image (st : Legacy.Collected) (name : string) : nat :=
  length (filter (fun a => a.1.1.2 = name) (Legacy.face_assignments st)).

(** The counters and the dimensions of the older script follow its face
    assignments. *)
Definition counted (st : Legacy.Collected) : Prop :=
  (forall name,
     Py.get (Legacy.count st) name =
       if decide (faces_of_image st name = O) then None
       else Some (faces_of_image st name)) /\
  (forall name, is_Some (Py.get (Legacy.dimensions st) name) ->
                faces_of_image st name <> O) /\
  NoDup (Py.keys (Legacy.dimensions st)).

(** Two face lists of one mesh before and after a rewrite of UVs and
    material indices: face by face the index, the edges and the number of
    loops are the same. *)
Definition same_shape (fs fs' : list Bpy.BMFace) : Prop :=
  Forall2 (fun f f' => Bpy.index f' = Bpy.index f /\ Bpy.edges f' = Bpy.edges f /\
                       length (Bpy.loops f') = length (Bpy.loops f)) fs fs'.

(** Every material stored under a key carries that key as its name. *)
Definition well_named (mats : Py.Dict string Bpy.Material) : Prop :=
  Forall (fun e => Bpy.mat_name e.2 = e.1) mats.

(** The state of the older script's remap loop against the slots the
    object started with: the slots have only grown, and [mat_lookup] maps
    the name of each appended material to the slot it was appended at. *)
Definition lookup_matches_slots (slots0 : list (option Bpy.Material)) (r : Legacy.Remap)
    : Prop :=
  exists added,
    Legacy.slots r = slots0 ++ (Some <$> added) /\
    Legacy.mat_lookup r =
      zip (Bpy.mat_name <$> added) (seq (length slots0) (length added)) /\
    NoDup (Bpy.mat_name <$> added).


(** A mesh in which no two different faces share an edge. *)
Definition no_shared_edges (m : Bpy.BMesh) : Prop :=
  forall f g, Bpy.adjacent m f g -> g = f.

(** An assignment whose box is among the variants gathered for its image
    and whose image has a recorded size. *)
Definition assignment_known (g : V1.Gathered) (a : V1.Assignment) : Prop :=
  a.2 ∈ (default [] (Py.get (V1.global_variants g) a.1.2)).*1.*1 /\
  is_Some (Py.get (V1.global_sizes g) a.1.2).

(** The state of the gathering loop of one object: the tables are well
    keyed, and the assignments made so far, for this object and for the
    objects before it ([outer]), are all known to the tables. *)
Definition gather_known (outer : list V1.Assignment) (g : V1.Gathered) : Prop :=
  well_keyed g /\ Forall (assignment_known g) (outer ++ V1.assignments g).

(** The same for the state between two objects. *)
Definition collected_known (col : V1.Collected) : Prop :=
  well_keyed (V1.gathered col) /\
  Forall (assignment_known (V1.gathered col)) (concat (V1.face_map col).*2).



(** The names of the materials in the slots of an object, slot by slot; an
    empty slot has none. *)
Definition slot_names (slots : list (option Bpy.Material)) : list (option string) :=
  (fun slot : option Bpy.Material => Bpy.mat_name <$> slot) <$> slots.
(** * Properties *)

(** ** Crop clamping and the crop task *)

Section Clamp.
Variables w h : Z.

Lemma clamp_box_eq (x0 y0 x1 y1 : Z) :
  V1.clamp_box w h (x0, y0, x1, y1) =
    (Z.max 0 (Z.min x0 (w - 1)), Z.max 0 (Z.min y0 (h - 1)),
     Z.max (Z.max 0 (Z.min x0 (w - 1)) + 1) (Z.min x1 w),
     Z.max (Z.max 0 (Z.min y0 (h - 1)) + 1) (Z.min y1 h)).
Proof. reflexivity. Qed.

(** The clamped box always has positive width and height. *)
Lemma clamp_box_positive (b : Bpy.Box) (cx0 cy0 cx1 cy1 : Z) :
  V1.clamp_box w h b = (cx0, cy0, cx1, cy1) -> cx0 < cx1 /\ cy0 < cy1.
Proof.
  destruct b as [[[x0 y0] x1] y1]. rewrite clamp_box_eq.
  intros [= <- <- <- <-]. lia.
Qed.

(** Against an image with at least one pixel the clamped box lies inside. *)
Lemma clamp_box_inside (b : Bpy.Box) (cx0 cy0 cx1 cy1 : Z) :
  1 <= w -> 1 <= h ->
  V1.clamp_box w h b = (cx0, cy0, cx1, cy1) ->
  0 <= cx0 /\ cx1 <= w /\ 0 <= cy0 /\ cy1 <= h.
Proof.
  destruct b as [[[x0 y0] x1] y1]. rewrite clamp_box_eq.
  intros ? ? [= <- <- <- <-]. lia.
Qed.

End Clamp.

(** The crop of a box of positive extent. *)
Lemma crop_positive (im : PIL.Image) (cx0 cy0 cx1 cy1 : Z) :
  cx0 < cx1 -> cy0 < cy1 ->
  PIL.crop im (cx0, cy0, cx1, cy1) =
    Py.Ret {| PIL.size := (cx1 - cx0, cy1 - cy0);
              PIL.getpixel := fun p =>
                let src := (cx0 + p.1, cy0 + p.2) in
                if PIL.inside im src then PIL.getpixel im src else (0, 0, 0, 0) |}.
Proof.
  intros ? ?. unfold PIL.crop.
  destruct (decide (cx1 < cx0 \/ cy1 < cy0)) as [[?|?]|_]; [lia | lia |].
  reflexivity.
Qed.

(** What [crop_task] returns on a source that decodes: the crop of the
    clamped box, if the save of it returns. *)
Lemma crop_task_decoded (cfg : V1.Settings) (saver : PIL.Saver) (fs : PIL.FileSystem)
    (name src : string) (vid : nat) (im : PIL.Image) (b : Bpy.Box) (cx0 cy0 cx1 cy1 : Z) :
  fs !! src = Some (Some im) ->
  V1.clamp_box (PIL.size im).1 (PIL.size im).2 b = (cx0, cy0, cx1, cy1) ->
  exists cropped,
    PIL.crop im (cx0, cy0, cx1, cy1) = Py.Ret cropped /\
    cropped = {| PIL.size := (cx1 - cx0, cy1 - cy0);
                 PIL.getpixel := fun p =>
                   let src := (cx0 + p.1, cy0 + p.2) in
                   if PIL.inside im src then PIL.getpixel im src else (0, 0, 0, 0) |} /\
    V1.crop_task cfg saver fs (name, src, vid, b) =
      if saver (Py.path_join (V1.directory cfg) (V1.variant_name name vid +:+ ".png"))
               cropped
      then Some ((name, vid,
                  Py.path_join (V1.directory cfg) (V1.variant_name name vid +:+ ".png"),
                  (cx0, cy0, cx1, cy1)), cropped)
      else None.
Proof.
  intros Hfs Hc. pose proof (clamp_box_positive _ _ _ _ _ _ _ Hc) as [? ?].
  eexists. split; [apply crop_positive; assumption |]. split; [reflexivity |].
  unfold V1.crop_task. rewrite Hfs.
  destruct (PIL.size im) as [w h] eqn:Hsz. simpl in Hc. rewrite Hc.
  destruct (decide (cx1 <= cx0 \/ cy1 <= cy0)) as [[?|?]|_]; [lia | lia |].
  rewrite crop_positive by assumption. reflexivity.
Qed.

(** C3: against an image of width [w >= 1] and height [h >= 1], the crop
    task clamps the box: xmin and ymin are floored to 0, xmax and ymax are
    capped at [w] and [h], and xmax >= xmin + 1 and ymax >= ymin + 1 are
    forced; the box (-5, -5, 10, 10) against an 8x8 image becomes
    (0, 0, 8, 8); and the crop that results is a new raster whose width and
    height are xmax - xmin and ymax - ymin of the clamped box, holding the
    source pixels of that rectangle; the task returns it with the clamped
    box whenever the save of it returns. *)
Theorem crop_clamps_box_into_image (cfg : V1.Settings) (saver : PIL.Saver)
    (fs : PIL.FileSystem)
    (name src : string) (vid : nat) (im : PIL.Image) (w h x0 y0 x1 y1 : Z) :
  fs !! src = Some (Some im) -> PIL.size im = (w, h) -> 1 <= w -> 1 <= h ->
  exists cx0 cy0 cx1 cy1 out_path cropped,
    V1.clamp_box w h (x0, y0, x1, y1) = (cx0, cy0, cx1, cy1) /\
    (0 <= cx0 /\ (x0 <= 0 -> cx0 = 0) /\ (0 <= x0 <= w - 1 -> cx0 = x0)) /\
    (0 <= cy0 /\ (y0 <= 0 -> cy0 = 0) /\ (0 <= y0 <= h - 1 -> cy0 = y0)) /\
    (cx1 <= w /\ (w <= x1 -> cx1 = w) /\ (cx0 + 1 <= x1 <= w -> cx1 = x1)) /\
    (cy1 <= h /\ (h <= y1 -> cy1 = h) /\ (cy0 + 1 <= y1 <= h -> cy1 = y1)) /\
    cx0 + 1 <= cx1 /\ cy0 + 1 <= cy1 /\
    V1.clamp_box 8 8 (-5, -5, 10, 10) = (0, 0, 8, 8) /\
    PIL.crop im (cx0, cy0, cx1, cy1) = Py.Ret cropped /\
    V1.crop_task cfg saver fs (name, src, vid, (x0, y0, x1, y1)) =
      (if saver out_path cropped
       then Some ((name, vid, out_path, (cx0, cy0, cx1, cy1)), cropped)
       else None) /\
    PIL.size cropped = (cx1 - cx0, cy1 - cy0) /\
    forall x y, 0 <= x < cx1 - cx0 -> 0 <= y < cy1 - cy0 ->
      PIL.getpixel cropped (x, y) = PIL.getpixel im (cx0 + x, cy0 + y).
Proof.
  intros Hfs Hsz Hw Hh.
  destruct (V1.clamp_box w h (x0, y0, x1, y1)) as [[[cx0 cy0] cx1] cy1] eqn:Hc.
  pose proof (clamp_box_inside _ _ _ _ _ _ _ Hw Hh Hc) as (? & ? & ? & ?).
  assert (Hc2 : V1.clamp_box (PIL.size im).1 (PIL.size im).2 (x0, y0, x1, y1)
                = (cx0, cy0, cx1, cy1)) by (rewrite Hsz; exact Hc).
  destruct (crop_task_decoded cfg saver fs name src vid im _ _ _ _ _ Hfs Hc2)
    as (cropped & Hcrop & Hcropped & Htask).
  pose proof Hc as Hc'. rewrite clamp_box_eq in Hc'. injection Hc' as <- <- <- <-.
  eexists _, _, _, _, _, cropped. split; [reflexivity |].
  repeat (split; [lia || reflexivity |]).
  split; [exact Hcrop |]. split; [exact Htask |].
  rewrite Hcropped. split; [reflexivity |].
  intros x y Hx Hy. simpl.
  unfold PIL.inside. rewrite Hsz. simpl.
  rewrite bool_decide_eq_true_2; [reflexivity | lia].
Qed.

Lemma crop_clamps_box_into_image_witness :
  exists cx0 cy0 cx1 cy1 out_path cropped,
    V1.clamp_box 8 8 (-5, -5, 10, 10) = (cx0, cy0, cx1, cy1) /\
    (0 <= cx0 /\ (-5 <= 0 -> cx0 = 0) /\ (0 <= -5 <= 8 - 1 -> cx0 = -5)) /\
    (0 <= cy0 /\ (-5 <= 0 -> cy0 = 0) /\ (0 <= -5 <= 8 - 1 -> cy0 = -5)) /\
    (cx1 <= 8 /\ (8 <= 10 -> cx1 = 8) /\ (cx0 + 1 <= 10 <= 8 -> cx1 = 10)) /\
    (cy1 <= 8 /\ (8 <= 10 -> cy1 = 8) /\ (cy0 + 1 <= 10 <= 8 -> cy1 = 10)) /\
    cx0 + 1 <= cx1 /\ cy0 + 1 <= cy1 /\
    V1.clamp_box 8 8 (-5, -5, 10, 10) = (0, 0, 8, 8) /\
    PIL.crop (Scenes.blank 8 8) (cx0, cy0, cx1, cy1) = Py.Ret cropped /\
    V1.crop_task Scenes.cfg_face Scenes.saves Scenes.disk_AB
        ("A.png", "/tex/A.png", 1%nat, (-5, -5, 10, 10)) =
      (if Scenes.saves out_path cropped
       then Some (("A.png", 1%nat, out_path, (cx0, cy0, cx1, cy1)), cropped)
       else None) /\
    PIL.size cropped = (cx1 - cx0, cy1 - cy0) /\
    forall x y, 0 <= x < cx1 - cx0 -> 0 <= y < cy1 - cy0 ->
      PIL.getpixel cropped (x, y) = PIL.getpixel (Scenes.blank 8 8) (cx0 + x, cy0 + y).
Proof.
  apply (crop_clamps_box_into_image Scenes.cfg_face Scenes.saves Scenes.disk_AB
           "A.png" "/tex/A.png" 1%nat (Scenes.blank 8 8) 8 8 (-5) (-5) 10 10);
    [vm_compute; reflexivity | reflexivity | lia | lia].
Defined.

(** C2 (as stated, refuted): the box (100, 100, 110, 110) lies entirely
    outside an 8x8 image, yet the crop task does not fail: it returns the
    one-pixel box (7, 7, 8, 8) at the far corner. *)
Lemma crop_outside_box_is_fixed_not_rejected :
  fst <$> V1.crop_task Scenes.cfg_face Scenes.saves Scenes.disk_AB
            ("A.png", "/tex/A.png", 1%nat, (100, 100, 110, 110))
  = Some ("A.png", 1%nat, "/out/A.png_variant1.png", (7, 7, 8, 8)).
Proof. vm_compute. reflexivity. Qed.

(** C2 (amended): on a source that decodes, every box, wherever it lies,
    is clamped to a box of positive width and height and is cropped, so the
    test for a degenerate region never rejects anything. The crop task
    fails exactly when the source file is missing or does not decode, or
    when the save of the cropped image raises; every such failure is the
    recoverable [None] of one task. *)
Theorem crop_task_fails_without_source_or_save (cfg : V1.Settings) (saver : PIL.Saver)
    (fs : PIL.FileSystem) (name src : string) (vid : nat) (b : Bpy.Box) :
  let out_path :=
    Py.path_join (V1.directory cfg) (V1.variant_name name vid +:+ ".png") in
  (forall im, fs !! src = Some (Some im) ->
     exists cx0 cy0 cx1 cy1 cropped,
       V1.clamp_box (PIL.size im).1 (PIL.size im).2 b = (cx0, cy0, cx1, cy1) /\
       cx0 < cx1 /\ cy0 < cy1 /\
       PIL.crop im (cx0, cy0, cx1, cy1) = Py.Ret cropped /\
       PIL.size cropped = (cx1 - cx0, cy1 - cy0) /\
       V1.crop_task cfg saver fs (name, src, vid, b) =
         if saver out_path cropped
         then Some ((name, vid, out_path, (cx0, cy0, cx1, cy1)), cropped)
         else None) /\
  (V1.crop_task cfg saver fs (name, src, vid, b) = None <->
     fs !! src = None \/ fs !! src = Some None \/
     exists im cropped,
       fs !! src = Some (Some im) /\
       PIL.crop im (V1.clamp_box (PIL.size im).1 (PIL.size im).2 b) = Py.Ret cropped /\
       saver out_path cropped = false).
Proof.
  intros out_path.
  assert (Hsome : forall im, fs !! src = Some (Some im) ->
     exists cx0 cy0 cx1 cy1 cropped,
       V1.clamp_box (PIL.size im).1 (PIL.size im).2 b = (cx0, cy0, cx1, cy1) /\
       cx0 < cx1 /\ cy0 < cy1 /\
       PIL.crop im (cx0, cy0, cx1, cy1) = Py.Ret cropped /\
       PIL.size cropped = (cx1 - cx0, cy1 - cy0) /\
       V1.crop_task cfg saver fs (name, src, vid, b) =
         if saver out_path cropped
         then Some ((name, vid, out_path, (cx0, cy0, cx1, cy1)), cropped)
         else None).
  { intros im Hfs.
    destruct (V1.clamp_box (PIL.size im).1 (PIL.size im).2 b)
      as [[[cx0 cy0] cx1] cy1] eqn:Hc.
    pose proof (clamp_box_positive _ _ _ _ _ _ _ Hc) as [? ?].
    destruct (crop_task_decoded cfg saver fs name src vid im b _ _ _ _ Hfs Hc)
      as (cropped & Hcrop & Hcropped & Htask).
    exists cx0, cy0, cx1, cy1, cropped. split; [reflexivity |].
    split; [assumption |]. split; [assumption |]. split; [exact Hcrop |].
    split; [rewrite Hcropped; reflexivity | exact Htask]. }
  split; [exact Hsome |].
  split.
  - intros Hnone. destruct (fs !! src) as [[im|]|] eqn:Hfs; auto.
    right. right.
    destruct (Hsome im eq_refl) as (cx0 & cy0 & cx1 & cy1 & cropped & Hc & _ & _ & Hcrop & _ & Hrun).
    exists im, cropped. split; [reflexivity |]. rewrite Hc. split; [exact Hcrop |].
    rewrite Hnone in Hrun. destruct (saver out_path cropped); [discriminate | reflexivity].
  - intros [Hfs | [Hfs | (im & cropped & Hfs & Hcrop & Hsave)]].
    + unfold V1.crop_task. rewrite Hfs. reflexivity.
    + unfold V1.crop_task. rewrite Hfs. reflexivity.
    + destruct (Hsome im Hfs) as (cx0 & cy0 & cx1 & cy1 & cropped' & Hc & _ & _ & Hcrop' & _ & Hrun).
      rewrite Hc in Hcrop. rewrite Hcrop in Hcrop'. injection Hcrop' as <-.
      rewrite Hrun, Hsave. reflexivity.
Qed.

(** A save that raises makes the task fail although its source decodes:
    with A.png on disk and a host that refuses every save, the crop task of
    its first variant returns [None]. *)
Example crop_task_fails_when_the_save_raises :
  V1.crop_task Scenes.cfg_face (fun _ _ => false) Scenes.disk_AB
    ("A.png", "/tex/A.png", 1%nat, (0, 4, 4, 8)) = None.
Proof. vm_compute. reflexivity. Qed.

(** ** Pixel bounds of a single UV point *)






(** ** Dictionaries and loops *)

Section DictFacts.
Context {K V : Type} `{EqDecision K}.
Implicit Types (d : Py.Dict K V) (k : K) (v : V).

Lemma get_setitem_eq d k v : Py.get (Py.setitem d k v) k = Some v.
Proof.
  induction d as [| [k' v'] d IH]; simpl.
  - rewrite decide_True; auto.
  - destruct (decide (k' = k)) as [-> | Hne]; simpl.
    + rewrite decide_True; auto.
    + rewrite decide_False; auto.
Qed.

Lemma get_setitem_ne d k k' v : k <> k' -> Py.get (Py.setitem d k v) k' = Py.get d k'.
Proof.
  intros Hne. induction d as [| [k0 v0] d IH]; simpl.
  - rewrite decide_False; auto.
  - destruct (decide (k0 = k)) as [-> | Hne0]; simpl.
    + rewrite !decide_False; auto.
    + destruct (decide (k0 = k')); auto.
Qed.

Lemma get_Some_elem_of d k v : Py.get d k = Some v -> (k, v) ∈ d.
Proof.
  induction d as [| [k' v'] d IH]; simpl; [discriminate |].
  destruct (decide (k' = k)) as [-> | Hne].
  - intros [= ->]. left.
  - intros. right. auto.
Qed.

Lemma get_None_keys d k : Py.get d k = None <-> k ∉ Py.keys d.
Proof.
  unfold Py.keys. induction d as [| [k' v'] d IH]; simpl.
  - split; [intros _; apply not_elem_of_nil | reflexivity].
  - rewrite not_elem_of_cons. destruct (decide (k' = k)) as [-> | Hne].
    + split; [discriminate | intros [? _]; congruence].
    + rewrite IH. split; [intros; split; auto | intros [_ ?]; assumption].
Qed.

Lemma keys_setitem_present d k v :
  k ∈ Py.keys d -> Py.keys (Py.setitem d k v) = Py.keys d.
Proof.
  unfold Py.keys. induction d as [| [k' v'] d IH]; simpl.
  - intros Hin. inversion Hin.
  - intros Hin. destruct (decide (k' = k)) as [-> | Hne]; simpl; [reflexivity |].
    f_equal. apply IH. apply elem_of_cons in Hin as [-> | Hin]; [congruence | exact Hin].
Qed.

Lemma keys_setitem_absent d k v :
  k ∉ Py.keys d -> Py.setitem d k v = d ++ [(k, v)].
Proof.
  unfold Py.keys. induction d as [| [k' v'] d IH]; simpl; [reflexivity |].
  rewrite not_elem_of_cons. intros [Hne Hnin].
  rewrite decide_False by congruence. f_equal. auto.
Qed.

Lemma keys_setitem_NoDup d k v : NoDup (Py.keys d) -> NoDup (Py.keys (Py.setitem d k v)).
Proof.
  intros Hnd. destruct (decide (k ∈ Py.keys d)) as [Hin | Hnin].
  - rewrite keys_setitem_present; assumption.
  - rewrite keys_setitem_absent by assumption. unfold Py.keys in *.
    rewrite fmap_app. simpl. apply NoDup_app. repeat split; auto.
    + intros x Hx Hx'. apply list_elem_of_singleton in Hx'. subst. auto.
    + apply NoDup_singleton.
Qed.

End DictFacts.

Lemma for_each_app {A S} (body : S -> A -> Py.Exc S) (xs ys : list A) (st : S) :
  Py.for_each body (xs ++ ys) st = (Py.for_each body xs st ≫= Py.for_each body ys).
Proof.
  revert st. induction xs as [| x xs IH]; intros st; simpl; [reflexivity |].
  destruct (body st x) as [st' | e]; simpl; auto.
Qed.

Section IndexOf.
Context {A : Type} `{EqDecision A}.
Implicit Types (x : A) (l : list A).

Lemma index_of_Some x l i :
  Py.index_of x l = Some i -> l !! i = Some x /\ forall j, (j < i)%nat -> l !! j <> Some x.
Proof.
  revert i. induction l as [| y l IH]; intros i; simpl; [discriminate |].
  destruct (decide (y = x)) as [-> | Hne].
  - intros [= <-]. split; [reflexivity | intros j Hj; lia].
  - destruct (Py.index_of x l) as [i' |] eqn:Hi; simpl; [| discriminate].
    intros [= <-]. destruct (IH i' eq_refl) as [Hl Hfirst]. split; [exact Hl |].
    intros [| j] Hj; simpl; [congruence | apply Hfirst; lia].
Qed.

Lemma index_of_elem_of x l : x ∈ l -> exists i, Py.index_of x l = Some i.
Proof.
  induction l as [| y l IH]; simpl; [intros Hin; inversion Hin |].
  intros Hin. destruct (decide (y = x)) as [-> | Hne]; [eauto |].
  apply elem_of_cons in Hin as [-> | Hin]; [congruence |].
  destruct (IH Hin) as [i ->]. simpl. eauto.
Qed.

Lemma index_of_app_l x l l' i :
  Py.index_of x l = Some i -> Py.index_of x (l ++ l') = Some i.
Proof.
  revert i. induction l as [| y l IH]; intros i; simpl; [discriminate |].
  destruct (decide (y = x)); [auto |].
  destruct (Py.index_of x l) as [i' |]; simpl; [| discriminate].
  rewrite (IH i' eq_refl). auto.
Qed.

Lemma index_of_snoc_new x l : x ∉ l -> Py.index_of x (l ++ [x]) = Some (length l).
Proof.
  induction l as [| y l IH]; simpl.
  - intros _. rewrite decide_True; auto.
  - rewrite not_elem_of_cons. intros [Hne Hnin].
    rewrite decide_False by congruence. rewrite IH by assumption. reflexivity.
Qed.

End IndexOf.

(** ** The variant deduplicator *)

(** The step of the older script: the variant is the 1-based position of
    the box among the boxes of its image, appended when it is new. *)
Lemma legacy_dedup_step (unique : Py.Dict string (list Bpy.Box)) (name : string)
    (box : Bpy.Box) :
  let seen := default [] (Py.get unique name) in
  exists unique' pos,
    Legacy.dedup unique name box = Py.Ret (unique', S pos) /\
    (forall other, other <> name -> Py.get unique' other = Py.get unique other) /\
    (box ∈ seen ->
       Py.get unique' name = Some seen /\ seen !! pos = Some box /\
       forall j, (j < pos)%nat -> seen !! j <> Some box) /\
    (box ∉ seen -> Py.get unique' name = Some (seen ++ [box]) /\ pos = length seen).
Proof.
  unfold Legacy.dedup, Py.setdefault.
  destruct (Py.get unique name) as [l |] eqn:Hget; simpl.
  - rewrite Hget. simpl. destruct (decide (box ∈ l)) as [Hin | Hnin].
    + rewrite Hget. simpl. destruct (index_of_elem_of _ _ Hin) as [i Hi].
      rewrite Hi. simpl. exists unique, i. split; [reflexivity |].
      split; [auto |]. split; [| tauto].
      intros _. split; [assumption |]. apply index_of_Some. assumption.
    + rewrite get_setitem_eq. simpl. rewrite index_of_snoc_new by assumption. simpl.
      eexists _, _. split; [reflexivity |].
      split; [intros; apply get_setitem_ne; congruence |].
      split; [tauto |]. intros _. rewrite get_setitem_eq. auto.
  - rewrite get_setitem_eq. simpl. rewrite get_setitem_eq. simpl.
    rewrite decide_True by reflexivity. simpl.
    eexists _, _. split; [reflexivity |].
    split; [intros; rewrite !get_setitem_ne by congruence; reflexivity |].
    split; [intros Hin; inversion Hin |].
    intros _. rewrite get_setitem_eq. auto.
Qed.

(** The bounds of a list of deduplicated variants. *)
Local Abbreviation bounds_of_variants u := (u.*1.*1).

Lemma dedup_fold_invariant (lst : list V1.Variant) :
  let '(u, seen) := foldl V1.dedup_step ([], ∅) lst in
  (forall b, seen !! b = None <-> b ∉ bounds_of_variants u) /\
  (forall k e, u !! k = Some e -> e.2 = S k) /\
  NoDup (bounds_of_variants u).
Proof.
  induction lst as [| [[b p] o] lst IH] using rev_ind.
  - simpl. split; [| split].
    + intros b. split; [intros _; apply not_elem_of_nil | intros _; apply lookup_empty].
    + intros k e Hk. inversion Hk.
    + apply NoDup_nil_2.
  - rewrite foldl_app. simpl.
    destruct (foldl V1.dedup_step ([], ∅) lst) as [u seen].
    destruct IH as (Hseen & Hvid & Hnd). unfold V1.dedup_step.
    destruct (seen !! b) as [v |] eqn:Hb; [auto |].
    split; [| split].
    + intros b'. rewrite !fmap_app. simpl. rewrite not_elem_of_app.
      destruct (decide (b = b')) as [<- | Hne].
      * rewrite lookup_insert_eq. split; [discriminate |].
        intros [_ Hn]. exfalso. apply Hn. left.
      * rewrite lookup_insert_ne by assumption. rewrite Hseen.
        split; [intros; split; [assumption |] | tauto].
        intros Hin. apply list_elem_of_singleton in Hin. congruence.
    + intros k e Hk. apply lookup_app_Some in Hk as [Hk | [Hlen Hk]]; [eauto |].
      destruct (k - length u)%nat as [| n] eqn:Hd; simpl in Hk; [| inversion Hk].
      injection Hk as <-. simpl. f_equal. lia.
    + rewrite !fmap_app. simpl. apply NoDup_app. split; [assumption |].
      split; [| apply NoDup_singleton].
      intros x Hx Hx'. apply list_elem_of_singleton in Hx'. subst x.
      apply Hseen in Hb. contradiction.
Qed.

Lemma deduplicate_snoc (lst : list V1.Variant) (b : Bpy.Box) (p : string) (o : option nat) :
  V1.deduplicate (lst ++ [(b, p, o)]) =
    if decide (b ∈ bounds_of_variants (V1.deduplicate lst)) then V1.deduplicate lst
    else V1.deduplicate lst ++ [(b, p, S (length (V1.deduplicate lst)))].
Proof.
  unfold V1.deduplicate. rewrite foldl_app. simpl.
  pose proof (dedup_fold_invariant lst) as Hinv.
  destruct (foldl V1.dedup_step ([], ∅) lst) as [u seen].
  destruct Hinv as (Hseen & _ & _). simpl.
  destruct (seen !! b) as [v |] eqn:Hb; simpl.
  - rewrite decide_True; [reflexivity |].
    destruct (decide (b ∈ bounds_of_variants u)) as [? | Hn]; [assumption |].
    apply Hseen in Hn. congruence.
  - rewrite decide_False; [reflexivity |]. apply Hseen. assumption.
Qed.

Lemma deduplicate_positions (lst : list V1.Variant) (k : nat) (e : Bpy.Box * string * nat) :
  V1.deduplicate lst !! k = Some e -> e.2 = S k.
Proof.
  unfold V1.deduplicate. pose proof (dedup_fold_invariant lst) as Hinv.
  destruct (foldl V1.dedup_step ([], ∅) lst) as [u seen].
  destruct Hinv as (_ & Hvid & _). apply Hvid.
Qed.

Lemma deduplicate_NoDup (lst : list V1.Variant) :
  NoDup (bounds_of_variants (V1.deduplicate lst)).
Proof.
  unfold V1.deduplicate. pose proof (dedup_fold_invariant lst) as Hinv.
  destruct (foldl V1.dedup_step ([], ∅) lst) as [u seen]. apply Hinv.
Qed.

(** The lookup of line 205 finds the first entry with the given bounds. *)
Lemma variant_of_first (u : list (Bpy.Box * string * nat)) (b : Bpy.Box) :
  b ∈ bounds_of_variants u ->
  exists i e, u !! i = Some e /\ e.1.1 = b /\
    (forall j, (j < i)%nat -> bounds_of_variants u !! j <> Some b) /\
    V1.variant_of u b = Py.Ret e.2.
Proof.
  induction u as [| [[b' p'] v'] u IH]; simpl; [intros Hin; inversion Hin |].
  intros Hin. destruct (decide (b' = b)) as [-> | Hne].
  - exists O, (b, p', v'). repeat split; auto. intros j Hj. lia.
  - apply elem_of_cons in Hin as [-> | Hin]; [congruence |].
    destruct (IH Hin) as (i & e & Hi & He & Hfirst & Hv).
    exists (S i), e. repeat split; auto.
    intros [| j] Hj; simpl; [congruence | apply Hfirst; lia].
Qed.

Lemma variant_of_app_l (u more : list (Bpy.Box * string * nat)) (b : Bpy.Box) :
  b ∈ bounds_of_variants u -> V1.variant_of (u ++ more) b = V1.variant_of u b.
Proof.
  induction u as [| [[b' p'] v'] u IH]; simpl; [intros Hin; inversion Hin |].
  intros Hin. destruct (decide (b' = b)); [reflexivity |].
  apply IH. apply elem_of_cons in Hin as [-> | Hin]; [congruence | exact Hin].
Qed.

Lemma variant_of_snoc_new (u : list (Bpy.Box * string * nat)) (b : Bpy.Box)
    (p : string) (v : nat) :
  b ∉ bounds_of_variants u -> V1.variant_of (u ++ [(b, p, v)]) b = Py.Ret v.
Proof.
  induction u as [| [[b' p'] v'] u IH]; simpl.
  - intros _. rewrite decide_True; reflexivity.
  - rewrite not_elem_of_cons. intros [Hne Hnin].
    rewrite decide_False by congruence. auto.
Qed.

Lemma deduplicate_app_prefix (lst ext : list V1.Variant) :
  exists more, V1.deduplicate (lst ++ ext) = V1.deduplicate lst ++ more.
Proof.
  induction ext as [| [[b p] o] ext IH] using rev_ind.
  - exists []. rewrite !app_nil_r. reflexivity.
  - destruct IH as [more IH]. rewrite app_assoc, deduplicate_snoc, IH.
    destruct (decide (b ∈ bounds_of_variants (V1.deduplicate lst ++ more))).
    + exists more. reflexivity.
    + eexists. rewrite <- app_assoc. reflexivity.
Qed.

Lemma deduplicate_bounds (lst : list V1.Variant) (b : Bpy.Box) :
  b ∈ bounds_of_variants (V1.deduplicate lst) <-> b ∈ bounds_of_variants lst.
Proof.
  induction lst as [| [[b' p] o] lst IH] using rev_ind.
  - reflexivity.
  - rewrite deduplicate_snoc, !fmap_app. simpl. rewrite elem_of_app, list_elem_of_singleton.
    destruct (decide (b' ∈ bounds_of_variants (V1.deduplicate lst))) as [Hin | Hnin].
    + rewrite IH. split; [tauto |]. intros [? | ->]; [assumption |]. apply IH, Hin.
    + rewrite !fmap_app. simpl. rewrite elem_of_app, list_elem_of_singleton, IH. tauto.
Qed.

Lemma legacy_dedup_run (seq : list (string * Bpy.Box))
    (unique : Py.Dict string (list Bpy.Box)) (variants : list nat) :
  exists unique' new,
    Py.for_each Legacy.dedup_pair seq (unique, variants)
    = Py.Ret (unique', variants ++ new) /\ length new = length seq.
Proof.
  revert unique variants. induction seq as [| [name b] seq IH]; intros unique variants.
  - exists unique, []. rewrite app_nil_r. split; reflexivity.
  - destruct (legacy_dedup_step unique name b) as (u' & pos & Hrun & _).
    assert (Hstep : Legacy.dedup_pair (unique, variants) (name, b)
                    = Py.Ret (u', variants ++ [S pos])).
    { unfold Legacy.dedup_pair. simpl. rewrite Hrun. reflexivity. }
    destruct (IH u' (variants ++ [S pos])) as (u'' & new & Hrest & Hlen).
    exists u'', (S pos :: new). split; [| simpl; lia].
    change (Py.for_each Legacy.dedup_pair ((name, b) :: seq) (unique, variants))
      with (Legacy.dedup_pair (unique, variants) (name, b)
              ≫= Py.for_each Legacy.dedup_pair seq).
    rewrite Hstep. simpl. rewrite Hrest, <- app_assoc. reflexivity.
Qed.

(** The step of the newer script, seen on the gathered list: one more
    entry leaves the deduplicated list as it was when its box was seen,
    and appends the box with the next number otherwise; the lookup of the
    remap then finds that number. *)
Lemma v1_dedup_step (lst : list V1.Variant) (b : Bpy.Box) (p : string) (o : option nat) :
  let u := V1.deduplicate lst in
  let u' := V1.deduplicate (lst ++ [(b, p, o)]) in
  exists pos,
    V1.variant_of u' b = Py.Ret (S pos) /\
    (b ∈ bounds_of_variants u ->
       u' = u /\ bounds_of_variants u !! pos = Some b /\
       forall j, (j < pos)%nat -> bounds_of_variants u !! j <> Some b) /\
    (b ∉ bounds_of_variants u -> u' = u ++ [(b, p, S pos)] /\ pos = length u).
Proof.
  intros u u'. subst u u'. rewrite deduplicate_snoc.
  destruct (decide (b ∈ bounds_of_variants (V1.deduplicate lst))) as [Hin | Hnin].
  - destruct (variant_of_first _ _ Hin) as (i & e & Hi & He & Hfirst & Hv).
    exists i. rewrite Hv, (deduplicate_positions _ _ _ Hi).
    split; [reflexivity |]. split; [| tauto]. intros _.
    split; [reflexivity |]. split; [| exact Hfirst].
    rewrite !list_lookup_fmap, Hi. simpl. congruence.
  - exists (length (V1.deduplicate lst)).
    rewrite variant_of_snoc_new by assumption.
    split; [reflexivity |]. split; [tauto | auto].
Qed.

(** ** The two scripts number the variants alike *)

Lemma get_append_variant (gv : Py.Dict string (list V1.Variant)) (name other : string)
    (v : V1.Variant) :
  default [] (Py.get (V1.append_variant gv name v) other) =
    if decide (name = other) then default [] (Py.get gv name) ++ [v]
    else default [] (Py.get gv other).
Proof.
  unfold V1.append_variant. destruct (decide (name = other)) as [<- | Hne].
  - rewrite get_setitem_eq. simpl. f_equal. unfold Py.setdefault.
    destruct (Py.get gv name) eqn:Hg; [rewrite Hg; reflexivity |].
    rewrite get_setitem_eq. reflexivity.
  - rewrite get_setitem_ne by assumption. unfold Py.setdefault.
    destruct (Py.get gv name); [reflexivity |]. rewrite get_setitem_ne by assumption.
    reflexivity.
Qed.

Lemma variant_of_Ret_elem (u : list (Bpy.Box * string * nat)) (b : Bpy.Box) (v : nat) :
  V1.variant_of u b = Py.Ret v -> b ∈ bounds_of_variants u.
Proof.
  induction u as [| [[b' p] v'] u IH]; simpl; [discriminate |].
  destruct (decide (b' = b)) as [-> | Hne]; [intros _; left |].
  intros Hv. right. auto.
Qed.

Lemma first_index_unique {A} (l : list A) (x : A) (i j : nat) :
  l !! i = Some x -> (forall k, (k < i)%nat -> l !! k <> Some x) ->
  l !! j = Some x -> (forall k, (k < j)%nat -> l !! k <> Some x) -> i = j.
Proof.
  intros Hi Hfi Hj Hfj. destruct (Nat.lt_trichotomy i j) as [Hlt | [Heq | Hgt]];
    [exfalso; eapply Hfj; eassumption | exact Heq | exfalso; eapply Hfi; eassumption].
Qed.

(** Presented with the same ordered sequence, the step-by-step
    deduplicator of the older script and the gather-then-deduplicate of
    the newer one keep the same boxes per image and give every pair the
    same variant number. *)
Lemma scripts_assign_same_variants (seq : list (string * Bpy.Box * string)) :
  let gv := foldl (fun gv x => V1.append_variant gv x.1.1 (x.1.2, x.2, None)) [] seq in
  exists unique variants,
    Legacy.dedup_sequence (fst <$> seq) = Py.Ret (unique, variants) /\
    (forall name,
       default [] (Py.get unique name)
         = bounds_of_variants (V1.deduplicate (default [] (Py.get gv name)))) /\
    Forall2 (fun x v =>
      V1.variant_of (V1.deduplicate (default [] (Py.get gv x.1.1))) x.1.2 = Py.Ret v)
      seq variants.
Proof.
  cbv zeta. induction seq as [| [[name b] p] seq IH] using rev_ind.
  - exists [], []. split; [reflexivity |]. split; [intros name; reflexivity | constructor].
  - destruct IH as (unique & variants & Hrun & Htable & Hvar).
    rewrite foldl_app. cbn [foldl fst snd].
    set (gv := foldl (fun gv x => V1.append_variant gv x.1.1 (x.1.2, x.2, None)) [] seq) in *.
    set (lst := default [] (Py.get gv name)).
    destruct (legacy_dedup_step unique name b) as (unique' & pos & Hstep & Hother & Hseen & Hfresh).
    rewrite (Htable name) in Hseen, Hfresh. fold lst in Hseen, Hfresh.
    exists unique', (variants ++ [S pos]). split; [| split].
    + unfold Legacy.dedup_sequence in *. rewrite fmap_app, for_each_app.
      transitivity (Py.Ret (unique, variants) ≫= Py.for_each Legacy.dedup_pair [(name, b)]);
        [f_equal; exact Hrun |].
      cbn [mbind Py.exc_bind Py.bind Py.for_each]. unfold Legacy.dedup_pair. cbn [fst snd].
      rewrite Hstep. reflexivity.
    + intros other. rewrite get_append_variant.
      destruct (decide (name = other)) as [<- | Hne].
      * fold lst. rewrite deduplicate_snoc.
        destruct (decide (b ∈ bounds_of_variants (V1.deduplicate lst))) as [Hin | Hnin].
        -- destruct (Hseen Hin) as (Hg & _). rewrite Hg. reflexivity.
        -- destruct (Hfresh Hnin) as (Hg & _). rewrite Hg, !fmap_app. reflexivity.
      * rewrite Hother by congruence. apply Htable.
    + apply Forall2_app.
      * eapply Forall2_impl; [exact Hvar |]. intros [[n' b'] p'] v Hv. cbn [fst snd] in *.
        rewrite get_append_variant. destruct (decide (name = n')) as [<- | Hne]; [| exact Hv].
        fold lst in Hv |- *.
        destruct (deduplicate_app_prefix lst [(b, p, None)]) as [more Hmore].
        etransitivity; [exact (f_equal (fun u => V1.variant_of u b') Hmore) |].
        rewrite variant_of_app_l; [exact Hv | eapply variant_of_Ret_elem; exact Hv].
      * constructor; [| constructor]. cbn [fst snd].
        rewrite get_append_variant, decide_True by reflexivity. fold lst.
        destruct (v1_dedup_step lst b p None) as (pos' & Hv & Hin' & Hnin').
        etransitivity; [exact Hv |]. do 2 f_equal.
        destruct (decide (b ∈ bounds_of_variants (V1.deduplicate lst))) as [Hin | Hnin].
        -- destruct (Hseen Hin) as (_ & Hp & Hfirst).
           destruct (Hin' Hin) as (_ & Hp' & Hfirst').
           eapply first_index_unique; eassumption.
        -- destruct (Hfresh Hnin) as (_ & ->). destruct (Hnin' Hnin) as (_ & ->).
           rewrite !length_fmap. reflexivity.
Qed.

Lemma keys_deduplicate_all (gv : Py.Dict string (list V1.Variant)) :
  Py.keys (V1.deduplicate_all gv) = Py.keys gv.
Proof.
  unfold V1.deduplicate_all, Py.keys. rewrite <- list_fmap_compose.
  apply list_fmap_ext. intros ? [name lst] _. reflexivity.
Qed.

Lemma get_deduplicate_all (gv : Py.Dict string (list V1.Variant)) (name : string) :
  Py.get (V1.deduplicate_all gv) name = V1.deduplicate <$> Py.get gv name.
Proof.
  unfold V1.deduplicate_all. induction gv as [| [k lst] gv IH]; [reflexivity |].
  rewrite fmap_cons. cbn [prod_map fst snd Py.get id].
  destruct (decide (k = name)); [reflexivity | exact IH].
Qed.

Lemma index_of_first {A} `{EqDecision A} (x : A) (l : list A) (i : nat) :
  l !! i = Some x -> (forall j, (j < i)%nat -> l !! j <> Some x) ->
  Py.index_of x l = Some i.
Proof.
  intros Hi Hfirst. destruct (index_of_elem_of x l) as [k Hk].
  { apply list_elem_of_lookup. eauto. }
  rewrite Hk. f_equal. destruct (index_of_Some _ _ _ Hk) as [Hk1 Hk2].
  eapply first_index_unique; eassumption.
Qed.

Lemma index_of_absent {A} `{EqDecision A} (x : A) (l : list A) :
  x ∉ l -> Py.index_of x l = None.
Proof.
  intros Hnin. destruct (Py.index_of x l) as [i |] eqn:Hi; [| reflexivity].
  exfalso. apply Hnin. destruct (index_of_Some _ _ _ Hi) as [Hl _].
  eapply list_elem_of_lookup_2. exact Hl.
Qed.

Lemma spec_dedup_all_snoc (seq : list (string * Bpy.Box)) (name : string) (b : Bpy.Box) :
  Spec.dedup_all (seq ++ [(name, b)]) =
    ((Spec.dedup (Spec.dedup_all seq).1 name b).1,
     (Spec.dedup_all seq).2 ++ [(Spec.dedup (Spec.dedup_all seq).1 name b).2]).
Proof.
  unfold Spec.dedup_all. rewrite foldl_app. cbn [foldl fst snd].
  destruct (Spec.dedup _ name b). reflexivity.
Qed.

(** The older script runs the stated deduplicator. *)
Lemma legacy_dedup_is_stated (seq : list (string * Bpy.Box)) :
  exists unique,
    Legacy.dedup_sequence seq = Py.Ret (unique, (Spec.dedup_all seq).2) /\
    forall name, default [] (Py.get unique name) = (Spec.dedup_all seq).1 name.
Proof.
  induction seq as [| [name b] seq IH] using rev_ind.
  - exists []. split; [reflexivity | intros name; reflexivity].
  - destruct IH as (unique & Hrun & Htable).
    destruct (legacy_dedup_step unique name b)
      as (unique' & pos & Hstep & Hother & Hseen & Hfresh).
    rewrite (Htable name) in Hseen, Hfresh.
    assert (Hspec : (Spec.dedup (Spec.dedup_all seq).1 name b).2 = S pos /\
            forall n, (Spec.dedup (Spec.dedup_all seq).1 name b).1 n
                      = default [] (Py.get unique' n)).
    { unfold Spec.dedup.
      destruct (decide (b ∈ (Spec.dedup_all seq).1 name)) as [Hin | Hnin].
      - destruct (Hseen Hin) as (Hg & Hp & Hfirst).
        rewrite (index_of_first _ _ _ Hp Hfirst). cbn [fst snd]. split; [reflexivity |].
        intros n. destruct (decide (n = name)) as [-> | Hne].
        + rewrite Hg. reflexivity.
        + rewrite Hother by exact Hne. symmetry. apply Htable.
      - destruct (Hfresh Hnin) as (Hg & ->).
        rewrite (index_of_absent _ _ Hnin). cbn [fst snd]. split; [reflexivity |].
        intros n. destruct (decide (n = name)) as [-> | Hne].
        + rewrite Hg. reflexivity.
        + rewrite Hother by exact Hne. symmetry. apply Htable. }
    destruct Hspec as [Hv Ht].
    exists unique'. rewrite spec_dedup_all_snoc. cbn [fst snd]. rewrite Hv.
    split; [| intros n; symmetry; apply Ht].
    unfold Legacy.dedup_sequence in *. rewrite for_each_app.
    transitivity (Py.Ret (unique, (Spec.dedup_all seq).2)
                    ≫= Py.for_each Legacy.dedup_pair [(name, b)]);
      [f_equal; exact Hrun |].
    cbn [mbind Py.exc_bind Py.bind Py.for_each]. unfold Legacy.dedup_pair. cbn [fst snd].
    rewrite Hstep. reflexivity.
Qed.

(** C1: presented with an image name and a box, the deduplicator returns
    the existing 1-based position of the box among the distinct boxes of
    that image when it was already seen, and otherwise appends it and
    returns the new position: in the older script step by step (lines
    70-72), in the newer one over the table of gathered boxes, rewritten
    image by image by lines 127-134 and looked up at remap time. Started
    with no box seen and presented with an ordered sequence of names and
    boxes, both scripts keep for every image the stated list of distinct
    boxes and give every pair of the sequence the stated variant; the newer
    one numbers the entries of an image 1, 2, ... in that order. The
    variants are therefore a function of the ordered input, unchanged by
    the pairs that follow, and two runs over one sequence assign alike. *)
Theorem dedup_assigns_first_seen_positions :
  (forall (unique : Py.Dict string (list Bpy.Box)) (name : string) (box : Bpy.Box),
     let seen := default [] (Py.get unique name) in
     exists unique' pos,
       Legacy.dedup unique name box = Py.Ret (unique', S pos) /\
       (forall other, other <> name -> Py.get unique' other = Py.get unique other) /\
       (box ∈ seen ->
          Py.get unique' name = Some seen /\ seen !! pos = Some box /\
          forall j, (j < pos)%nat -> seen !! j <> Some box) /\
       (box ∉ seen -> Py.get unique' name = Some (seen ++ [box]) /\ pos = length seen)) /\
  (forall (lst : list V1.Variant) (b : Bpy.Box) (p : string) (o : option nat),
     let u := V1.deduplicate lst in
     let u' := V1.deduplicate (lst ++ [(b, p, o)]) in
     exists pos,
       V1.variant_of u' b = Py.Ret (S pos) /\
       (b ∈ bounds_of_variants u ->
          u' = u /\ bounds_of_variants u !! pos = Some b /\
          forall j, (j < pos)%nat -> bounds_of_variants u !! j <> Some b) /\
       (b ∉ bounds_of_variants u -> u' = u ++ [(b, p, S pos)] /\ pos = length u)) /\
  (forall seq : list (string * Bpy.Box * string),
     let pairs := fst <$> seq in
     let gv := foldl (fun gv x => V1.append_variant gv x.1.1 (x.1.2, x.2, None)) [] seq in
     let variants := V1.deduplicate_all gv in
     exists unique,
       Legacy.dedup_sequence pairs = Py.Ret (unique, (Spec.dedup_all pairs).2) /\
       (forall name, default [] (Py.get unique name) = (Spec.dedup_all pairs).1 name) /\
       Py.keys variants = Py.keys gv /\
       (forall name,
          bounds_of_variants (default [] (Py.get variants name))
            = (Spec.dedup_all pairs).1 name) /\
       (forall name vs k e,
          Py.get variants name = Some vs -> vs !! k = Some e -> e.2 = S k) /\
       Forall2 (fun x v =>
           V1.variant_of (default [] (Py.get variants x.1.1)) x.1.2 = Py.Ret v)
         seq (Spec.dedup_all pairs).2) /\
  (forall seq ext : list (string * Bpy.Box),
     exists unique variants unique' more,
       Legacy.dedup_sequence seq = Py.Ret (unique, variants) /\
       length variants = length seq /\
       Legacy.dedup_sequence (seq ++ ext) = Py.Ret (unique', variants ++ more)) /\
  (forall (lst ext : list V1.Variant) (b : Bpy.Box),
     b ∈ bounds_of_variants lst ->
     V1.variant_of (V1.deduplicate (lst ++ ext)) b = V1.variant_of (V1.deduplicate lst) b).
Proof.
  split; [exact legacy_dedup_step |]. split; [exact v1_dedup_step |]. split; [| split].
  - intros seq pairs gv variants.
    destruct (legacy_dedup_is_stated pairs) as (unique & Hrun & Htable).
    destruct (scripts_assign_same_variants seq) as (unique0 & vs0 & Hrun0 & Htable0 & Hvar0).
    fold pairs in Hrun0. rewrite Hrun in Hrun0. injection Hrun0 as <- <-.
    fold gv in Htable0, Hvar0.
    assert (Hget : forall name,
              default [] (Py.get variants name)
              = V1.deduplicate (default [] (Py.get gv name))).
    { intros name. subst variants. rewrite get_deduplicate_all.
      destruct (Py.get gv name); reflexivity. }
    exists unique. split; [exact Hrun |]. split; [exact Htable |].
    split; [apply keys_deduplicate_all |]. split; [| split].
    + intros name. rewrite Hget, <- Htable0. apply Htable.
    + intros name vs k e Hvs Hk. subst variants. rewrite get_deduplicate_all in Hvs.
      destruct (Py.get gv name) as [lst |]; [| discriminate]. injection Hvs as <-.
      eapply deduplicate_positions. exact Hk.
    + eapply Forall2_impl; [exact Hvar0 |]. intros x v Hv. rewrite Hget. exact Hv.
  - intros seq ext. unfold Legacy.dedup_sequence.
    destruct (legacy_dedup_run seq [] []) as (u & vs & Hrun & Hlen).
    rewrite app_nil_l in Hrun.
    destruct (legacy_dedup_run ext u vs) as (u' & more & Hrun' & _).
    exists u, vs, u', more. split; [exact Hrun |]. split; [exact Hlen |].
    rewrite for_each_app.
    transitivity (Py.Ret (u, vs) ≫= Py.for_each Legacy.dedup_pair ext);
      [f_equal; exact Hrun | exact Hrun'].
  - intros lst ext b Hin. destruct (deduplicate_app_prefix lst ext) as [more ->].
    apply variant_of_app_l, deduplicate_bounds, Hin.
Qed.

(** Three faces of one image, the first two with the same box: the two
    scripts and the stated deduplicator give the variants 1, 1, 2. *)
Example dedup_of_a_repeated_box :
  let seq := [("A.png", (0, 4, 4, 8), "/tex/A.png"); ("A.png", (0, 4, 4, 8), "/tex/A.png");
              ("A.png", (4, 0, 8, 4), "/tex/A.png")] in
  (Spec.dedup_all (fst <$> seq)).2 = [1; 1; 2]%nat /\
  Legacy.dedup_sequence (fst <$> seq)
    = Py.Ret ([("A.png", [(0, 4, 4, 8); (4, 0, 8, 4)])], [1; 1; 2]%nat) /\
  V1.deduplicate_all
      (foldl (fun gv x => V1.append_variant gv x.1.1 (x.1.2, x.2, None)) [] seq)
    = [("A.png", [((0, 4, 4, 8), "/tex/A.png", 1%nat); ((4, 0, 8, 4), "/tex/A.png", 2%nat)])].
Proof. vm_compute. repeat split; reflexivity. Qed.
(** ** The image of an island *)

Section IslandImage.
Variable mats : list (option Bpy.Material).

(** The lookup asks the slot of the face once per loop and gets the same
    answer every time: it is the answer of the slot when the face has a
    loop, and no image otherwise. *)
Lemma scan_loops_eq (f : Bpy.BMFace) (ls : list Bpy.UV) :
  V1.scan_loops mats f ls =
    match ls with
    | [] => Py.Ret None
    | _ :: _ => V1.image_of_slot mats (Bpy.material_index f)
    end.
Proof.
  induction ls as [| uv ls IH]; [reflexivity |].
  cbn [V1.scan_loops].
  destruct (V1.image_of_slot mats (Bpy.material_index f)) as [[im |] | e] eqn:Hslot;
    cbn [mbind Py.exc_bind Py.bind]; [reflexivity | | reflexivity].
  rewrite IH. destruct ls; reflexivity.
Qed.

Lemma get_image_from_face_no_loops (f : Bpy.BMFace) :
  Bpy.loops f = [] -> V1.get_image_from_face mats f = Py.Ret None.
Proof. unfold V1.get_image_from_face. intros ->. reflexivity. Qed.

Lemma resolved_Ret (f : Bpy.BMFace) (r : option Bpy.Image) :
  V1.get_image_from_face mats f = Py.Ret r -> V1.resolved mats f = r.
Proof. unfold V1.resolved. intros ->. reflexivity. Qed.

Lemma resolved_Some (f : Bpy.BMFace) (im : Bpy.Image) :
  V1.resolved mats f = Some im <-> V1.get_image_from_face mats f = Py.Ret (Some im).
Proof.
  unfold V1.resolved. destruct (V1.get_image_from_face mats f) as [r | e].
  - split; [intros -> | intros [= ->]]; reflexivity.
  - split; discriminate.
Qed.

(** The scan of a face whose lookup raises: it raises too, for such a
    face has a loop. *)
Lemma scan_face_eq (sc : V1.Scan) (f : Bpy.BMFace) :
  V1.scan_face mats sc f =
    match V1.get_image_from_face mats f with
    | Py.Ret _ => Py.Ret (scanned_face mats sc f)
    | Py.Raise e => Py.Raise e
    end.
Proof.
  unfold V1.scan_face, scanned_face, V1.resolved.
  destruct (V1.get_image_from_face mats f) as [r | e] eqn:Hres.
  - assert (Hstep : forall s uv,
      V1.scan_loop mats f s uv =
        Py.Ret (match r with
                | Some im =>
                    let '(w, h) := Bpy.img_size im in
                    {| V1.sc_coords := V1.sc_coords s ++ [V1.to_pixels w h uv];
                       V1.sc_img := Some im;
                       V1.sc_sizes := Py.setitem (V1.sc_sizes s) (Bpy.img_name im) (w, h) |}
                | None => s
                end)).
    { intros s uv. unfold V1.scan_loop. rewrite Hres. cbn [mbind Py.exc_bind Py.bind].
      destruct r as [im |]; [destruct (Bpy.img_size im) |]; reflexivity. }
    generalize (Bpy.loops f). intros ls. revert sc.
    induction ls as [| uv ls IH]; intros sc; [reflexivity |].
    cbn [Py.for_each foldl]. rewrite Hstep. cbn [mbind Py.exc_bind Py.bind]. apply IH.
  - destruct (Bpy.loops f) as [| uv ls] eqn:Hls.
    { rewrite get_image_from_face_no_loops in Hres by exact Hls. discriminate. }
    assert (Hstep : V1.scan_loop mats f sc uv = Py.Raise e)
      by (unfold V1.scan_loop; rewrite Hres; reflexivity).
    cbn [Py.for_each]. rewrite Hstep. reflexivity.
Qed.

Lemma scan_fold_returns (group : list Bpy.BMFace) (sc sc' : V1.Scan) :
  Py.for_each (V1.scan_face mats) group sc = Py.Ret sc' ->
  sc' = foldl (scanned_face mats) sc group /\ lookups_return mats group.
Proof.
  revert sc. induction group as [| f group IH]; intros sc.
  - intros [= <-]. split; [reflexivity | constructor].
  - cbn [Py.for_each foldl]. rewrite scan_face_eq.
    destruct (V1.get_image_from_face mats f) as [r | e] eqn:Hres; [| discriminate].
    cbn [mbind Py.exc_bind Py.bind]. intros Hrest.
    destruct (IH _ Hrest) as [-> Hall]. split; [reflexivity |].
    constructor; [eauto | exact Hall].
Qed.

Lemma scan_fold_total (group : list Bpy.BMFace) (sc : V1.Scan) :
  lookups_return mats group ->
  Py.for_each (V1.scan_face mats) group sc = Py.Ret (foldl (scanned_face mats) sc group).
Proof.
  intros Hall. revert sc. induction Hall as [| f group [r Hres] _ IH]; intros sc;
    [reflexivity |].
  cbn [Py.for_each foldl]. rewrite scan_face_eq, Hres. apply IH.
Qed.

(** The scan of a group returns exactly when the lookups of its faces
    do, with the scan of the faces in order. *)
Lemma scan_group_returns (sizes : Py.Dict string (Z * Z)) (group : list Bpy.BMFace)
    (sc : V1.Scan) :
  V1.scan_group mats sizes group = Py.Ret sc <->
  sc = scanned_group mats sizes group /\ lookups_return mats group.
Proof.
  unfold V1.scan_group, scanned_group. split.
  - apply scan_fold_returns.
  - intros [-> Hall]. apply scan_fold_total. exact Hall.
Qed.

(** A face that resolves no image leaves the scan as it was. *)
Lemma scan_face_unresolved (sc : V1.Scan) (f : Bpy.BMFace) :
  V1.resolved mats f = None -> scanned_face mats sc f = sc.
Proof.
  unfold scanned_face. intros ->. generalize (Bpy.loops f).
  intros ls. revert sc. induction ls as [| uv ls IH]; intros sc; simpl; auto.
Qed.

(** A face that resolves an image sets it and adds coordinates. *)
Lemma scan_face_resolved (sc : V1.Scan) (f : Bpy.BMFace) (im : Bpy.Image) :
  V1.resolved mats f = Some im ->
  V1.sc_img (scanned_face mats sc f) = Some im /\
  V1.sc_coords (scanned_face mats sc f) <> [].
Proof.
  intros Hres. unfold scanned_face. rewrite Hres.
  destruct (Bpy.loops f) as [| uv ls] eqn:Hls.
  { apply resolved_Some in Hres.
    rewrite get_image_from_face_no_loops in Hres by assumption. discriminate. }
  destruct (Bpy.img_size im) as [w h].
  assert (Hgen : forall ls sc, V1.sc_img sc = Some im -> V1.sc_coords sc <> [] ->
    let sc' := foldl (fun sc uv =>
      {| V1.sc_coords := V1.sc_coords sc ++ [V1.to_pixels w h uv];
         V1.sc_img := Some im;
         V1.sc_sizes := Py.setitem (V1.sc_sizes sc) (Bpy.img_name im) (w, h) |}) sc ls in
    V1.sc_img sc' = Some im /\ V1.sc_coords sc' <> []).
  { clear. intros ls. induction ls as [| uv ls IH]; intros sc Him Hco; simpl; [auto |].
    apply IH; simpl; [reflexivity |]. intros Happ. apply app_eq_nil in Happ as [_ ?].
    discriminate. }
  simpl. apply Hgen; simpl; [reflexivity |].
  intros Happ. apply app_eq_nil in Happ as [_ ?]. discriminate.
Qed.

Lemma scan_fold_last (group : list Bpy.BMFace) (sc : V1.Scan) :
  V1.sc_img (foldl (scanned_face mats) sc group) =
    match last (omap (V1.resolved mats) group) with
    | Some im => Some im
    | None => V1.sc_img sc
    end.
Proof.
  induction group as [| f group IH] using rev_ind; [reflexivity |].
  rewrite foldl_app, omap_app. simpl.
  destruct (V1.resolved mats f) as [im |] eqn:Hres; simpl.
  - rewrite last_snoc. apply scan_face_resolved. assumption.
  - rewrite app_nil_r, scan_face_unresolved by assumption. apply IH.
Qed.

Lemma scan_fold_coords (group : list Bpy.BMFace) (sc : V1.Scan) :
  (V1.sc_img sc <> None -> V1.sc_coords sc <> []) ->
  V1.sc_img (foldl (scanned_face mats) sc group) <> None ->
  V1.sc_coords (foldl (scanned_face mats) sc group) <> [].
Proof.
  revert sc. induction group as [| f group IH]; intros sc Hsc; simpl; [exact Hsc |].
  apply IH. destruct (V1.resolved mats f) as [im |] eqn:Hres.
  - intros _. apply (scan_face_resolved sc f im Hres).
  - rewrite scan_face_unresolved by assumption. exact Hsc.
Qed.

Lemma scan_fold_unresolved (group : list Bpy.BMFace) (sc : V1.Scan) :
  omap (V1.resolved mats) group = [] ->
  foldl (scanned_face mats) sc group = sc.
Proof.
  revert sc. induction group as [| f group IH]; intros sc; simpl; [reflexivity |].
  destruct (V1.resolved mats f) as [im |] eqn:Hres; [discriminate |].
  intros Hrest. rewrite scan_face_unresolved by assumption. auto.
Qed.

End IslandImage.

(** The body of the per-face loop follows the image lookup. *)
Lemma gather_face_eq (mats : list (option Bpy.Material)) (st : V1.Gathered)
    (f : Bpy.BMFace) :
  V1.gather_face mats st f =
    match V1.get_image_from_face mats f with
    | Py.Ret _ => gathered_face mats st f
    | Py.Raise e => Py.Raise e
    end.
Proof.
  unfold V1.gather_face, gathered_face, V1.resolved.
  destruct (V1.get_image_from_face mats f) as [r | e]; reflexivity.
Qed.

Lemma gather_face_returns (mats : list (option Bpy.Material)) (st st' : V1.Gathered)
    (f : Bpy.BMFace) :
  V1.gather_face mats st f = Py.Ret st' ->
  gathered_face mats st f = Py.Ret st' /\
  exists r, V1.get_image_from_face mats f = Py.Ret r.
Proof.
  rewrite gather_face_eq.
  destruct (V1.get_image_from_face mats f) as [r | e]; [eauto | discriminate].
Qed.

(** The per-face loop returns exactly when the lookups of the faces
    return and the loop over what they resolve returns. *)
Lemma gather_faces_returns (mats : list (option Bpy.Material)) (faces : list Bpy.BMFace)
    (g0 g : V1.Gathered) :
  Py.for_each (V1.gather_face mats) faces g0 = Py.Ret g ->
  Py.for_each (gathered_face mats) faces g0 = Py.Ret g /\ lookups_return mats faces.
Proof.
  revert g0. induction faces as [| f faces IH]; intros g0.
  - intros [= <-]. split; [reflexivity | constructor].
  - cbn [Py.for_each].
    destruct (V1.gather_face mats g0 f) as [g1 | e] eqn:Hstep; [| discriminate].
    cbn [mbind Py.exc_bind Py.bind]. intros Hrest.
    destruct (gather_face_returns _ _ _ _ Hstep) as [Hstep' Hret].
    destruct (IH _ Hrest) as [Hrest' Hall]. rewrite Hstep'.
    split; [exact Hrest' | constructor; assumption].
Qed.

Lemma gather_faces_total (mats : list (option Bpy.Material)) (faces : list Bpy.BMFace)
    (g0 : V1.Gathered) :
  lookups_return mats faces ->
  Py.for_each (V1.gather_face mats) faces g0 = Py.for_each (gathered_face mats) faces g0.
Proof.
  intros Hall. revert g0. induction Hall as [| f faces [r Hres] _ IH]; intros g0;
    [reflexivity |].
  cbn [Py.for_each]. rewrite gather_face_eq, Hres.
  destruct (gathered_face mats g0 f) as [g1 | e]; [apply IH | reflexivity].
Qed.

(** The body of the per-island loop follows the scan of the island. *)
Lemma gather_island_returns (mats : list (option Bpy.Material)) (st st' : V1.Gathered)
    (group : list Bpy.BMFace) :
  V1.gather_island mats st group = Py.Ret st' <->
  gathered_island mats st group = Py.Ret st' /\ lookups_return mats group.
Proof.
  unfold V1.gather_island, gathered_island. split.
  - destruct (V1.scan_group mats (V1.global_sizes st) group) as [sc | e] eqn:Hsc;
      [| discriminate].
    apply scan_group_returns in Hsc as [-> Hall]. cbn [mbind Py.exc_bind Py.bind].
    intros H. split; [exact H | exact Hall].
  - intros [H Hall].
    rewrite (proj2 (scan_group_returns mats _ group _) (conj eq_refl Hall)).
    exact H.
Qed.

(** Gathering the faces or islands of an object adds no report. *)
Lemma gather_object_reports (cfg : V1.Settings) (col col' : V1.Collected)
    (obj : Bpy.Object) :
  Bpy.uv_layer obj = true ->
  V1.gather_object cfg col obj = Py.Ret col' -> V1.reports col' = V1.reports col.
Proof.
  intros Huv. unfold V1.gather_object. rewrite Huv.
  destruct (V1.crop_per_border cfg).
  - destruct (V1.island_loop _ _ _) as [r | e]; simpl; [| discriminate].
    intros [= <-]. reflexivity.
  - destruct (Py.for_each _ _ _) as [g | e]; simpl; [| discriminate].
    intros [= <-]. reflexivity.
Qed.

(** C5 (as stated, refuted): the first two faces of [mesh3] form one
    island; the first resolves A.png and the second B.png. First match
    would give A.png, but the island is assigned B.png. The third face is
    an island without an image: it is dropped and the run reports nothing
    about it. *)
Lemma island_image_is_not_first_match :
  Spec.first_resolved_image (Bpy.materials Scenes.cube) [Scenes.face0; Scenes.face1]
    = Some Scenes.imgA /\
  V1.gather_island (Bpy.materials Scenes.cube) (V1.mkGathered [] [] [])
      [Scenes.face0; Scenes.face1]
    = Py.Ret (V1.mkGathered
        [("B.png", [((0, 0, 4, 4), "/tex/B.png", None)])]
        [("A.png", (8, 8)); ("B.png", (4, 4))]
        [(0%nat, "B.png", (0, 0, 4, 4)); (1%nat, "B.png", (0, 0, 4, 4))]) /\
  (fst ∘ fst) <$> Scenes.summary
      (V1.execute Scenes.cfg_island (V1.mkScene [Scenes.cube] [] Scenes.disk_AB Scenes.ops_ok))
    = Some [("INFO",
        "Export complete: UV data, crops, remapping, fills, separation, and join finished.")].
Proof. repeat split; vm_compute; reflexivity. Qed.

(** C5 (amended): in per-island mode the image of an island is the one
    resolved by the last member face, in the order of the group, that
    resolves a non-null image (every such face overwrites it), and every
    member face is assigned to that image; if no member face resolves an
    image the island is dropped, nothing changes and no diagnostic of any
    level is reported, and the loop goes on. (The scan of the island
    returns exactly when the image lookup returns for each of its faces.) *)
Theorem island_image_is_last_resolved (mats : list (option Bpy.Material))
    (st : V1.Gathered) (group : list Bpy.BMFace) :
  (forall sc, V1.scan_group mats (V1.global_sizes st) group = Py.Ret sc ->
     V1.sc_img sc = last (omap (V1.resolved mats) group)) /\
  ((exists sc, V1.scan_group mats (V1.global_sizes st) group = Py.Ret sc) <->
   Forall (fun f => exists r, V1.get_image_from_face mats f = Py.Ret r) group) /\
  (forall img st',
     last (omap (V1.resolved mats) group) = Some img ->
     V1.gather_island mats st group = Py.Ret st' ->
     exists bounds,
       V1.assignments st' = V1.assignments st ++
         ((fun f2 => (Bpy.index f2, Bpy.img_name img, bounds)) <$> group)) /\
  (Forall (fun f => V1.get_image_from_face mats f = Py.Ret None) group ->
     V1.gather_island mats st group = Py.Ret st) /\
  (forall cfg col col' obj,
     Bpy.uv_layer obj = true ->
     V1.gather_object cfg col obj = Py.Ret col' -> V1.reports col' = V1.reports col).
Proof.
  assert (Himg : forall sc, V1.scan_group mats (V1.global_sizes st) group = Py.Ret sc ->
                 V1.sc_img sc = last (omap (V1.resolved mats) group)).
  { intros sc Hsc. apply scan_group_returns in Hsc as [-> _].
    unfold scanned_group. rewrite scan_fold_last. simpl.
    destruct (last _); reflexivity. }
  split; [exact Himg |]. split; [| split; [| split]].
  - split.
    + intros [sc Hsc]. apply scan_group_returns in Hsc as [_ Hall]. exact Hall.
    + intros Hall. eexists. apply scan_group_returns. split; [reflexivity | exact Hall].
  - intros img st' Hlast. unfold V1.gather_island.
    destruct (V1.scan_group mats (V1.global_sizes st) group) as [sc | e] eqn:Hsc;
      [| discriminate].
    cbn [mbind Py.exc_bind Py.bind].
    pose proof (Himg sc eq_refl) as Hi. rewrite Hlast in Hi.
    apply scan_group_returns in Hsc as [-> _].
    pose proof (scan_fold_coords mats group
      {| V1.sc_coords := []; V1.sc_img := None; V1.sc_sizes := V1.global_sizes st |}) as Hco.
    fold (scanned_group mats (V1.global_sizes st) group) in Hco.
    rewrite Hi in *.
    destruct (V1.sc_coords (scanned_group mats (V1.global_sizes st) group))
      as [| c cs] eqn:Hcs.
    { exfalso. apply Hco; simpl; congruence. }
    destruct (V1.bounds_of (c :: cs) (Bpy.img_size img).2) as [bounds | e]; simpl;
      [| discriminate].
    intros [= <-]. exists bounds. reflexivity.
  - intros Hnone. unfold V1.gather_island.
    assert (Hall : lookups_return mats group).
    { eapply Forall_impl; [exact Hnone |]. intros f Hf. exists None. exact Hf. }
    assert (Hres : omap (V1.resolved mats) group = []).
    { clear -Hnone. induction Hnone as [| f group Hf _ IH]; [reflexivity |].
      simpl. rewrite (resolved_Ret _ _ _ Hf). exact IH. }
    rewrite (proj2 (scan_group_returns mats _ group _) (conj eq_refl Hall)).
    cbn [mbind Py.exc_bind Py.bind]. unfold scanned_group.
    rewrite scan_fold_unresolved by assumption. simpl. destruct st; reflexivity.
  - intros cfg col col' obj. apply gather_object_reports.
Qed.

Lemma island_image_is_last_resolved_witness :
  (forall sc,
     V1.scan_group (Bpy.materials Scenes.cube) [] [Scenes.face0; Scenes.face1] = Py.Ret sc ->
     V1.sc_img sc = Some Scenes.imgB) /\
  V1.gather_island (Bpy.materials Scenes.cube) (V1.mkGathered [] [] []) [Scenes.face2]
    = Py.Ret (V1.mkGathered [] [] []).
Proof.
  destruct (island_image_is_last_resolved (Bpy.materials Scenes.cube)
              (V1.mkGathered [] [] []) [Scenes.face0; Scenes.face1]) as (H1 & _).
  destruct (island_image_is_last_resolved (Bpy.materials Scenes.cube)
              (V1.mkGathered [] [] []) [Scenes.face2]) as (_ & _ & _ & H3 & _).
  split; [exact H1 | apply H3; repeat constructor].
Defined.

(** An island with a face whose material slot is empty: the lookup of
    line 288 raises, and so do the scan of the island and the export. *)
Example island_with_an_empty_slot_raises :
  V1.gather_island [None] (V1.mkGathered [] [] []) [Scenes.face0]
    = Py.Raise Py.AttributeError.
Proof. reflexivity. Qed.
(** ** The metadata listings *)











(** The inner loop of lines 260-263 appends one entry per variant to each
    of the three listings. *)
Lemma emit_fold (name : string) (vs : list (Bpy.Box * string * nat)) (acc : V1.Listings) :
  V1.coords_lines (foldl (V1.emit name) acc vs)
    = V1.coords_lines acc ++ ((fun v => V1.coord_line name v.2 v.1.1) <$> vs) /\
  V1.names_lines (foldl (V1.emit name) acc vs)
    = V1.names_lines acc ++ ((fun v => V1.name_line name v.2) <$> vs) /\
  V1.crops_lines (foldl (V1.emit name) acc vs)
    = V1.crops_lines acc ++ ((fun _ => V1.crop_line name) <$> vs).
Proof.
  revert acc. induction vs as [| [[b p] vid] vs IH]; intros acc.
  - simpl. rewrite !app_nil_r. auto.
  - cbn [foldl]. destruct (IH (V1.emit name acc (b, p, vid))) as (H1 & H2 & H3).
    rewrite H1, H2, H3. rewrite !fmap_cons. cbn [V1.emit V1.coords_lines V1.names_lines
      V1.crops_lines fst snd]. rewrite <- !app_assoc. auto.
Qed.

Lemma listings_fold_units (variants : Py.Dict string (list (Bpy.Box * string * nat)))
    (acc : V1.Listings) :
  V1.coords_lines (foldl (fun acc '(name, vs) => foldl (V1.emit name) acc vs) acc variants)
    = V1.coords_lines acc ++
      ((fun u => V1.coord_line u.1.1 u.1.2 u.2) <$> V1.units_of variants) /\
  V1.names_lines (foldl (fun acc '(name, vs) => foldl (V1.emit name) acc vs) acc variants)
    = V1.names_lines acc ++ ((fun u => V1.name_line u.1.1 u.1.2) <$> V1.units_of variants) /\
  V1.crops_lines (foldl (fun acc '(name, vs) => foldl (V1.emit name) acc vs) acc variants)
    = V1.crops_lines acc ++ ((fun u => V1.crop_line u.1.1) <$> V1.units_of variants).
Proof.
  revert acc. induction variants as [| [name vs] variants IH]; intros acc.
  - simpl. rewrite !app_nil_r. auto.
  - cbn [foldl]. destruct (IH (foldl (V1.emit name) acc vs)) as (H1 & H2 & H3).
    destruct (emit_fold name vs acc) as (E1 & E2 & E3).
    rewrite H1, H2, H3, E1, E2, E3. unfold V1.units_of. cbn [flat_map].
    rewrite !fmap_app, <- !app_assoc, <- !list_fmap_compose.
    repeat split; do 2 f_equal; apply list_fmap_ext; intros ? [[? ?] ?] _; reflexivity.
Qed.

Lemma listings_of_units (variants : Py.Dict string (list (Bpy.Box * string * nat))) :
  V1.coords_lines (V1.listings_of variants)
    = (fun u => V1.coord_line u.1.1 u.1.2 u.2) <$> V1.units_of variants /\
  V1.names_lines (V1.listings_of variants)
    = (fun u => V1.name_line u.1.1 u.1.2) <$> V1.units_of variants /\
  V1.crops_lines (V1.listings_of variants)
    = (fun u => V1.crop_line u.1.1) <$> V1.units_of variants.
Proof. apply listings_fold_units. Qed.

(** What a finished run of the newer script is made of. *)
Lemma v1_execute_finished (cfg : V1.Settings) (scene : V1.Scene) (o : V1.Finished) :
  V1.execute cfg scene = Py.Ret (V1.FINISHED o) ->
  exists col,
    Py.for_each (V1.gather_object cfg)
      (filter (fun ob => Bpy.obj_type ob = "MESH") (V1.selected_objects scene))
      {| V1.gathered := {| V1.global_variants := []; V1.global_sizes := [];
                           V1.assignments := [] |};
         V1.face_map := []; V1.reports := [] |} = Py.Ret col /\
    V1.out_variants o = V1.deduplicate_all (V1.global_variants (V1.gathered col)) /\
    V1.out_sizes o = V1.global_sizes (V1.gathered col) /\
    V1.out_text o = V1.write_metadata cfg (V1.out_variants o) (V1.out_sizes o) /\
    V1.out_reports o = V1.reports col ++
      [("INFO", "Export complete: UV data, crops, remapping, fills, separation, and join finished.")].
Proof.
  unfold V1.execute.
  destruct (filter _ (V1.selected_objects scene)) as [| ob objs] eqn:Hobjs;
    [discriminate |].
  destruct (Py.for_each (V1.gather_object cfg) (ob :: objs) _) as [col | e] eqn:Hcol;
    [| discriminate].
  cbn [mbind Py.exc_bind Py.bind].
  destruct (V1.makedirs _ _) as [[] | e]; [| discriminate].
  cbn [mbind Py.exc_bind Py.bind].
  destruct (Py.for_each _ (seq _ _) _) as [[store world] | e]; [| discriminate].
  cbn [mbind mret Py.exc_bind Py.exc_ret Py.bind].
  intros [= <-]. exists col. repeat split; reflexivity.
Qed.

(** What the host has done in a finished run of the newer script: the
    output directory was made, the crops were written, and the loop over
    the objects returned with the materials and the objects of the outcome. *)
Lemma v1_execute_finished_host (cfg : V1.Settings) (scene : V1.Scene) (o : V1.Finished) :
  V1.execute cfg scene = Py.Ret (V1.FINISHED o) ->
  exists col,
    let objs := filter (fun ob => Bpy.obj_type ob = "MESH") (V1.selected_objects scene) in
    let c := V1.run_crops cfg (V1.can_save (V1.ops scene)) (V1.disk scene)
               (V1.out_variants o) in
    Py.for_each (V1.gather_object cfg) objs
      {| V1.gathered := {| V1.global_variants := []; V1.global_sizes := [];
                           V1.assignments := [] |};
         V1.face_map := []; V1.reports := [] |} = Py.Ret col /\
    V1.out_variants o = V1.deduplicate_all (V1.global_variants (V1.gathered col)) /\
    V1.makedirs (V1.ops scene) (V1.directory cfg) = Py.Ret tt /\
    V1.out_disk o = V1.files c /\
    Py.for_each (V1.process_object cfg (V1.ops scene) (V1.out_variants o) (V1.out_sizes o) c
                   (V1.face_map col))
      (seq 0 (length objs)) (V1.data_materials scene, Some <$> objs)
      = Py.Ret (V1.out_materials o, V1.out_objects o).
Proof.
  unfold V1.execute.
  destruct (filter _ (V1.selected_objects scene)) as [| ob objs] eqn:Hobjs;
    [discriminate |].
  destruct (Py.for_each (V1.gather_object cfg) (ob :: objs) _) as [col | e] eqn:Hcol;
    [| discriminate].
  cbn [mbind Py.exc_bind Py.bind].
  destruct (V1.makedirs _ _) as [[] | e] eqn:Hmk; [| discriminate].
  cbn [mbind Py.exc_bind Py.bind].
  destruct (Py.for_each _ (seq _ _) _) as [[store world] | e] eqn:Hloop; [| discriminate].
  cbn [mbind mret Py.exc_bind Py.exc_ret Py.bind].
  intros [= <-]. exists col. cbn [V1.out_variants V1.out_sizes V1.out_disk
    V1.out_materials V1.out_objects]. repeat split; try reflexivity. exact Hloop.
Qed.

(** One step of the face loop of the older script. *)
Lemma legacy_collect_face_step (mats : list (option Bpy.Material)) (st st' : Legacy.Collected)
    (face : Bpy.BMFace) :
  Legacy.collect_face mats st face = Py.Ret st' ->
  (Legacy.get_image_from_face mats face = None /\ st' = st) \/
  (exists image bounds variant,
     let name := Bpy.basename (Bpy.img_filepath image) in
     Legacy.get_image_from_face mats face = Some image /\
     Legacy.coord_data st' = Legacy.coord_data st ++ [Legacy.coord_line name variant bounds] /\
     Legacy.name_data st' = Legacy.name_data st ++ [Legacy.name_line name variant] /\
     Legacy.crop_data st' = Legacy.crop_data st ++ [Legacy.crop_line name] /\
     Legacy.face_assignments st' =
       Legacy.face_assignments st ++ [(Bpy.index face, name, variant, bounds)] /\
     Legacy.dedup (Legacy.unique st) name bounds = Py.Ret (Legacy.unique st', variant) /\
     Legacy.dimensions st' = Py.setdefault (Legacy.dimensions st) name (Bpy.img_size image) /\
     Legacy.count st' =
       Py.setitem (Legacy.count st) name (default O (Py.get (Legacy.count st) name) + 1)%nat).
Proof.
  unfold Legacy.collect_face.
  destruct (Legacy.get_image_from_face mats face) as [image |]; [| intros [= <-]; auto].
  destruct (Bpy.img_size image) as [w h] eqn:Hsz.
  destruct (Legacy.bounds_of w h (Bpy.loops face)) as [bounds | e]; [| discriminate].
  cbn [mbind Py.exc_bind Py.bind].
  destruct (Legacy.dedup _ _ bounds) as [[unique' variant] | e] eqn:Hd; [| discriminate].
  cbn [mbind mret Py.exc_bind Py.exc_ret Py.bind].
  intros [= <-]. right. exists image, bounds, variant. rewrite Hsz.
  repeat split; try reflexivity; try exact Hd.
Qed.

(** The three listings of the older script are the three renderings of its
    face assignments, and these are the faces that resolve an image. *)
Lemma legacy_collect_aligned (mats : list (option Bpy.Material)) (faces : list Bpy.BMFace)
    (st st' : Legacy.Collected) :
  Py.for_each (Legacy.collect_face mats) faces st = Py.Ret st' ->
  exists added,
    Legacy.face_assignments st' = Legacy.face_assignments st ++ added /\
    Legacy.coord_data st' = Legacy.coord_data st ++
      ((fun a => Legacy.coord_line a.1.1.2 a.1.2 a.2) <$> added) /\
    Legacy.name_data st' = Legacy.name_data st ++
      ((fun a => Legacy.name_line a.1.1.2 a.1.2) <$> added) /\
    Legacy.crop_data st' = Legacy.crop_data st ++
      ((fun a => Legacy.crop_line a.1.1.2) <$> added) /\
    (fun a => a.1.1.1) <$> added =
      Bpy.index <$> filter (fun f => is_Some (Legacy.get_image_from_face mats f)) faces.
Proof.
  revert st. induction faces as [| face faces IH]; intros st.
  - intros [= <-]. exists []. rewrite !app_nil_r. auto.
  - cbn [Py.for_each].
    destruct (Legacy.collect_face mats st face) as [st1 | e] eqn:Hstep; [| discriminate].
    cbn [mbind Py.exc_bind Py.bind]. intros Hrest.
    destruct (IH st1 Hrest) as (added & Ha & Hc & Hn & Hk & Hidx).
    apply legacy_collect_face_step in Hstep
      as [[Hnone ->] | (image & bounds & variant & Hres & Sc & Sn & Sk & Sa & _)].
    + exists added. rewrite filter_cons_False by (rewrite Hnone; intros [? ?]; discriminate).
      auto.
    + exists ((Bpy.index face, Bpy.basename (Bpy.img_filepath image), variant, bounds) :: added).
      rewrite Ha, Hc, Hn, Hk, Sa, Sc, Sn, Sk, <- !app_assoc.
      rewrite filter_cons_True by (rewrite Hres; eauto).
      rewrite !fmap_cons, Hidx. repeat split; reflexivity.
Qed.

Lemma legacy_execute_finished (cfg : Legacy.Settings) (ctx : Legacy.Context)
    (out : Legacy.Finished) :
  Legacy.execute cfg ctx = Py.Ret (Legacy.FINISHED out) ->
  exists obj sizes,
    Legacy.object ctx = Some obj /\
    Py.for_each (Legacy.collect_face (Bpy.materials obj)) (Bpy.faces (Bpy.bm obj))
      Legacy.empty = Py.Ret (Legacy.out_collected out) /\
    Legacy.size_lines (Legacy.out_collected out) = Py.Ret sizes /\
    Legacy.out_text out =
      [ (Py.path_join (Legacy.directory cfg) "uv_coordinates.txt",
           Py.join Py.newline (Legacy.coord_data (Legacy.out_collected out)));
        (Py.path_join (Legacy.directory cfg) "image_names.txt",
           Py.join Py.newline (Legacy.name_data (Legacy.out_collected out)));
        (Py.path_join (Legacy.directory cfg) "image_names_to_crop.txt",
           Py.join Py.newline (Legacy.crop_data (Legacy.out_collected out)));
        (Py.path_join (Legacy.directory cfg) "image_sizes.txt",
           foldl (fun text line => text +:+ line) "" sizes) ].
Proof.
  unfold Legacy.execute. destruct (Legacy.object ctx) as [obj |]; [| discriminate].
  destruct (decide (Bpy.obj_type obj = "MESH")) as [Hmesh |]; [| discriminate].
  destruct (Bpy.uv_layer obj); [| discriminate].
  destruct (Py.for_each _ (Bpy.faces (Bpy.bm obj)) Legacy.empty) as [st | e0] eqn:Hcol;
    [| discriminate].
  cbn [mbind Py.exc_bind Py.bind].
  destruct (Legacy.size_lines st) as [sizes | e] eqn:Hsizes; [| discriminate].
  cbn [mbind Py.exc_bind Py.bind].
  match goal with |- context [if ?c then _ else _] => destruct c end.
  - match goal with |- context [Py.for_each ?b ?l ?s] =>
      destruct (Py.for_each b l s) as [r | e'] end; [| discriminate].
    cbn [mbind mret Py.exc_bind Py.exc_ret Py.bind]. intros [= <-].
    exists obj, sizes. repeat split; try reflexivity; assumption.
  - cbn [mbind mret Py.exc_bind Py.exc_ret Py.bind]. intros [= <-].
    exists obj, sizes. repeat split; try reflexivity; assumption.
Qed.




(** ** Invariants of the gathering loops *)

Lemma for_each_invariant {A S} (P : S -> Prop) (body : S -> A -> Py.Exc S)
    (xs : list A) (st st' : S) :
  P st ->
  (forall s x s', P s -> body s x = Py.Ret s' -> P s') ->
  Py.for_each body xs st = Py.Ret st' -> P st'.
Proof.
  intros Hst Hbody. revert st Hst. induction xs as [| x xs IH]; intros st Hst.
  - intros [= <-]. exact Hst.
  - cbn [Py.for_each]. destruct (body st x) as [s1 | e] eqn:Hstep; [| discriminate].
    cbn [mbind Py.exc_bind Py.bind]. apply IH. eapply Hbody; eassumption.
Qed.

Lemma keys_setdefault_NoDup {K V} `{EqDecision K} (d : Py.Dict K V) (k : K) (v : V) :
  NoDup (Py.keys d) -> NoDup (Py.keys (Py.setdefault d k v)).
Proof.
  intros Hnd. unfold Py.setdefault. destruct (Py.get d k); [assumption |].
  apply keys_setitem_NoDup. assumption.
Qed.

Lemma get_setitem_is_Some {K V} `{EqDecision K} (d : Py.Dict K V) (k k' : K) (v : V) :
  is_Some (Py.get (Py.setitem d k v) k') <-> k = k' \/ is_Some (Py.get d k').
Proof.
  destruct (decide (k = k')) as [<- | Hne].
  - rewrite get_setitem_eq. split; [auto | eauto].
  - rewrite get_setitem_ne by assumption. split; [auto | intros [? | ?]; [contradiction | assumption]].
Qed.

Lemma get_setdefault_is_Some {K V} `{EqDecision K} (d : Py.Dict K V) (k k' : K) (v : V) :
  is_Some (Py.get (Py.setdefault d k v) k') <-> k = k' \/ is_Some (Py.get d k').
Proof.
  unfold Py.setdefault. destruct (Py.get d k) as [v0 |] eqn:Hk.
  - split; [auto |]. intros [<- | ?]; [rewrite Hk; eauto | assumption].
  - apply get_setitem_is_Some.
Qed.

Lemma append_variant_NoDup (gv : Py.Dict string (list V1.Variant)) (name : string)
    (v : V1.Variant) :
  NoDup (Py.keys gv) -> NoDup (Py.keys (V1.append_variant gv name v)).
Proof.
  intros Hnd. unfold V1.append_variant.
  apply keys_setitem_NoDup, keys_setdefault_NoDup, Hnd.
Qed.

Lemma append_variant_is_Some (gv : Py.Dict string (list V1.Variant)) (name name' : string)
    (v : V1.Variant) :
  is_Some (Py.get (V1.append_variant gv name v) name') <->
    name = name' \/ is_Some (Py.get gv name').
Proof.
  unfold V1.append_variant. rewrite get_setitem_is_Some, get_setdefault_is_Some. tauto.
Qed.

Lemma gather_face_well_keyed (mats : list (option Bpy.Material)) (g g' : V1.Gathered)
    (face : Bpy.BMFace) :
  well_keyed g -> V1.gather_face mats g face = Py.Ret g' -> well_keyed g'.
Proof.
  intros (Hv & Hs & Hvs) Hrun. apply gather_face_returns in Hrun as [Hrun _].
  revert Hrun. unfold gathered_face.
  destruct (V1.resolved mats face) as [img |];
    [| intros [= <-]; repeat split; assumption].
  destruct (Bpy.img_size img) as [w h].
  destruct (V1.bounds_of _ h) as [bounds | e]; [| discriminate].
  cbn [mbind mret Py.exc_bind Py.exc_ret Py.bind]. intros [= <-]. repeat split; simpl.
  - apply append_variant_NoDup, Hv.
  - apply keys_setitem_NoDup, Hs.
  - intros name. rewrite append_variant_is_Some, get_setitem_is_Some.
    intros [? | ?]; auto.
Qed.

Lemma scan_face_sized (mats : list (option Bpy.Material)) (sizes : Py.Dict string (Z * Z))
    (sc : V1.Scan) (f : Bpy.BMFace) :
  scan_sized sizes sc -> scan_sized sizes (scanned_face mats sc f).
Proof.
  unfold scanned_face. generalize (Bpy.loops f). intros ls. revert sc.
  induction ls as [| uv ls IH]; intros sc Hsc; cbn [foldl]; [exact Hsc |].
  apply IH. destruct (V1.resolved mats f) as [im |]; [| exact Hsc].
  destruct (Bpy.img_size im) as [w h]. destruct Hsc as (Hnd & Hmono & Himg).
  repeat split; simpl.
  - apply keys_setitem_NoDup, Hnd.
  - intros name Hn. apply get_setitem_is_Some. auto.
  - intros im' [= <-]. apply get_setitem_is_Some. auto.
Qed.

Lemma scan_group_sized (mats : list (option Bpy.Material)) (sizes : Py.Dict string (Z * Z))
    (group : list Bpy.BMFace) :
  NoDup (Py.keys sizes) -> scan_sized sizes (scanned_group mats sizes group).
Proof.
  intros Hnd. unfold scanned_group.
  assert (Hgen : forall sc, scan_sized sizes sc ->
            scan_sized sizes (foldl (scanned_face mats) sc group)).
  { induction group as [| f group IH]; intros sc Hsc; cbn [foldl]; [exact Hsc |].
    apply IH, scan_face_sized, Hsc. }
  apply Hgen. repeat split; simpl; [exact Hnd | auto | discriminate].
Qed.

Lemma gather_island_well_keyed (mats : list (option Bpy.Material)) (g g' : V1.Gathered)
    (group : list Bpy.BMFace) :
  well_keyed g -> V1.gather_island mats g group = Py.Ret g' -> well_keyed g'.
Proof.
  intros (Hv & Hs & Hvs) Hrun. apply gather_island_returns in Hrun as [Hrun _].
  revert Hrun. unfold gathered_island.
  destruct (scan_group_sized mats _ group Hs) as (Hs' & Hmono & Himg).
  destruct (V1.sc_coords _) as [| c cs];
    [intros [= <-]; repeat split; simpl; auto |].
  destruct (V1.sc_img _) as [img |]; [| intros [= <-]; repeat split; simpl; auto].
  destruct (V1.bounds_of _ _) as [bounds | e]; [| discriminate].
  cbn [mbind mret Py.exc_bind Py.exc_ret Py.bind]. intros [= <-]. repeat split; simpl.
  - apply append_variant_NoDup, Hv.
  - exact Hs'.
  - intros name. rewrite append_variant_is_Some. intros [<- | ?]; auto.
Qed.

(** What the island loop maintains on the state of its body. *)
Lemma island_loop_invariant {S} (P : S -> Prop) (m : Bpy.BMesh)
    (body : S -> list Bpy.BMFace -> Py.Exc S) (st : S) (r : gset nat * S) :
  P st ->
  (forall s group s', P s -> body s group = Py.Ret s' -> P s') ->
  V1.island_loop m body st = Py.Ret r -> P r.2.
Proof.
  intros Hst Hbody. unfold V1.island_loop.
  apply (for_each_invariant (fun vs : gset nat * S => P vs.2)); [exact Hst |].
  intros [visited s] face [visited' s'] Hs. unfold V1.island_step. cbn [fst snd] in *.
  destruct (decide (Bpy.index face ∈ visited)); [intros [= <- <-]; exact Hs |].
  destruct (V1.flood_fill m visited face) as [[v1 group] | e]; [| discriminate].
  cbn [mbind Py.exc_bind Py.bind].
  destruct (body s group) as [s1 | e] eqn:Hstep; [| discriminate].
  cbn [mbind mret Py.exc_bind Py.exc_ret Py.bind]. intros [= <- <-].
  eapply Hbody; eassumption.
Qed.

Lemma gather_object_well_keyed (cfg : V1.Settings) (col col' : V1.Collected)
    (obj : Bpy.Object) :
  well_keyed (V1.gathered col) ->
  V1.gather_object cfg col obj = Py.Ret col' -> well_keyed (V1.gathered col').
Proof.
  intros Hd. unfold V1.gather_object. destruct (Bpy.uv_layer obj); [| intros [= <-]; exact Hd].
  assert (Hd0 : well_keyed
            {| V1.global_variants := V1.global_variants (V1.gathered col);
               V1.global_sizes := V1.global_sizes (V1.gathered col);
               V1.assignments := [] |}) by exact Hd.
  destruct (V1.crop_per_border cfg).
  - destruct (V1.island_loop _ _ _) as [r | e] eqn:Hloop; [| discriminate].
    cbn [mbind mret Py.exc_bind Py.exc_ret Py.bind]. intros [= <-]. simpl.
    apply (island_loop_invariant well_keyed _ _ _ _ Hd0) in Hloop; [exact Hloop |].
    intros s group s'. apply gather_island_well_keyed.
  - destruct (Py.for_each _ _ _) as [g | e] eqn:Hloop; [| discriminate].
    cbn [mbind mret Py.exc_bind Py.exc_ret Py.bind]. intros [= <-]. simpl.
    apply (for_each_invariant well_keyed _ _ _ _ Hd0) in Hloop; [exact Hloop |].
    intros s face s'. apply gather_face_well_keyed.
Qed.

Lemma v1_execute_well_keyed (cfg : V1.Settings) (objs : list Bpy.Object)
    (col : V1.Collected) :
  Py.for_each (V1.gather_object cfg) objs
    {| V1.gathered := {| V1.global_variants := []; V1.global_sizes := [];
                         V1.assignments := [] |};
       V1.face_map := []; V1.reports := [] |} = Py.Ret col ->
  well_keyed (V1.gathered col).
Proof.
  apply (for_each_invariant (fun c => well_keyed (V1.gathered c))).
  - repeat split; simpl; try apply NoDup_nil_2. intros name [? ?]. discriminate.
  - intros s ob s'. apply gather_object_well_keyed.
Qed.

(** ** One entry per variant, one size per image *)

Lemma elem_of_get_is_Some {K V} `{EqDecision K} (d : Py.Dict K V) (k : K) (v : V) :
  (k, v) ∈ d -> is_Some (Py.get d k).
Proof.
  induction d as [| [k' v'] d IH]; [intros Hin; inversion Hin |].
  intros Hin. simpl. destruct (decide (k' = k)); [eauto |].
  apply elem_of_cons in Hin as [[= ? ?] | Hin]; [congruence | auto].
Qed.

Lemma units_of_cons (name : string) (vs : list (Bpy.Box * string * nat))
    (rest : Py.Dict string (list (Bpy.Box * string * nat))) :
  V1.units_of ((name, vs) :: rest) =
    ((fun v => (name, v.2, v.1.1)) <$> vs) ++ V1.units_of rest.
Proof.
  unfold V1.units_of. cbn [flat_map]. f_equal.
  apply list_fmap_ext. intros ? [[b p] vid] _. reflexivity.
Qed.

Lemma units_of_names (variants : Py.Dict string (list (Bpy.Box * string * nat)))
    (u : string * nat * Bpy.Box) :
  u ∈ V1.units_of variants ->
  exists vs p, (u.1.1, vs) ∈ variants /\ (u.2, p, u.1.2) ∈ vs.
Proof.
  induction variants as [| [name vs] rest IH]; [intros Hin; inversion Hin |].
  rewrite units_of_cons, elem_of_app. intros [Hin | Hin].
  - apply list_elem_of_fmap in Hin as ([[b p] vid] & -> & Hv).
    exists vs, p. split; [left | exact Hv].
  - destruct (IH Hin) as (vs' & p & H1 & H2). exists vs', p. split; [right; exact H1 | exact H2].
Qed.

(** No two entries share an image and a projection that is distinct
    within every image. *)
Lemma units_NoDup_by {B} (proj : Bpy.Box * string * nat -> B)
    (variants : Py.Dict string (list (Bpy.Box * string * nat))) :
  NoDup (Py.keys variants) ->
  (forall name vs, (name, vs) ∈ variants -> NoDup (proj <$> vs)) ->
  NoDup (flat_map (fun '(name, vs) => (fun v => (name, proj v)) <$> vs) variants).
Proof.
  induction variants as [| [name vs] rest IH]; intros Hk Hin; cbn [flat_map];
    [apply NoDup_nil_2 |].
  unfold Py.keys in Hk. rewrite fmap_cons in Hk. apply NoDup_cons in Hk as [Hname Hk].
  apply NoDup_app. split; [| split].
  - rewrite (list_fmap_compose proj (pair name)).
    apply (NoDup_fmap_2 _). apply (Hin name vs). left.
  - intros [n x] H1 H2. apply list_elem_of_fmap in H1 as (v & [= -> ->] & _).
    apply Hname. apply list_elem_of_In, in_flat_map in H2 as ([n' vs'] & Hmem & Hx).
    apply list_elem_of_In, list_elem_of_fmap in Hx as (v' & [= -> _] & _).
    apply list_elem_of_fmap. exists (n', vs'). split; [reflexivity |].
    apply list_elem_of_In. exact Hmem.
  - apply IH; [exact Hk |]. intros n vs' Hmem. apply (Hin n vs'). right. exact Hmem.
Qed.

Lemma units_of_by {B} (proj : Bpy.Box * string * nat -> B)
    (variants : Py.Dict string (list (Bpy.Box * string * nat))) :
  (fun u => (u.1.1, proj (u.2, "", u.1.2))) <$> V1.units_of variants =
  flat_map (fun '(name, vs) => (fun v => (name, proj (v.1.1, "", v.2))) <$> vs) variants.
Proof.
  induction variants as [| [name vs] rest IH]; [reflexivity |].
  rewrite units_of_cons, fmap_app, IH. cbn [flat_map]. f_equal.
  rewrite <- list_fmap_compose. apply list_fmap_ext. intros ? [[b p] vid] _. reflexivity.
Qed.

Lemma deduplicate_vids_NoDup (lst : list V1.Variant) : NoDup (V1.deduplicate lst).*2.
Proof.
  apply NoDup_alt. intros i j vid Hi Hj.
  rewrite list_lookup_fmap in Hi, Hj.
  destruct (V1.deduplicate lst !! i) as [ei |] eqn:Ei; [| discriminate].
  destruct (V1.deduplicate lst !! j) as [ej |] eqn:Ej; [| discriminate].
  apply deduplicate_positions in Ei, Ej. simpl in Hi, Hj. congruence.
Qed.

Lemma elem_of_deduplicate_all (gv : Py.Dict string (list V1.Variant)) (name : string)
    (vs : list (Bpy.Box * string * nat)) :
  (name, vs) ∈ V1.deduplicate_all gv -> exists lst, (name, lst) ∈ gv /\ vs = V1.deduplicate lst.
Proof.
  unfold V1.deduplicate_all. intros Hin.
  apply list_elem_of_fmap in Hin as ([n lst] & [= -> ->] & Hmem). eauto.
Qed.

(** The deduplicated variants hold no image and box twice, no image and
    variant number twice, and every gathered box once. *)
Lemma deduplicated_units (gv : Py.Dict string (list V1.Variant)) :
  NoDup (Py.keys gv) ->
  NoDup ((fun u => (u.1.1, u.2)) <$> V1.units_of (V1.deduplicate_all gv)) /\
  NoDup ((fun u => (u.1.1, u.1.2)) <$> V1.units_of (V1.deduplicate_all gv)) /\
  (forall name lst b, (name, lst) ∈ gv -> b ∈ lst.*1.*1 ->
     exists vid, (name, vid, b) ∈ V1.units_of (V1.deduplicate_all gv)).
Proof.
  intros Hk. split; [| split].
  - rewrite (units_of_by (fun v => v.1.1)).
    apply (units_NoDup_by (fun v => v.1.1)); [rewrite keys_deduplicate_all; exact Hk |].
    intros name vs Hin. apply elem_of_deduplicate_all in Hin as (lst & _ & ->).
    pose proof (deduplicate_NoDup lst) as Hnd.
    rewrite <- list_fmap_compose in Hnd. exact Hnd.
  - rewrite (units_of_by (fun v => v.2)).
    apply (units_NoDup_by (fun v => v.2)); [rewrite keys_deduplicate_all; exact Hk |].
    intros name vs Hin. apply elem_of_deduplicate_all in Hin as (lst & _ & ->).
    apply deduplicate_vids_NoDup.
  - intros name lst b Hmem Hb. apply deduplicate_bounds in Hb.
    apply list_elem_of_fmap in Hb as (bp & Hb1 & Hb).
    apply list_elem_of_fmap in Hb as ([[b' p] vid] & He & Hb).
    subst bp. simpl in Hb1. subst b.
    exists vid. unfold V1.units_of. apply list_elem_of_In, in_flat_map.
    exists (name, V1.deduplicate lst). split.
    + apply list_elem_of_In. unfold V1.deduplicate_all.
      apply list_elem_of_fmap. exists (name, lst). split; [reflexivity | exact Hmem].
    + apply list_elem_of_In, list_elem_of_fmap. exists (b', p, vid). split; [reflexivity | exact Hb].
Qed.

Lemma faces_of_image_snoc (st st' : Legacy.Collected) (a : nat * string * nat * Bpy.Box)
    (name : string) :
  Legacy.face_assignments st' = Legacy.face_assignments st ++ [a] ->
  faces_of_image st' name =
    (faces_of_image st name + if decide (a.1.1.2 = name) then 1 else 0)%nat.
Proof.
  intros Ha. unfold faces_of_image. rewrite Ha, filter_app, length_app. f_equal.
  destruct (decide (a.1.1.2 = name)) as [Heq | Hne].
  - rewrite filter_cons_True by exact Heq. reflexivity.
  - rewrite filter_cons_False by exact Hne. reflexivity.
Qed.

Lemma legacy_collect_counted (mats : list (option Bpy.Material)) (st st' : Legacy.Collected)
    (face : Bpy.BMFace) :
  counted st -> Legacy.collect_face mats st face = Py.Ret st' -> counted st'.
Proof.
  intros (Hcount & Hdims & Hnd) Hstep.
  apply legacy_collect_face_step in Hstep
    as [[_ ->] | (image & bounds & variant & _ & _ & _ & _ & Sa & _ & Sd & Sc)];
    [repeat split; assumption |].
  set (name := Bpy.basename (Bpy.img_filepath image)) in *.
  assert (Hn : forall name', faces_of_image st' name' =
            (faces_of_image st name' + if decide (name = name') then 1 else 0)%nat).
  { intros name'. apply (faces_of_image_snoc st st' _ name' Sa). }
  split; [| split].
  - intros name'. rewrite Hn, Sc. destruct (decide (name = name')) as [<- | Hne].
    + rewrite get_setitem_eq, Hcount.
      destruct (decide (faces_of_image st name = O)) as [-> | Hpos]; simpl.
      * reflexivity.
      * rewrite decide_False by lia. reflexivity.
    + rewrite get_setitem_ne by assumption. rewrite Hcount, Nat.add_0_r. reflexivity.
  - intros name'. rewrite Hn, Sd, get_setdefault_is_Some.
    destruct (decide (name = name')) as [<- | Hne]; [lia |].
    intros [? | Hsome]; [contradiction |]. rewrite Nat.add_0_r. auto.
  - rewrite Sd. apply keys_setdefault_NoDup, Hnd.
Qed.

Lemma legacy_counted_run (mats : list (option Bpy.Material)) (faces : list Bpy.BMFace)
    (st : Legacy.Collected) :
  Py.for_each (Legacy.collect_face mats) faces Legacy.empty = Py.Ret st -> counted st.
Proof.
  apply (for_each_invariant counted).
  - repeat split; simpl; try apply NoDup_nil_2; intros name [? ?]; discriminate.
  - intros s face s'. apply legacy_collect_counted.
Qed.

(** The size file of the older script repeats the entry of an image once
    per face assigned to it. *)
Lemma legacy_size_lines (st : Legacy.Collected) :
  counted st ->
  Legacy.size_lines st =
    Py.Ret (flat_map (fun '(name, (w, h)) =>
              replicate (faces_of_image st name) (Legacy.size_line name w h))
            (Legacy.dimensions st)).
Proof.
  intros (Hcount & Hdims & _). unfold Legacy.size_lines.
  assert (Hgen : forall dims acc,
    (forall name wh, (name, wh) ∈ dims -> faces_of_image st name <> O) ->
    Py.for_each (fun acc '(name, (w, h)) =>
        n ← Py.of_option Py.KeyError (Py.get (Legacy.count st) name);
        mret (acc ++ replicate n (Legacy.size_line name w h))) dims acc
    = Py.Ret (acc ++ flat_map (fun '(name, (w, h)) =>
                replicate (faces_of_image st name) (Legacy.size_line name w h)) dims)).
  { induction dims as [| [name [w h]] dims IH]; intros acc Hin.
    - simpl. rewrite app_nil_r. reflexivity.
    - cbn [Py.for_each flat_map]. rewrite Hcount.
      rewrite decide_False by (apply (Hin name (w, h)); left).
      cbn [Py.of_option mbind mret Py.exc_bind Py.exc_ret Py.bind].
      rewrite IH, app_assoc; [reflexivity |].
      intros name' wh Hmem. apply (Hin name' wh). right. exact Hmem. }
  apply (Hgen (Legacy.dimensions st) []).
  intros name wh Hmem. apply Hdims. eapply elem_of_get_is_Some. exact Hmem.
Qed.

(** Two names that do not start with the separator are joined to one
    directory as different paths. *)
Lemma path_join_inj (directory a b : string) :
  Py.startswith a "/" = false -> Py.startswith b "/" = false ->
  Py.path_join directory a = Py.path_join directory b -> a = b.
Proof.
  unfold Py.path_join. intros -> ->.
  destruct (bool_decide (directory = "") || Py.endswith directory "/").
  - intros Heq. apply String.app_inj in Heq. exact Heq.
  - intros Heq. apply String.app_inj in Heq. apply String.app_inj in Heq. exact Heq.
Qed.

(** C9 (as stated, refuted): the object [twins] has three faces on A.png,
    two of them with the same box. The older script lists three entries
    for the two deduplicated variants (the first variant twice); the newer
    script lists the two variants but writes a single size line for A.png,
    not one per variant. *)
Lemma listings_not_per_variant_sizes_not_repeated :
  match Legacy.execute (Legacy.mkSettings "/out" false false)
          (Legacy.mkContext (Some Scenes.twins) Scenes.disk_AB Scenes.saves) with
  | Py.Ret (Legacy.FINISHED out) =>
      Some (Legacy.unique (Legacy.out_collected out),
            Legacy.name_data (Legacy.out_collected out))
  | _ => None
  end = Some ([("A.png", [(0, 4, 4, 8); (4, 0, 8, 4)])],
              [Legacy.name_line "A.png" 1; Legacy.name_line "A.png" 1;
               Legacy.name_line "A.png" 2]) /\
  match V1.execute Scenes.cfg_face (V1.mkScene [Scenes.twins] [] Scenes.disk_AB Scenes.ops_ok) with
  | Py.Ret (V1.FINISHED o) =>
      Some (V1.units_of (V1.out_variants o), Py.get (V1.out_text o) "/out/image_sizes.txt")
  | _ => None
  end = Some ([("A.png", 1%nat, (0, 4, 4, 8)); ("A.png", 2%nat, (4, 0, 8, 4))],
              Some (V1.size_line ("A.png", (8, 8)))).
Proof. split; vm_compute; reflexivity. Qed.

(** C9 (amended): in every finished run of the newer script the three
    listings hold exactly one entry per deduplicated variant (no image and
    box twice, every gathered box once), image by image in first-seen
    order and within an image in first-seen order with variant numbers 1,
    2, ..., the same order in the three files; the sizes listing holds
    exactly one entry per image, not one per variant. In every finished
    run of the older script the three listings hold one entry per face
    that resolves an image, in face order (a repeated box repeats its
    variant), and the sizes listing repeats the entry of an image once per
    such face. *)
Theorem listings_per_variant_sizes_per_image :
  (forall cfg scene o,
     V1.execute cfg scene = Py.Ret (V1.FINISHED o) ->
     exists gv,
       let units := V1.units_of (V1.out_variants o) in
       V1.out_variants o = V1.deduplicate_all gv /\ NoDup (Py.keys gv) /\
       (forall name vs k e,
          (name, vs) ∈ V1.out_variants o -> vs !! k = Some e -> e.2 = S k) /\
       V1.out_text o =
         [ (Py.path_join (V1.directory cfg) "uv_coordinates.txt",
              Py.join Py.newline ((fun u => V1.coord_line u.1.1 u.1.2 u.2) <$> units));
           (Py.path_join (V1.directory cfg) "image_names.txt",
              Py.join Py.newline ((fun u => V1.name_line u.1.1 u.1.2) <$> units));
           (Py.path_join (V1.directory cfg) "image_names_to_crop.txt",
              Py.join Py.newline ((fun u => V1.crop_line u.1.1) <$> units));
           (Py.path_join (V1.directory cfg) "image_sizes.txt",
              foldl (fun text entry => text +:+ V1.size_line entry) "" (V1.out_sizes o)) ] /\
       NoDup ((fun u => (u.1.1, u.2)) <$> units) /\
       NoDup ((fun u => (u.1.1, u.1.2)) <$> units) /\
       (forall name lst b, (name, lst) ∈ gv -> b ∈ lst.*1.*1 ->
          exists vid, (name, vid, b) ∈ units) /\
       NoDup (Py.keys (V1.out_sizes o)) /\
       (forall u, u ∈ units -> is_Some (Py.get (V1.out_sizes o) u.1.1))) /\
  (forall cfg ctx out,
     Legacy.execute cfg ctx = Py.Ret (Legacy.FINISHED out) ->
     let st := Legacy.out_collected out in
     let units := Legacy.face_assignments st in
     (exists obj,
        Legacy.object ctx = Some obj /\
        (fun a => a.1.1.1) <$> units =
          Bpy.index <$>
            filter (fun f => is_Some (Legacy.get_image_from_face (Bpy.materials obj) f))
                   (Bpy.faces (Bpy.bm obj))) /\
     Legacy.coord_data st = (fun a => Legacy.coord_line a.1.1.2 a.1.2 a.2) <$> units /\
     Legacy.name_data st = (fun a => Legacy.name_line a.1.1.2 a.1.2) <$> units /\
     Legacy.crop_data st = (fun a => Legacy.crop_line a.1.1.2) <$> units /\
     NoDup (Py.keys (Legacy.dimensions st)) /\
     Py.get (Legacy.out_text out) (Py.path_join (Legacy.directory cfg) "image_sizes.txt")
       = Some (foldl (fun text line => text +:+ line) ""
           (flat_map (fun '(name, (w, h)) =>
                        replicate (faces_of_image st name) (Legacy.size_line name w h))
                     (Legacy.dimensions st)))).
Proof.
  split.
  - intros cfg scene o Hrun.
    destruct (v1_execute_finished _ _ _ Hrun) as (col & Hcol & Hv & Hs & Htext & _).
    destruct (v1_execute_well_keyed _ _ _ Hcol) as (Hk & Hks & Hsized).
    destruct (deduplicated_units _ Hk) as (Hb & Hvid & Hall).
    destruct (listings_of_units (V1.out_variants o)) as (Lc & Ln & Lk).
    exists (V1.global_variants (V1.gathered col)). cbv zeta. rewrite Hv in *.
    split; [reflexivity |]. split; [exact Hk |]. split.
    { intros name vs k e Hin Hl. apply elem_of_deduplicate_all in Hin as (lst & _ & ->).
      eapply deduplicate_positions. exact Hl. }
    split.
    { rewrite Htext. unfold V1.write_metadata. rewrite Lc, Ln, Lk. reflexivity. }
    split; [exact Hb |]. split; [exact Hvid |]. split; [exact Hall |].
    rewrite Hs. split; [exact Hks |].
    intros u Hu. apply units_of_names in Hu as (vs & p & Hin & _).
    apply elem_of_deduplicate_all in Hin as (lst & Hin & _).
    apply Hsized. eapply elem_of_get_is_Some. exact Hin.
  - intros cfg ctx out Hrun st units. subst st units.
    destruct (legacy_execute_finished _ _ _ Hrun)
      as (obj & sizes & Hobj & Hcol & Hsz & Htext).
    destruct (legacy_collect_aligned _ _ _ _ Hcol) as (added & Ha & Hc & Hn & Hk & Hidx).
    pose proof (legacy_counted_run _ _ _ Hcol) as Hcounted.
    simpl in Ha, Hc, Hn, Hk. rewrite Ha.
    split; [exists obj; split; [exact Hobj | exact Hidx] |].
    split; [exact Hc |]. split; [exact Hn |]. split; [exact Hk |].
    split; [apply Hcounted |].
    rewrite (legacy_size_lines _ Hcounted) in Hsz. injection Hsz as <-.
    rewrite Htext. cbn [Py.get].
    repeat (match goal with
            | |- context [decide (?a = ?b)] =>
                destruct (decide (a = b)) as [Heq | _];
                [apply path_join_inj in Heq; [discriminate | reflexivity | reflexivity] |]
            end).
    rewrite decide_True by reflexivity. reflexivity.
Qed.

(** ** The remapper and faces without a crop *)

Lemma foldl_invariant {A B} (P : A -> Prop) (f : A -> B -> A) (l : list B) (a : A) :
  P a -> (forall a x, P a -> P (f a x)) -> P (foldl f a l).
Proof.
  intros Ha Hf. revert a Ha. induction l as [| x l IH]; intros a Ha; cbn [foldl]; auto.
Qed.

(** Every entry of the older script's [image_map] names a file that a crop
    wrote. *)
Lemma legacy_crops_exist (cfg : Legacy.Settings) (saver : PIL.Saver) (fs : PIL.FileSystem)
    (st : Legacy.Collected) (k : string * nat) (p n : string) :
  Py.get (Legacy.image_map (Legacy.crop_all cfg saver fs st)) k = Some (p, n) ->
  exists im, Legacy.files (Legacy.crop_all cfg saver fs st) !! p = Some (Some im).
Proof.
  revert k p n.
  change (forall k p n,
    Py.get (Legacy.image_map (Legacy.crop_all cfg saver fs st)) k = Some (p, n) ->
    exists im, Legacy.files (Legacy.crop_all cfg saver fs st) !! p = Some (Some im))
  with ((fun c => forall k p n, Py.get (Legacy.image_map c) k = Some (p, n) ->
          exists im, Legacy.files c !! p = Some (Some im)) (Legacy.crop_all cfg saver fs st)).
  unfold Legacy.crop_all. destruct (Legacy.crop_images cfg);
    [| simpl; intros ? ? ? [=]].
  apply foldl_invariant; [simpl; intros ? ? ? [=] |].
  intros c [name bounds_list] Hc. apply foldl_invariant; [exact Hc |].
  clear c Hc. intros c [[bounds path] variant] Hc k p n. unfold Legacy.crop_variant.
  destruct (Legacy.files c !! path) as [[im |] |];
    try (cbn [Legacy.image_map Legacy.files]; apply Hc).
  destruct (PIL.crop im bounds) as [cropped | e];
    [| cbn [Legacy.image_map Legacy.files]; apply Hc].
  destruct (saver _ cropped); [| cbn [Legacy.image_map Legacy.files]; apply Hc].
  cbn [Legacy.image_map Legacy.files].
  destruct (decide ((name, variant) = k)) as [<- | Hne].
  - rewrite get_setitem_eq. intros [= <- <-]. eexists. apply lookup_insert_eq.
  - rewrite get_setitem_ne by assumption. intros Hk. destruct (Hc _ _ _ Hk) as [im' Him'].
    destruct (decide (Py.path_join (Legacy.directory cfg)
                        (Legacy.variant_name name variant +:+ ".png") = p)) as [<- | Hp].
    + eexists. apply lookup_insert_eq.
    + exists im'. etransitivity; [apply lookup_insert_ne; assumption | exact Him'].
Qed.

(** C8 (as stated, refuted): with A.png on disk and B.png missing, the
    crop of the variant of B.png fails. The newer script then raises
    [KeyError] at the face of that variant. The older script skips the
    face, and its reports hold the warning of the crop loop and the final
    message only: the remap loop records nothing about the face. *)
Lemma remap_without_crop_raises_or_is_silent :
  V1.execute Scenes.cfg_face (V1.mkScene [Scenes.cube] [] Scenes.disk_A Scenes.ops_ok)
    = Py.Raise Py.KeyError /\
  match Legacy.execute (Legacy.mkSettings "/out" true true)
          (Legacy.mkContext (Some Scenes.cube) Scenes.disk_A Scenes.saves) with
  | Py.Ret (Legacy.FINISHED out) =>
      Some (Legacy.out_reports out, Legacy.r_faces (Legacy.out_remap out) !! 1%nat)
  | _ => None
  end = Some ([("WARNING", "No se encontro la imagen: /tex/B.png");
               ("INFO", "Exportacion, remapeo y ajuste UV completados en /out")],
              Some Scenes.face1).
Proof. split; vm_compute; reflexivity. Qed.

(** C8 (amended): in the older script, a face assignment whose image and
    variant have no entry in [image_map] (no crop wrote a file for them)
    is skipped by the remap loop: the material slots, the faces (material
    index and UV loop), the material lookup and the reports are all left
    as they were, no error is raised, nothing is recorded, and the loop
    goes on with the next assignment. In the newer script, when no crop at
    all succeeded ([image_map] is empty) the remap block of lines 179-229
    is skipped for every object. *)
Theorem remap_skips_face_without_crop (fs : PIL.FileSystem)
    (imap : Py.Dict (string * nat) (string * string)) (st : Legacy.Remap)
    (a : nat * string * nat * Bpy.Box) (rest : list (nat * string * nat * Bpy.Box)) :
  Py.get imap (a.1.1.2, a.1.2) = None ->
  Legacy.remap_face fs imap st a = Py.Ret st /\
  Py.for_each (Legacy.remap_face fs imap) (a :: rest) st
    = Py.for_each (Legacy.remap_face fs imap) rest st /\
  (forall cfg saver fs0 col k p n,
     Py.get (Legacy.image_map (Legacy.crop_all cfg saver fs0 col)) k = Some (p, n) ->
     exists im, Legacy.files (Legacy.crop_all cfg saver fs0 col) !! p = Some (Some im)) /\
  (forall cfg variants sizes c fmap store obj,
     V1.image_map c = [] ->
     V1.remap_object cfg variants sizes c fmap store obj = Py.Ret (store, obj)).
Proof.
  intros Hget.
  assert (Hskip : Legacy.remap_face fs imap st a = Py.Ret st).
  { destruct a as [[[face_idx name] variant] bounds]. unfold Legacy.remap_face.
    simpl in Hget. rewrite Hget. reflexivity. }
  split; [exact Hskip |]. split.
  { cbn [Py.for_each]. rewrite Hskip. reflexivity. }
  split; [intros; eapply legacy_crops_exist; eassumption |].
  intros cfg variants sizes c fmap store obj Hempty. unfold V1.remap_object.
  rewrite Hempty. destruct (V1.remap_model cfg); reflexivity.
Qed.

Lemma remap_skips_face_without_crop_witness :
  Legacy.remap_face Scenes.disk_A
      [(("A.png", 1%nat), ("/out/A.png_variant1.png", "A.png_variant1.png"))]
      (Legacy.mkRemap [] (Bpy.materials Scenes.cube) (Bpy.faces (Bpy.bm Scenes.cube)) [])
      (1%nat, "B.png", 1%nat, (2, 0, 4, 2))
    = Py.Ret (Legacy.mkRemap [] (Bpy.materials Scenes.cube)
                (Bpy.faces (Bpy.bm Scenes.cube)) []).
Proof.
  apply (remap_skips_face_without_crop Scenes.disk_A
           [(("A.png", 1%nat), ("/out/A.png_variant1.png", "A.png_variant1.png"))]
           (Legacy.mkRemap [] (Bpy.materials Scenes.cube) (Bpy.faces (Bpy.bm Scenes.cube)) [])
           (1%nat, "B.png", 1%nat, (2, 0, 4, 2)) []).
  reflexivity.
Defined.

(** ** The batch over several models *)







(** ** Islands are the connected components *)

#[local] Set Warnings "-clear-no-such-hyp".

Section Islands.
Variable m : Bpy.BMesh.
Hypothesis Hwf : Bpy.wf_mesh m.

Lemma face_index_inj (f g : Bpy.BMFace) :
  f ∈ Bpy.faces m -> g ∈ Bpy.faces m -> Bpy.index f = Bpy.index g -> f = g.
Proof.
  intros Hf Hg Heq.
  apply list_elem_of_lookup in Hf as [i Hi]. apply list_elem_of_lookup in Hg as [j Hj].
  pose proof (Bpy.wf_index m Hwf _ _ Hi). pose proof (Bpy.wf_index m Hwf _ _ Hj).
  assert (i = j) by congruence. subst j. congruence.
Qed.

Lemma elem_of_neighbours (f g : Bpy.BMFace) :
  g ∈ V1.neighbours m f <->
  g ∈ Bpy.faces m /\ exists e, e ∈ Bpy.edges f /\ e ∈ Bpy.edges g.
Proof.
  unfold V1.neighbours. rewrite list_elem_of_In, in_flat_map. split.
  - intros (e & He & Hg). apply list_elem_of_In, (Bpy.wf_link m Hwf) in Hg as [Hg1 Hg2].
    split; [exact Hg1 |]. exists e. split; [apply list_elem_of_In; exact He | exact Hg2].
  - intros (Hg & e & He & Heg). exists e. split; [apply list_elem_of_In; exact He |].
    apply list_elem_of_In, (Bpy.wf_link m Hwf). auto.
Qed.

Lemma adjacent_neighbours (f g : Bpy.BMFace) :
  f ∈ Bpy.faces m -> (Bpy.adjacent m f g <-> g ∈ V1.neighbours m f).
Proof. intros Hf. rewrite elem_of_neighbours. unfold Bpy.adjacent. tauto. Qed.

Lemma adjacent_sym (f g : Bpy.BMFace) : Bpy.adjacent m f g -> Bpy.adjacent m g f.
Proof. intros (Hf & Hg & e & H1 & H2). repeat split; auto. exists e. auto. Qed.

Lemma connected_sym (f g : Bpy.BMFace) : Bpy.connected m f g -> Bpy.connected m g f.
Proof.
  unfold Bpy.connected. induction 1 as [| f g h Hfg _ IH]; [reflexivity |].
  eapply rtc_r; [exact IH | apply adjacent_sym, Hfg].
Qed.

Lemma connected_faces (f g : Bpy.BMFace) :
  Bpy.connected m f g -> f ∈ Bpy.faces m -> g ∈ Bpy.faces m.
Proof.
  unfold Bpy.connected. induction 1 as [| f g h Hfg _ IH]; [auto |].
  intros _. apply IH. apply Hfg.
Qed.

Lemma push_all (stack pushed : list Bpy.BMFace) :
  foldl (fun s lf => lf :: s) stack pushed = rev pushed ++ stack.
Proof.
  revert stack. induction pushed as [| x pushed IH]; intros stack; [reflexivity |].
  cbn [foldl]. rewrite IH. simpl. rewrite <- app_assoc. reflexivity.
Qed.

Lemma work_step (l : list Bpy.BMFace) (visited : gset nat) (f : Bpy.BMFace) :
  let w := fun V => sum_list ((fun g => if decide (Bpy.index g ∈ V) then O
                               else S (length (V1.neighbours m g))) <$> l) in
  (w (visited ∪ {[Bpy.index f]}) <= w visited)%nat /\
  (f ∈ l -> Bpy.index f ∉ visited ->
   w (visited ∪ {[Bpy.index f]}) + S (length (V1.neighbours m f)) <= w visited)%nat.
Proof.
  cbv zeta. induction l as [| g l [IH1 IH2]]; csimpl.
  - split; [lia | intros Hin; inversion Hin].
  - assert (Hg : ((if decide (Bpy.index g ∈ visited ∪ {[Bpy.index f]}) then O
                  else S (length (V1.neighbours m g)))
                <= (if decide (Bpy.index g ∈ visited) then O
                    else S (length (V1.neighbours m g))))%nat).
    { destruct (decide (Bpy.index g ∈ visited ∪ {[Bpy.index f]})) as [? | Hn]; [lia |].
      rewrite decide_False by set_solver. lia. }
    split; [lia |]. intros Hin Hnv. apply elem_of_cons in Hin as [<- | Hin].
    + rewrite decide_True by set_solver. rewrite decide_False by assumption. lia.
    + specialize (IH2 Hin Hnv). lia.
Qed.

Lemma work_visit (visited : gset nat) (f : Bpy.BMFace) :
  f ∈ Bpy.faces m -> Bpy.index f ∉ visited ->
  (work m (visited ∪ {[Bpy.index f]}) + S (length (V1.neighbours m f)) <= work m visited)%nat.
Proof. intros Hf Hn. apply (work_step (Bpy.faces m) visited f); assumption. Qed.

Lemma work_mono (visited : gset nat) : (work m visited <= work m ∅)%nat.
Proof.
  unfold work. induction (Bpy.faces m) as [| g l IH]; csimpl; [lia |].
  rewrite (decide_False (P := Bpy.index g ∈ (∅ : gset nat))) by set_solver.
  destruct (decide (Bpy.index g ∈ visited)); lia.
Qed.


Lemma elem_of_rev (x : Bpy.BMFace) (l : list Bpy.BMFace) : x ∈ rev l <-> x ∈ l.
Proof. rewrite !list_elem_of_In. symmetry. apply in_rev. Qed.

Lemma flooded_nil (visited : gset nat) : flooded m visited [] visited [].
Proof.
  unfold flooded. simpl. split; [set_solver |]. split; [apply NoDup_nil_2 |].
  split; [intros g Hg; inversion Hg |].
  split; [intros s Hs; inversion Hs | intros g h Hg; inversion Hg].
Qed.

(** The flood loop returns within its budget and adds what [flooded] says. *)
Lemma flood_spec (fuel : nat) (visited : gset nat) (stack group : list Bpy.BMFace) :
  (length stack + work m visited <= fuel)%nat ->
  (forall s, s ∈ stack -> s ∈ Bpy.faces m) ->
  exists visited' new,
    V1.flood fuel m visited stack group = Py.Ret (visited', group ++ new) /\
    flooded m visited stack visited' new.
Proof.
  revert visited stack group.
  induction fuel as [| fuel IH]; intros visited stack group Hfuel Hstack.
  - destruct stack as [| f stack]; [| simpl in Hfuel; lia].
    exists visited, []. rewrite app_nil_r. split; [reflexivity | apply flooded_nil].
  - destruct stack as [| f stack].
    { exists visited, []. rewrite app_nil_r. split; [reflexivity | apply flooded_nil]. }
    assert (Hf : f ∈ Bpy.faces m) by (apply Hstack; left).
    cbn [V1.flood]. destruct (decide (Bpy.index f ∈ visited)) as [Hvis | Hnew].
    + destruct (IH visited stack group) as (visited' & new & Hrun & Hfl).
      { simpl in Hfuel. lia. }
      { intros s Hs. apply Hstack. right. exact Hs. }
      exists visited', new. split; [exact Hrun |].
      destruct Hfl as (HV & Hnd & Hnew & Hst & Hcl).
      split; [exact HV |]. split; [exact Hnd |]. split; [| split; [| exact Hcl]].
      * intros g Hg. destruct (Hnew g Hg) as (H1 & H2 & s & Hs & Hc).
        split; [exact H1 |]. split; [exact H2 |]. exists s. split; [right; exact Hs | exact Hc].
      * intros s Hs. apply elem_of_cons in Hs as [-> | Hs]; [| apply Hst, Hs].
        rewrite HV. set_solver.
    + rewrite push_all.
      set (visited1 := visited ∪ {[Bpy.index f]}).
      set (pushed := filter (fun lf => Bpy.index lf ∉ visited1) (V1.neighbours m f)).
      destruct (IH visited1 (rev pushed ++ stack) (group ++ [f]))
        as (visited' & new & Hrun & Hfl).
      { pose proof (work_visit visited f Hf Hnew) as Hw. fold visited1 in Hw.
        assert (length pushed <= length (V1.neighbours m f))%nat
          by apply length_filter.
        rewrite length_app, length_rev. simpl in Hfuel. lia. }
      { intros s Hs. apply elem_of_app in Hs as [Hs | Hs].
        - apply elem_of_rev, list_elem_of_filter in Hs as [_ Hs].
          apply elem_of_neighbours in Hs. apply Hs.
        - apply Hstack. right. exact Hs. }
      exists visited', (f :: new). rewrite <- app_assoc in Hrun. split; [exact Hrun |].
      destruct Hfl as (HV & Hnd & Hnew' & Hst & Hcl).
      assert (Hfresh : forall g, g ∈ new -> Bpy.index g <> Bpy.index f).
      { intros g Hg Heq. destruct (Hnew' g Hg) as (_ & Hn & _). apply Hn.
        unfold visited1. rewrite Heq. set_solver. }
      split; [| split; [| split; [| split]]].
      * rewrite HV. unfold visited1. rewrite fmap_cons. simpl. set_solver.
      * rewrite fmap_cons. apply NoDup_cons. split; [| exact Hnd].
        intros Hin. apply list_elem_of_fmap in Hin as (g & Heq & Hg).
        apply (Hfresh g Hg). congruence.
      * intros g Hg. apply elem_of_cons in Hg as [-> | Hg].
        { split; [exact Hf |]. split; [exact Hnew |].
          exists f. split; [left | reflexivity]. }
        destruct (Hnew' g Hg) as (H1 & H2 & s & Hs & Hc).
        split; [exact H1 |]. split; [unfold visited1 in H2; set_solver |].
        apply elem_of_app in Hs as [Hs | Hs].
        { exists f. split; [left |].
          apply elem_of_rev, list_elem_of_filter in Hs as [_ Hs].
          apply (adjacent_neighbours f s Hf) in Hs.
          eapply rtc_l; [exact Hs | exact Hc]. }
        { exists s. split; [right; exact Hs | exact Hc]. }
      * intros s Hs. apply elem_of_cons in Hs as [-> | Hs].
        { rewrite HV. unfold visited1. set_solver. }
        apply Hst. apply elem_of_app. right. exact Hs.
      * intros g h Hg Hadj. apply elem_of_cons in Hg as [-> | Hg]; [| eapply Hcl; eassumption].
        destruct (decide (Bpy.index h ∈ visited1)) as [Hin | Hnin].
        { rewrite HV. set_solver. }
        apply Hst. apply elem_of_app. left. apply elem_of_rev, list_elem_of_filter.
        split; [exact Hnin |]. apply (adjacent_neighbours f h Hf). exact Hadj.
Qed.

Lemma elem_of_indices (g : Bpy.BMFace) (l : list Bpy.BMFace) :
  g ∈ Bpy.faces m -> (forall h, h ∈ l -> h ∈ Bpy.faces m) ->
  Bpy.index g ∈ Bpy.index <$> l -> g ∈ l.
Proof.
  intros Hg Hl Hin. apply list_elem_of_fmap in Hin as (h & Heq & Hh).
  rewrite (face_index_inj g h Hg (Hl h Hh) Heq). exact Hh.
Qed.

Lemma flood_budget_work : V1.flood_budget m = S (work m ∅).
Proof.
  unfold V1.flood_budget, work. f_equal.
Qed.

(** From an unvisited face, with no shared edge leaving the visited ones,
    the flood fill returns the component of that face. *)
Lemma flood_fill_component (visited : gset nat) (f0 : Bpy.BMFace) :
  closed m visited -> f0 ∈ Bpy.faces m -> Bpy.index f0 ∉ visited ->
  exists visited' group,
    V1.flood_fill m visited f0 = Py.Ret (visited', group) /\
    visited' = visited ∪ list_to_set (Bpy.index <$> group) /\
    NoDup (Bpy.index <$> group) /\
    (forall g, g ∈ group -> Bpy.index g ∉ visited) /\
    (forall h, h ∈ group <-> h ∈ Bpy.faces m /\ Bpy.connected m f0 h) /\
    closed m visited'.
Proof.
  intros Hclosed Hf0 Hnew. unfold V1.flood_fill.
  destruct (flood_spec (V1.flood_budget m) visited [f0] []) as (visited' & group & Hrun & Hfl).
  { rewrite flood_budget_work. pose proof (work_mono visited). simpl. lia. }
  { intros s Hs. apply list_elem_of_singleton in Hs as ->. exact Hf0. }
  simpl in Hrun. exists visited', group. split; [exact Hrun |].
  destruct Hfl as (HV & Hnd & Hgrp & Hst & Hcl).
  assert (Hfaces : forall h, h ∈ group -> h ∈ Bpy.faces m) by (intros h Hh; apply Hgrp, Hh).
  assert (Hin : forall h, h ∈ Bpy.faces m -> Bpy.index h ∈ visited' ->
                  Bpy.index h ∉ visited -> h ∈ group).
  { intros h Hh Hv Hnv. apply elem_of_indices; [exact Hh | exact Hfaces |].
    rewrite HV in Hv. apply elem_of_union in Hv as [Hv | Hv]; [contradiction |].
    apply elem_of_list_to_set in Hv. exact Hv. }
  assert (Hcomp : forall h, Bpy.connected m f0 h -> h ∈ group).
  { unfold Bpy.connected. apply (rtc_ind_r (fun h => h ∈ group) f0).
    - apply Hin; [exact Hf0 | apply Hst; left | exact Hnew].
    - intros g h Hc Hadj IH. assert (Hh : h ∈ Bpy.faces m) by apply Hadj.
      apply Hin; [exact Hh | eapply Hcl; eassumption |].
      intros Hv. destruct (Hgrp g IH) as (_ & Hgn & _). apply Hgn.
      apply (Hclosed h g); [apply adjacent_sym, Hadj | exact Hv]. }
  split; [exact HV |]. split; [exact Hnd |]. split; [intros g Hg; apply Hgrp, Hg |]. split.
  - intros h. split.
    + intros Hh. destruct (Hgrp h Hh) as (H1 & _ & s & Hs & Hc).
      apply list_elem_of_singleton in Hs as ->. auto.
    + intros [_ Hc]. apply Hcomp, Hc.
  - intros f g Hadj Hv. rewrite HV in Hv. apply elem_of_union in Hv as [Hv | Hv].
    + rewrite HV. apply elem_of_union. left. eapply Hclosed; eassumption.
    + apply elem_of_list_to_set in Hv.
      assert (Hfg : f ∈ group).
      { apply elem_of_indices; [apply Hadj | exact Hfaces | exact Hv]. }
      eapply Hcl; eassumption.
Qed.

(** One turn of the loop over the faces keeps [islands_so_far] and leaves
    the face visited. *)
Lemma island_step_spec (visited : gset nat) (groups : list (list Bpy.BMFace))
    (face : Bpy.BMFace) :
  face ∈ Bpy.faces m -> islands_so_far m visited groups ->
  exists visited' groups',
    V1.island_step m (fun gs group => mret (gs ++ [group])) (visited, groups) face
      = Py.Ret (visited', groups') /\
    islands_so_far m visited' groups' /\
    Bpy.index face ∈ visited' /\ visited ⊆ visited'.
Proof.
  intros Hface (Hclosed & HV & Hnd & Hcomp). unfold V1.island_step. cbn [fst snd].
  destruct (decide (Bpy.index face ∈ visited)) as [Hvis | Hnew].
  { exists visited, groups. split; [reflexivity |].
    split; [repeat split; assumption |]. split; [exact Hvis | reflexivity]. }
  destruct (flood_fill_component visited face Hclosed Hface Hnew)
    as (visited' & group & Hrun & HV' & Hndg & Hfresh & Hgroup & Hclosed').
  rewrite Hrun. cbn [mbind mret Py.exc_bind Py.exc_ret Py.bind].
  exists visited', (groups ++ [group]). split; [reflexivity |].
  assert (Hconcat : concat (groups ++ [group]) = concat groups ++ group).
  { rewrite concat_app. simpl. rewrite app_nil_r. reflexivity. }
  split; [| split].
  - split; [exact Hclosed' |]. rewrite Hconcat, fmap_app. split; [| split].
    + rewrite HV', HV, list_to_set_app_L. reflexivity.
    + apply NoDup_app. split; [exact Hnd |]. split; [| exact Hndg].
      intros i Hi Hi'. apply list_elem_of_fmap in Hi' as (g & -> & Hg).
      apply (Hfresh g Hg). rewrite HV. apply elem_of_list_to_set. exact Hi.
    + apply Forall_app. split; [exact Hcomp |]. apply Forall_singleton.
      split; [eapply NoDup_fmap_1; exact Hndg |]. exists face. split; [exact Hface | exact Hgroup].
  - rewrite HV'. apply elem_of_union. right. apply elem_of_list_to_set, list_elem_of_fmap.
    exists face. split; [reflexivity |]. apply Hgroup. split; [exact Hface | reflexivity].
  - rewrite HV'. apply union_subseteq_l.
Qed.

Lemma island_loop_spec (l : list Bpy.BMFace) (visited : gset nat)
    (groups : list (list Bpy.BMFace)) :
  (forall f, f ∈ l -> f ∈ Bpy.faces m) -> islands_so_far m visited groups ->
  exists visited' groups',
    Py.for_each (V1.island_step m (fun gs group => mret (gs ++ [group]))) l
      (visited, groups) = Py.Ret (visited', groups') /\
    islands_so_far m visited' groups' /\
    (forall f, f ∈ l -> Bpy.index f ∈ visited') /\ visited ⊆ visited'.
Proof.
  revert visited groups. induction l as [| face l IH]; intros visited groups Hl Hinv.
  - exists visited, groups. split; [reflexivity |]. split; [exact Hinv |].
    split; [intros f Hf; inversion Hf | reflexivity].
  - destruct (island_step_spec visited groups face) as (v1 & g1 & Hstep & Hinv1 & Hface & Hsub);
      [apply Hl; left | exact Hinv |].
    destruct (IH v1 g1) as (v2 & g2 & Hrest & Hinv2 & Hall & Hsub');
      [intros f Hf; apply Hl; right; exact Hf | exact Hinv1 |].
    exists v2, g2. split; [| split; [exact Hinv2 | split]].
    + cbn [Py.for_each]. rewrite Hstep. exact Hrest.
    + intros f Hf. apply elem_of_cons in Hf as [-> | Hf]; [apply Hsub', Hface | apply Hall, Hf].
    + transitivity v1; assumption.
Qed.

Lemma connected_component (f0 f g : Bpy.BMFace) :
  Bpy.connected m f0 f -> (Bpy.connected m f0 g <-> Bpy.connected m f g).
Proof.
  unfold Bpy.connected. intros Hf. split; intros Hg.
  - transitivity f0; [apply connected_sym, Hf | exact Hg].
  - transitivity f; assumption.
Qed.

Lemma isolated_connected (f g : Bpy.BMFace) :
  (forall h, Bpy.adjacent m f h -> h = f) -> Bpy.connected m f g -> g = f.
Proof.
  intros Hiso. unfold Bpy.connected.
  apply (rtc_ind_r (fun g => g = f) f); [reflexivity |].
  intros h k _ Hadj ->. apply Hiso, Hadj.
Qed.

Lemma singleton_group (f : Bpy.BMFace) (group : list Bpy.BMFace) :
  NoDup group -> f ∈ group -> (forall g, g ∈ group -> g = f) -> group = [f].
Proof.
  intros Hnd Hf Hall. destruct group as [| a group]; [inversion Hf |].
  rewrite (Hall a) in * by left. f_equal.
  destruct group as [| b group]; [reflexivity |].
  apply NoDup_cons in Hnd as [Hn _]. exfalso. apply Hn.
  rewrite (Hall b) by (right; left). left.
Qed.

End Islands.

(** C6: on every mesh (a face's index is its position, an edge links the
    faces that have it), the stack-based flood fill of per-island mode
    returns, and the islands it returns partition the faces into the
    connected components of the shares-an-edge relation: every face is in
    exactly one island; the faces of an island are exactly the faces
    linked to any one of them by a chain of shared edges, so two faces
    sharing an edge are in the same island and two faces without such a
    chain are in different islands; and a face that shares no edge with
    another face forms a singleton island. *)
Theorem islands_are_connected_components (m : Bpy.BMesh) :
  Bpy.wf_mesh m ->
  exists groups,
    V1.island_groups m = Py.Ret groups /\
    (forall f, f ∈ Bpy.faces m <-> exists group, group ∈ groups /\ f ∈ group) /\
    NoDup (concat groups) /\
    (forall group f g, group ∈ groups -> f ∈ group ->
       (g ∈ group <-> g ∈ Bpy.faces m /\ Bpy.connected m f g)) /\
    (forall f g, Bpy.adjacent m f g ->
       exists group, group ∈ groups /\ f ∈ group /\ g ∈ group) /\
    (forall f g group group',
       group ∈ groups -> group' ∈ groups -> f ∈ group -> g ∈ group' ->
       ~ Bpy.connected m f g -> group <> group') /\
    (forall f, f ∈ Bpy.faces m -> (forall g, Bpy.adjacent m f g -> g = f) ->
       [f] ∈ groups).
Proof.
  intros Hwf.
  destruct (island_loop_spec m Hwf (Bpy.faces m) ∅ []) as (visited & groups & Hrun & Hinv & Hall & _).
  { auto. }
  { split; [intros f g _ Hf; set_solver |]. split; [reflexivity |].
    split; [apply NoDup_nil_2 | apply Forall_nil_2]. }
  destruct Hinv as (Hclosed & HV & Hnd & Hcomp).
  rewrite Forall_forall in Hcomp.
  assert (Hfaces : forall group f, group ∈ groups -> f ∈ group -> f ∈ Bpy.faces m).
  { intros group f Hg Hf. destruct (Hcomp group Hg) as (_ & f0 & _ & Hiff). apply Hiff, Hf. }
  assert (Hcover : forall f, f ∈ Bpy.faces m -> exists group, group ∈ groups /\ f ∈ group).
  { intros f Hf. specialize (Hall f Hf). rewrite HV in Hall.
    apply elem_of_list_to_set, list_elem_of_fmap in Hall as (g & Heq & Hg).
    apply list_elem_of_In, in_concat in Hg as (group & Hgroup & Hg).
    apply list_elem_of_In in Hgroup, Hg.
    exists group. split; [exact Hgroup |].
    rewrite (face_index_inj m Hwf f g Hf (Hfaces group g Hgroup Hg) Heq). exact Hg. }
  assert (Hsame : forall group f g, group ∈ groups -> f ∈ group ->
            (g ∈ group <-> g ∈ Bpy.faces m /\ Bpy.connected m f g)).
  { intros group f g Hgroup Hf. destruct (Hcomp group Hgroup) as (_ & f0 & _ & Hiff).
    pose proof (proj1 (Hiff f) Hf) as [_ Hf0]. rewrite (Hiff g).
    rewrite (connected_component m f0 f g Hf0). reflexivity. }
  exists groups. split.
  { unfold V1.island_groups, V1.island_loop. rewrite Hrun. reflexivity. }
  split; [| split; [| split; [exact Hsame | split; [| split]]]].
  - intros f. split; [apply Hcover |]. intros (group & Hg & Hf). eapply Hfaces; eassumption.
  - eapply NoDup_fmap_1. exact Hnd.
  - intros f g Hadj. destruct (Hcover f) as (group & Hgroup & Hf); [apply Hadj |].
    exists group. split; [exact Hgroup |]. split; [exact Hf |].
    apply (Hsame group f g Hgroup Hf). split; [apply Hadj | apply rtc_once, Hadj].
  - intros f g group group' Hgroup _ Hf Hg Hnot ->.
    apply Hnot. apply (Hsame group' f g Hgroup Hf). exact Hg.
  - intros f Hf Hiso. destruct (Hcover f Hf) as (group & Hgroup & Hfg).
    rewrite <- (singleton_group f group); [exact Hgroup | | exact Hfg |].
    + apply (Hcomp group Hgroup).
    + intros g Hg. apply (Hsame group f g Hgroup Hfg) in Hg as [_ Hg].
      eapply isolated_connected; eassumption.
Qed.

(** A face list whose indices are the positions is a mesh. *)
Lemma mesh_of_wf (fs : list Bpy.BMFace) :
  (forall i f, fs !! i = Some f -> Bpy.index f = i) -> Bpy.wf_mesh (Bpy.mesh_of fs).
Proof.
  intros Hidx. split; [exact Hidx |].
  intros e g. simpl. unfold Bpy.link_faces_of. rewrite list_elem_of_filter. tauto.
Qed.

Lemma mesh3_wf : Bpy.wf_mesh Scenes.mesh3.
Proof.
  apply mesh_of_wf. intros [| [| [| i]]] f; simpl; intros [= <-]; reflexivity.
Qed.

(** The islands of [mesh3]: the two quads that share an edge, and the
    isolated quad on its own. *)
Example mesh3_islands :
  V1.island_groups Scenes.mesh3
    = Py.Ret [[Scenes.face0; Scenes.face1]; [Scenes.face2]].
Proof. vm_compute. reflexivity. Qed.

Lemma islands_are_connected_components_witness :
  exists groups,
    V1.island_groups Scenes.mesh3 = Py.Ret groups /\
    (forall f, f ∈ Bpy.faces Scenes.mesh3 <-> exists group, group ∈ groups /\ f ∈ group) /\
    NoDup (concat groups) /\
    (forall group f g, group ∈ groups -> f ∈ group ->
       (g ∈ group <-> g ∈ Bpy.faces Scenes.mesh3 /\ Bpy.connected Scenes.mesh3 f g)) /\
    (forall f g, Bpy.adjacent Scenes.mesh3 f g ->
       exists group, group ∈ groups /\ f ∈ group /\ g ∈ group) /\
    (forall f g group group',
       group ∈ groups -> group' ∈ groups -> f ∈ group -> g ∈ group' ->
       ~ Bpy.connected Scenes.mesh3 f g -> group <> group') /\
    (forall f, f ∈ Bpy.faces Scenes.mesh3 ->
       (forall g, Bpy.adjacent Scenes.mesh3 f g -> g = f) -> [f] ∈ groups).
Proof. apply (islands_are_connected_components Scenes.mesh3), mesh3_wf. Defined.

Lemma island_step_eq {S} (m : Bpy.BMesh) (body : S -> list Bpy.BMFace -> Py.Exc S)
    (visited : gset nat) (st : S) (face : Bpy.BMFace) :
  V1.island_step m body (visited, st) face =
    if decide (Bpy.index face ∈ visited) then Py.Ret (visited, st)
    else '(visited', group) ← V1.flood_fill m visited face;
         st' ← body st group;
         mret (visited', st').
Proof. reflexivity. Qed.



(** The end-to-end example of the specification: a quad with UVs (0,0),
    (0.5,0), (0.5,0.25), (0,0.25) on a 1024 by 128 image gets the box
    (0, 96, 512, 128), a 512 by 32 crop, and from the remap of lines
    177-229 the UVs of the unit square (the host operators that follow are
    here made to leave the object as the remap left it). *)
Example strip_end_to_end :
  Scenes.remapped
    (V1.execute Scenes.cfg_face (V1.mkScene [Scenes.strip] [] Scenes.disk_T Scenes.ops_ok))
    "/out/T.png_variant1.png"
  = Some ([("T.png", [((0, 96, 512, 128), "/tex/T.png", 1%nat)])],
          [[[Bpy.mkUV 0 0; Bpy.mkUV 1 0; Bpy.mkUV 1 1; Bpy.mkUV 0 1]]]%float,
          Some (Some (512, 32))).
Proof. vm_compute. reflexivity. Qed.
(** * Further properties of the two scripts *)

(** ** Resolving the image of a face *)

Lemma legacy_scan_loops_eq (mats : list (option Bpy.Material)) (face : Bpy.BMFace)
    (ls : list Bpy.UV) :
  Legacy.scan_loops mats face ls =
    match ls with
    | [] => None
    | _ :: _ => Legacy.image_of_slot mats (Bpy.material_index face)
    end.
Proof.
  induction ls as [| uv ls IH]; [reflexivity |]. cbn [Legacy.scan_loops].
  destruct (Legacy.image_of_slot mats (Bpy.material_index face)) eqn:Hslot; [reflexivity |].
  rewrite IH. destruct ls; reflexivity.
Qed.

Lemma first_tex_image_split (ns : list Bpy.Node) (im : Bpy.Image) :
  Bpy.first_tex_image ns = Some im ->
  exists pre n post, ns = pre ++ n :: post /\
    Bpy.node_type n = "TEX_IMAGE" /\ Bpy.node_image n = Some im /\
    Forall (fun n' => Bpy.node_type n' <> "TEX_IMAGE" \/ Bpy.node_image n' = None) pre.
Proof.
  induction ns as [| n ns IH]; [discriminate |]. cbn [Bpy.first_tex_image].
  destruct (decide (Bpy.node_type n = "TEX_IMAGE")) as [Ht | Ht].
  - destruct (Bpy.node_image n) as [im' |] eqn:Him.
    + intros [= ->]. exists [], n, ns. repeat split; auto.
    + intros H. destruct (IH H) as (pre & n' & post & -> & ? & ? & Hpre).
      exists (n :: pre), n', post. repeat split; auto.
  - intros H. destruct (IH H) as (pre & n' & post & -> & ? & ? & Hpre).
    exists (n :: pre), n', post. repeat split; auto.
Qed.

(** X1: a face resolves the image of the first image-texture node that
    carries an image, in the material found at the face's material index.
    It resolves nothing when the face has no loop, when the index is past
    the material slots, or when the material does not use nodes. The two
    scripts part on a face with a loop whose slot is empty: the older one
    tests the slot and resolves nothing, the newer one reads [use_nodes] of
    [None] and raises [AttributeError]; on every other face they resolve
    the same image. *)
Theorem face_image_is_first_texture_of_its_material (mats : list (option Bpy.Material))
    (face : Bpy.BMFace) :
  V1.get_image_from_face mats face =
    match Bpy.loops face, mats !! Bpy.material_index face with
    | _ :: _, Some (Some mat) =>
        Py.Ret (if Bpy.use_nodes mat then Bpy.first_tex_image (Bpy.nodes mat) else None)
    | _ :: _, Some None => Py.Raise Py.AttributeError
    | _, _ => Py.Ret None
    end /\
  Legacy.get_image_from_face mats face =
    match Bpy.loops face, mats !! Bpy.material_index face with
    | _ :: _, Some (Some mat) =>
        if Bpy.use_nodes mat then Bpy.first_tex_image (Bpy.nodes mat) else None
    | _, _ => None
    end /\
  (Bpy.loops face <> [] /\ mats !! Bpy.material_index face = Some None ->
     V1.get_image_from_face mats face = Py.Raise Py.AttributeError /\
     Legacy.get_image_from_face mats face = None) /\
  (~ (Bpy.loops face <> [] /\ mats !! Bpy.material_index face = Some None) ->
     V1.get_image_from_face mats face = Py.Ret (Legacy.get_image_from_face mats face)) /\
  (forall im, V1.get_image_from_face mats face = Py.Ret (Some im) ->
     exists mat pre n post,
       mats !! Bpy.material_index face = Some (Some mat) /\ Bpy.use_nodes mat = true /\
       Bpy.nodes mat = pre ++ n :: post /\
       Bpy.node_type n = "TEX_IMAGE" /\ Bpy.node_image n = Some im /\
       Forall (fun n' => Bpy.node_type n' <> "TEX_IMAGE" \/ Bpy.node_image n' = None) pre).
Proof.
  assert (Hv1 : V1.get_image_from_face mats face =
    match Bpy.loops face, mats !! Bpy.material_index face with
    | _ :: _, Some (Some mat) =>
        Py.Ret (if Bpy.use_nodes mat then Bpy.first_tex_image (Bpy.nodes mat) else None)
    | _ :: _, Some None => Py.Raise Py.AttributeError
    | _, _ => Py.Ret None
    end).
  { unfold V1.get_image_from_face. rewrite scan_loops_eq. unfold V1.image_of_slot.
    destruct (Bpy.loops face); [reflexivity |].
    destruct (mats !! Bpy.material_index face) as [[mat |] |]; reflexivity. }
  assert (Hlg : Legacy.get_image_from_face mats face =
    match Bpy.loops face, mats !! Bpy.material_index face with
    | _ :: _, Some (Some mat) =>
        if Bpy.use_nodes mat then Bpy.first_tex_image (Bpy.nodes mat) else None
    | _, _ => None
    end).
  { unfold Legacy.get_image_from_face. rewrite legacy_scan_loops_eq.
    unfold Legacy.image_of_slot. destruct (Bpy.loops face); [reflexivity |].
    destruct (mats !! Bpy.material_index face) as [[mat |] |]; reflexivity. }
  split; [exact Hv1 |]. split; [exact Hlg |]. split; [| split].
  - intros [Hloops Hslot]. rewrite Hv1, Hlg, Hslot.
    destruct (Bpy.loops face); [congruence | split; reflexivity].
  - intros Hnot. rewrite Hv1, Hlg. destruct (Bpy.loops face) as [| uv ls]; [reflexivity |].
    destruct (mats !! Bpy.material_index face) as [[mat |] |]; [reflexivity | | reflexivity].
    exfalso. apply Hnot. split; [discriminate | reflexivity].
  - intros im. rewrite Hv1. destruct (Bpy.loops face); [discriminate |].
    destruct (mats !! Bpy.material_index face) as [[mat |] |]; [| discriminate..].
    destruct (Bpy.use_nodes mat) eqn:Hn; [| discriminate].
    intros [= Hfirst].
    destruct (first_tex_image_split _ _ Hfirst) as (pre & n & post & ? & ? & ? & ?).
    exists mat, pre, n, post. split_and!; auto.
Qed.

(** A quad whose material slot is empty: the older script finds no image
    for it and goes on, the newer one raises. *)
Example empty_slot_parts_the_scripts :
  Legacy.get_image_from_face [None] Scenes.face0 = None /\
  V1.get_image_from_face [None] Scenes.face0 = Py.Raise Py.AttributeError.
Proof. split; reflexivity. Qed.
(** ** Cancelling, and objects without UVs *)

Lemma gather_reports_run (cfg : V1.Settings) (objs : list Bpy.Object)
    (col col' : V1.Collected) :
  Py.for_each (V1.gather_object cfg) objs col = Py.Ret col' ->
  V1.reports col' = V1.reports col ++
    ((fun ob => ("WARNING", "No UVs found on " +:+ Bpy.obj_name ob +:+ ".")) <$>
       filter (fun ob => Bpy.uv_layer ob = false) objs).
Proof.
  revert col. induction objs as [| ob objs IH]; intros col.
  - simpl. intros [= <-]. rewrite app_nil_r. reflexivity.
  - cbn [Py.for_each]. destruct (V1.gather_object cfg col ob) as [col1 | e] eqn:Hstep;
      [| discriminate].
    cbn [mbind Py.exc_bind Py.bind]. intros Hrest. rewrite (IH _ Hrest).
    unfold V1.gather_object in Hstep. rewrite filter_cons.
    destruct (Bpy.uv_layer ob) eqn:Huv.
    + rewrite decide_False by discriminate.
      destruct (if V1.crop_per_border cfg then _ else _) as [g | e]; [| discriminate].
      injection Hstep as <-. reflexivity.
    + rewrite decide_True by reflexivity. injection Hstep as <-.
      cbn [V1.reports]. rewrite fmap_cons, <- app_assoc. reflexivity.
Qed.

(** Once a mesh is selected the export operator of the newer script does
    not cancel. *)
Lemma execute_cancelled_inv (cfg : V1.Settings) (scene : V1.Scene) (rs : list V1.Report) :
  V1.execute cfg scene = Py.Ret (V1.CANCELLED rs) ->
  filter (fun o => Bpy.obj_type o = "MESH") (V1.selected_objects scene) = [] /\
  rs = [("WARNING", "Select at least one mesh.")].
Proof.
  unfold V1.execute.
  destruct (filter (fun o => Bpy.obj_type o = "MESH") (V1.selected_objects scene))
    as [| ob objs]; [intros [= <-]; auto |].
  destruct (Py.for_each (V1.gather_object cfg) (ob :: objs) _) as [col | e];
    [| discriminate].
  cbn [mbind Py.exc_bind Py.bind].
  destruct (V1.makedirs _ _) as [[] | e]; [| discriminate].
  cbn [mbind Py.exc_bind Py.bind].
  destruct (Py.for_each _ (seq _ _) _) as [[store world] | e]; discriminate.
Qed.

(** X2: the export operator of the newer script is cancelled exactly when
    the selection holds no mesh object, with the one warning
    "Select at least one mesh."; once a mesh is selected it never cancels. *)
Theorem export_cancels_exactly_without_mesh (cfg : V1.Settings) (scene : V1.Scene) :
  (filter (fun o => Bpy.obj_type o = "MESH") (V1.selected_objects scene) = [] <->
   exists rs, V1.execute cfg scene = Py.Ret (V1.CANCELLED rs)) /\
  (forall rs, V1.execute cfg scene = Py.Ret (V1.CANCELLED rs) ->
     rs = [("WARNING", "Select at least one mesh.")]).
Proof.
  split; [split |].
  - intros Hnone. eexists. unfold V1.execute. rewrite Hnone. reflexivity.
  - intros [rs Hrs]. apply (execute_cancelled_inv _ _ _ Hrs).
  - intros rs Hrs. apply (execute_cancelled_inv _ _ _ Hrs).
Qed.

(** X3: a finished run of the newer script reports one warning for every
    selected mesh without an active UV layer, in selection order, and then
    the final message; nothing else is ever reported. *)
Theorem export_warns_once_per_object_without_uvs (cfg : V1.Settings) (scene : V1.Scene)
    (o : V1.Finished) :
  V1.execute cfg scene = Py.Ret (V1.FINISHED o) ->
  V1.out_reports o =
    ((fun ob => ("WARNING", "No UVs found on " +:+ Bpy.obj_name ob +:+ ".")) <$>
       filter (fun ob => Bpy.uv_layer ob = false)
         (filter (fun ob => Bpy.obj_type ob = "MESH") (V1.selected_objects scene))) ++
    [("INFO", "Export complete: UV data, crops, remapping, fills, separation, and join finished.")].
Proof.
  intros Hrun. destruct (v1_execute_finished _ _ _ Hrun) as (col & Hcol & _ & _ & _ & Hrep).
  rewrite Hrep, (gather_reports_run _ _ _ _ Hcol). reflexivity.
Qed.

Lemma export_warns_once_per_object_without_uvs_witness :
  match V1.execute Scenes.cfg_face
          (V1.mkScene [Bpy.mkObject "Bare" "MESH" [] false (Bpy.mesh_of []); Scenes.twins;
                       Bpy.mkObject "Lamp" "LIGHT" [] false (Bpy.mesh_of [])]
             [] Scenes.disk_AB Scenes.ops_ok) with
  | Py.Ret (V1.FINISHED o) =>
      V1.out_reports o =
        [("WARNING", "No UVs found on Bare.");
         ("INFO", "Export complete: UV data, crops, remapping, fills, separation, and join finished.")]
  | _ => False
  end.
Proof.
  destruct (V1.execute Scenes.cfg_face _) as [[rs | o] | e] eqn:Hrun;
    [vm_compute in Hrun; discriminate | | vm_compute in Hrun; discriminate].
  rewrite (export_warns_once_per_object_without_uvs _ _ _ Hrun). reflexivity.
Defined.





(** The same selection with the empty string for a directory: the newer
    script raises at [os.makedirs], before anything is written. *)
Example export_into_the_empty_directory_raises :
  V1.execute (V1.mkSettings "" true false true)
    (V1.mkScene [Bpy.mkObject "Bare" "MESH" [] false (Bpy.mesh_of [])] [] Scenes.disk_AB
       Scenes.ops_ok)
    = Py.Raise Py.FileNotFoundError.
Proof. reflexivity. Qed.

(** X5: the older script is cancelled exactly when there is no active
    object, when the object is no mesh, or when the mesh has no active UV
    layer, each with its own warning; otherwise it never cancels. *)
Theorem legacy_export_cancel_conditions (cfg : Legacy.Settings) (ctx : Legacy.Context) :
  (Legacy.object ctx = None ->
     Legacy.execute cfg ctx
       = Py.Ret (Legacy.CANCELLED ("WARNING", "Selecciona un mesh en modo Edicion."))) /\
  (forall obj, Legacy.object ctx = Some obj -> Bpy.obj_type obj <> "MESH" ->
     Legacy.execute cfg ctx
       = Py.Ret (Legacy.CANCELLED ("WARNING", "Selecciona un mesh en modo Edicion."))) /\
  (forall obj, Legacy.object ctx = Some obj -> Bpy.obj_type obj = "MESH" ->
     Bpy.uv_layer obj = false ->
     Legacy.execute cfg ctx
       = Py.Ret (Legacy.CANCELLED ("WARNING", "No se encontraron UVs."))) /\
  (forall r, Legacy.execute cfg ctx = Py.Ret (Legacy.CANCELLED r) ->
     forall obj, Legacy.object ctx = Some obj ->
       Bpy.obj_type obj <> "MESH" \/ Bpy.uv_layer obj = false).
Proof.
  unfold Legacy.execute. destruct (Legacy.object ctx) as [obj |].
  - split; [discriminate |].
    split; [intros ? [= <-] Hne; rewrite decide_False by exact Hne; reflexivity |].
    split; [intros ? [= <-] He Huv; rewrite decide_True by exact He; rewrite Huv;
            reflexivity |].
    intros r Hr ? [= <-]. destruct (decide (Bpy.obj_type obj = "MESH")) as [Hm | Hm]; [| auto].
    destruct (Bpy.uv_layer obj); [| auto]. exfalso.
    destruct (Py.for_each _ _ Legacy.empty) as [st | e]; [| discriminate].
    cbn [mbind Py.exc_bind Py.bind] in Hr.
    destruct (Legacy.size_lines st) as [sizes | e]; [| discriminate].
    cbn [mbind Py.exc_bind Py.bind] in Hr.
    destruct (if Legacy.remap_model cfg && Legacy.crop_images cfg then _ else _)
      as [r0 | e]; discriminate.
  - split; [reflexivity |]. repeat split; discriminate.
Qed.

(** ** The per-face gathering loop *)

Lemma gather_face_step (mats : list (option Bpy.Material)) (st st' : V1.Gathered)
    (face : Bpy.BMFace) :
  V1.gather_face mats st face = Py.Ret st' ->
  (V1.get_image_from_face mats face = Py.Ret None /\ st' = st) \/
  (exists img bounds,
     V1.get_image_from_face mats face = Py.Ret (Some img) /\
     V1.bounds_of (V1.to_pixels (Bpy.img_size img).1 (Bpy.img_size img).2 <$> Bpy.loops face)
       (Bpy.img_size img).2 = Py.Ret bounds /\
     V1.global_variants st' =
       V1.append_variant (V1.global_variants st) (Bpy.img_name img)
         (bounds, Bpy.abspath (Bpy.img_filepath img), None) /\
     V1.global_sizes st' =
       Py.setitem (V1.global_sizes st) (Bpy.img_name img) (Bpy.img_size img) /\
     V1.assignments st' = V1.assignments st ++ [(Bpy.index face, Bpy.img_name img, bounds)]).
Proof.
  unfold V1.gather_face.
  destruct (V1.get_image_from_face mats face) as [[img |] | e]; [| | discriminate];
    cbn [mbind Py.exc_bind Py.bind]; [| intros [= <-]; left; auto].
  destruct (Bpy.img_size img) as [w h] eqn:Hsz. cbn [fst snd].
  destruct (V1.bounds_of _ h) as [bounds | e] eqn:Hb; [| discriminate].
  intros [= <-]. right. exists img, bounds. rewrite Hsz.
  split_and!; first [reflexivity | exact Hb].
Qed.

(** X6: in per-face mode every face that resolves an image contributes
    exactly one assignment, in face order, carrying its own index, the name
    of its image and its own box, and one entry with that box to the
    variants gathered for the image; faces that resolve no image contribute
    nothing. (The loop returns only if the image lookup returned for every
    face.) *)
Theorem per_face_gather_takes_each_textured_face (mats : list (option Bpy.Material))
    (faces : list Bpy.BMFace) (g0 g : V1.Gathered) :
  Py.for_each (V1.gather_face mats) faces g0 = Py.Ret g ->
  exists added,
    V1.assignments g = V1.assignments g0 ++ added /\
    Forall2 (fun a f =>
        a.1.1 = Bpy.index f /\
        exists img,
          V1.get_image_from_face mats f = Py.Ret (Some img) /\ a.1.2 = Bpy.img_name img /\
          V1.bounds_of
            (V1.to_pixels (Bpy.img_size img).1 (Bpy.img_size img).2 <$> Bpy.loops f)
            (Bpy.img_size img).2 = Py.Ret a.2)
      added (filter (fun f => is_Some (V1.resolved mats f)) faces) /\
    Forall (fun f => exists r, V1.get_image_from_face mats f = Py.Ret r) faces /\
    forall name,
      bounds_of_variants (default [] (Py.get (V1.global_variants g) name)) =
        bounds_of_variants (default [] (Py.get (V1.global_variants g0) name)) ++
        (snd <$> filter (fun a => a.1.2 = name) added).
Proof.
  revert g0. induction faces as [| f faces IH]; intros g0.
  - simpl. intros [= <-]. exists []. rewrite !app_nil_r. split; [reflexivity |].
    split; [constructor |]. split; [constructor |].
    intros name. rewrite app_nil_r. reflexivity.
  - cbn [Py.for_each]. destruct (V1.gather_face mats g0 f) as [g1 | e] eqn:Hstep;
      [| discriminate].
    cbn [mbind Py.exc_bind Py.bind]. intros Hrest.
    destruct (IH _ Hrest) as (added & Hasg & Hall & Hret & Hvar).
    rewrite filter_cons.
    destruct (gather_face_step _ _ _ _ Hstep)
      as [[Hnone ->] | (img & bounds & Himg & Hb & Hgv & _ & Ha)].
    + rewrite decide_False
        by (rewrite (resolved_Ret _ _ _ Hnone); apply is_Some_None).
      exists added. split_and!; [assumption | assumption | | assumption].
      constructor; [eauto | exact Hret].
    + rewrite decide_True by (rewrite (resolved_Ret _ _ _ Himg); eauto).
      exists ((Bpy.index f, Bpy.img_name img, bounds) :: added).
      split; [rewrite Hasg, Ha, <- app_assoc; reflexivity |].
      split; [constructor; [split; [reflexivity | eauto] | exact Hall] |].
      split; [constructor; [eauto | exact Hret] |].
      intros name. rewrite Hvar, Hgv, get_append_variant, filter_cons. cbn [fst snd].
      destruct (decide (Bpy.img_name img = name)) as [<- | Hne].
      * rewrite !fmap_app, <- app_assoc. reflexivity.
      * reflexivity.
Qed.

Lemma per_face_gather_takes_each_textured_face_witness :
  exists added,
    V1.assignments (V1.mkGathered [] [] []) ++ added =
      [(0%nat, "A.png", (0, 4, 4, 8)); (1%nat, "B.png", (2, 0, 4, 2))] /\
    Forall2 (fun a f => a.1.1 = Bpy.index f) added [Scenes.face0; Scenes.face1].
Proof.
  destruct (per_face_gather_takes_each_textured_face (Bpy.materials Scenes.cube)
              (Bpy.faces Scenes.mesh3) (V1.mkGathered [] [] [])
              (V1.mkGathered
                 [("A.png", [((0, 4, 4, 8), "/tex/A.png", None)]);
                  ("B.png", [((2, 0, 4, 2), "/tex/B.png", None)])]
                 [("A.png", (8, 8)); ("B.png", (4, 4))]
                 [(0%nat, "A.png", (0, 4, 4, 8)); (1%nat, "B.png", (2, 0, 4, 2))]))
    as (added & Hasg & Hall & _ & _).
  - vm_compute. reflexivity.
  - exists added. split; [symmetry; exact Hasg |].
    eapply Forall2_impl; [exact Hall |]. intros a f [Hi _]. exact Hi.
Defined.

(** ** The size recorded for an image name *)

Lemma last_filter_cons {A} (P : A -> Prop) `{forall x, Decision (P x)} (x : A) (l : list A) :
  last (filter P (x :: l)) =
    match last (filter P l) with
    | Some y => Some y
    | None => if decide (P x) then Some x else None
    end.
Proof.
  rewrite filter_cons. destruct (decide (P x)); [| destruct (last (filter P l)); reflexivity].
  destruct (filter P l) as [| y l'] eqn:Hf; [reflexivity |].
  rewrite last_cons. destruct (last (y :: l')) eqn:Hl; [reflexivity |].
  apply last_None in Hl. discriminate.
Qed.

Lemma omap_cons_eq {A B} (f : A -> option B) (x : A) (l : list A) :
  omap f (x :: l) = match f x with Some y => y :: omap f l | None => omap f l end.
Proof. reflexivity. Qed.

Lemma get_setdefault {K V} `{EqDecision K} (d : Py.Dict K V) (k k' : K) (v : V) :
  Py.get (Py.setdefault d k v) k' =
    match Py.get d k' with
    | Some v' => Some v'
    | None => if decide (k = k') then Some v else None
    end.
Proof.
  unfold Py.setdefault. destruct (Py.get d k) as [v0 |] eqn:Hk.
  - destruct (Py.get d k') eqn:Hk'; [reflexivity |].
    destruct (decide (k = k')) as [-> | _]; [congruence | reflexivity].
  - destruct (decide (k = k')) as [<- | Hne].
    + rewrite get_setitem_eq, Hk. reflexivity.
    + rewrite get_setitem_ne by assumption. destruct (Py.get d k'); reflexivity.
Qed.

(** X7: when several faces resolve images that go under one name, the
    newer script keeps the size of the last such face (every face
    overwrites [global_sizes]), while the older script keeps the size of the
    first (it only sets [dimensions] when the name is new) and never changes
    a size once it is recorded. *)
Theorem recorded_size_is_last_seen_or_first_seen (mats : list (option Bpy.Material))
    (faces : list Bpy.BMFace) :
  (forall g0 g name,
     Py.for_each (V1.gather_face mats) faces g0 = Py.Ret g ->
     Py.get (V1.global_sizes g) name =
       match last (filter (fun im => Bpy.img_name im = name)
                     (omap (V1.resolved mats) faces)) with
       | Some im => Some (Bpy.img_size im)
       | None => Py.get (V1.global_sizes g0) name
       end) /\
  (forall st0 st name,
     Py.for_each (Legacy.collect_face mats) faces st0 = Py.Ret st ->
     Py.get (Legacy.dimensions st) name =
       match Py.get (Legacy.dimensions st0) name with
       | Some d => Some d
       | None =>
           Bpy.img_size <$>
             head (filter (fun im => Bpy.basename (Bpy.img_filepath im) = name)
                     (omap (Legacy.get_image_from_face mats) faces))
       end).
Proof.
  split.
  - induction faces as [| f faces IH]; intros g0 g name.
    + simpl. intros [= <-]. reflexivity.
    + cbn [Py.for_each]. destruct (V1.gather_face mats g0 f) as [g1 | e] eqn:Hstep;
        [| discriminate].
      cbn [mbind Py.exc_bind Py.bind]. intros Hrest. rewrite (IH _ _ name Hrest).
      rewrite omap_cons_eq.
      destruct (gather_face_step _ _ _ _ Hstep)
        as [[Hnone ->] | (img & bounds & Himg & _ & _ & Hsz & _)].
      * rewrite (resolved_Ret _ _ _ Hnone). reflexivity.
      * rewrite (resolved_Ret _ _ _ Himg), last_filter_cons.
        destruct (last (filter _ (omap (V1.resolved mats) faces)));
          [reflexivity |].
        rewrite Hsz. destruct (decide (Bpy.img_name img = name)) as [<- | Hne].
        -- apply get_setitem_eq.
        -- apply get_setitem_ne. exact Hne.
  - induction faces as [| f faces IH]; intros st0 st name.
    + simpl. intros [= <-]. destruct (Py.get (Legacy.dimensions st0) name); reflexivity.
    + cbn [Py.for_each]. destruct (Legacy.collect_face mats st0 f) as [st1 | e] eqn:Hstep;
        [| discriminate].
      cbn [mbind Py.exc_bind Py.bind]. intros Hrest. rewrite (IH _ _ name Hrest).
      rewrite omap_cons_eq.
      destruct (legacy_collect_face_step _ _ _ _ Hstep)
        as [[Hnone ->] | (img & bounds & variant & Himg & _ & _ & _ & _ & _ & Hdim & _)].
      * rewrite Hnone. reflexivity.
      * rewrite Himg, Hdim, get_setdefault, filter_cons.
        destruct (Py.get (Legacy.dimensions st0) name); [reflexivity |].
        destruct (decide (Bpy.basename (Bpy.img_filepath img) = name)); reflexivity.
Qed.

(** ** What the crop pool leaves behind *)

Lemma foldl_invariant_in {A B} (P : A -> Prop) (f : A -> B -> A) (l : list B) (a : A) :
  P a -> (forall a x, x ∈ l -> P a -> P (f a x)) -> P (foldl f a l).
Proof.
  revert a. induction l as [| x l IH]; intros a Ha Hstep; [exact Ha |].
  simpl. apply IH.
  - apply Hstep; [left | exact Ha].
  - intros a' x' Hin. apply Hstep. right. exact Hin.
Qed.

Lemma elem_of_setitem {K V} `{EqDecision K} (d : Py.Dict K V) (k : K) (v : V) (x : K * V) :
  x ∈ Py.setitem d k v -> x = (k, v) \/ x ∈ d.
Proof.
  induction d as [| [k' v'] d IH]; simpl.
  - intros Hin. apply list_elem_of_singleton in Hin. auto.
  - destruct (decide (k' = k)) as [-> | Hne]; intros Hin.
    + apply elem_of_cons in Hin as [-> | Hin]; [auto | right; right; exact Hin].
    + apply elem_of_cons in Hin as [-> | Hin]; [right; left |].
      destruct (IH Hin) as [-> | Hd]; [auto | right; right; exact Hd].
Qed.

Lemma keys_setitem_both {K V W} `{EqDecision K} (d : Py.Dict K V) (d' : Py.Dict K W)
    (k : K) (v : V) (w : W) :
  Py.keys d = Py.keys d' -> Py.keys (Py.setitem d k v) = Py.keys (Py.setitem d' k w).
Proof.
  revert d'. induction d as [| [k1 v1] d IH]; intros [| [k2 v2] d']; simpl;
    try discriminate; [reflexivity |].
  intros [= -> Hrest]. destruct (decide (k2 = k)); simpl; [congruence |].
  f_equal. apply IH. exact Hrest.
Qed.

(** What a crop task that returned was given and made. *)
Lemma crop_task_Some (cfg : V1.Settings) (saver : PIL.Saver) (fs : PIL.FileSystem) (name src : string)
    (vid : nat) (b : Bpy.Box) (r : string * nat * string * Bpy.Box) (cropped : PIL.Image) :
  V1.crop_task cfg saver fs (name, src, vid, b) = Some (r, cropped) ->
  exists im x0 y0 x1 y1,
    fs !! src = Some (Some im) /\
    V1.clamp_box (PIL.size im).1 (PIL.size im).2 b = (x0, y0, x1, y1) /\
    r = (name, vid, Py.path_join (V1.directory cfg) (V1.variant_name name vid +:+ ".png"),
         (x0, y0, x1, y1)) /\
    PIL.size cropped = (x1 - x0, y1 - y0) /\ 0 <= x0 < x1 /\ 0 <= y0 < y1 /\
    PIL.crop im (x0, y0, x1, y1) = Py.Ret cropped /\
    saver (Py.path_join (V1.directory cfg) (V1.variant_name name vid +:+ ".png")) cropped
      = true.
Proof.
  destruct (fs !! src) as [[im |] |] eqn:Hsrc;
    [| unfold V1.crop_task; rewrite Hsrc; discriminate
     | unfold V1.crop_task; rewrite Hsrc; discriminate].
  destruct (V1.clamp_box (PIL.size im).1 (PIL.size im).2 b) as [[[x0 y0] x1] y1] eqn:Hc.
  destruct (crop_task_decoded cfg saver fs name src vid im b _ _ _ _ Hsrc Hc)
    as (cropped' & Hcrop & Hcropped & ->).
  destruct (saver _ cropped') eqn:Hsave; [| discriminate]. intros [= <- <-].
  pose proof (clamp_box_positive _ _ _ _ _ _ _ Hc) as [Hx Hy].
  assert (0 <= x0 /\ 0 <= y0) as [Hx0 Hy0].
  { destruct b as [[[bx0 by0] bx1] by1]. rewrite clamp_box_eq in Hc.
    injection Hc as Hx0 Hy0 _ _. lia. }
  exists im, x0, y0, x1, y1.
  split_and!; try reflexivity; try assumption; try lia.
  rewrite Hcropped. reflexivity.
Qed.

Lemma elem_of_tasks_of (variants : Py.Dict string (list (Bpy.Box * string * nat)))
    (name path : string) (vid : nat) (bounds : Bpy.Box) :
  (name, path, vid, bounds) ∈ V1.tasks_of variants <->
  exists vs, (name, vs) ∈ variants /\ (bounds, path, vid) ∈ vs.
Proof.
  unfold V1.tasks_of. rewrite list_elem_of_In, in_flat_map. split.
  - intros ([name' vs] & Hin & Hx). apply list_elem_of_In in Hin, Hx.
    apply list_elem_of_fmap in Hx as ([[b p] v] & [= -> -> -> ->] & Hv). eauto.
  - intros (vs & Hin & Hv). exists (name, vs). rewrite <- !list_elem_of_In.
    split; [exact Hin |]. apply list_elem_of_fmap. exists (bounds, path, vid). auto.
Qed.

Lemma merged_image_map (rs : list (option ((string * nat * string * Bpy.Box) * PIL.Image)))
    (c : V1.Crops) (k : string * nat) :
  is_Some (Py.get (V1.image_map (foldl V1.merge_result c rs)) k) <->
  is_Some (Py.get (V1.image_map c) k) \/
  exists out b im, Some ((k.1, k.2, out, b), im) ∈ rs.
Proof.
  revert c. induction rs as [| r rs IH]; intros c.
  - simpl. split; [auto | intros [H | (? & ? & ? & H)]; [exact H | inversion H]].
  - cbn [foldl]. rewrite IH. destruct r as [[[[[n v] out] b] im] |]; cbn [V1.merge_result].
    + cbn [V1.image_map]. rewrite get_setitem_is_Some. split.
      * intros [[<- | H] | (out' & b' & im' & H)].
        -- right. exists out, b, im. left.
        -- auto.
        -- right. exists out', b', im'. right. exact H.
      * intros [H | (out' & b' & im' & H)]; [auto |].
        apply elem_of_cons in H as [H | H].
        -- injection H as <- <- <- <- <-. left. left. destruct k; reflexivity.
        -- right. eauto.
    + split.
      * intros [H | (out' & b' & im' & H)]; [auto |]. right. exists out', b', im'.
        right. exact H.
      * intros [H | (out' & b' & im' & H)]; [auto |].
        apply elem_of_cons in H as [H | H]; [discriminate | right; eauto].
Qed.

(** With a crop option on, a variant whose source decodes and whose crop
    is saved gets its entry. *)
Lemma image_map_has_cropped (cfg : V1.Settings) (saver : PIL.Saver) (fs : PIL.FileSystem)
    (variants : Py.Dict string (list (Bpy.Box * string * nat)))
    (name path : string) (vid : nat) (bounds : Bpy.Box)
    (vs : list (Bpy.Box * string * nat)) (im cropped : PIL.Image) :
  V1.crop_images cfg || V1.crop_per_border cfg = true ->
  (name, vs) ∈ variants -> (bounds, path, vid) ∈ vs -> fs !! path = Some (Some im) ->
  PIL.crop im (V1.clamp_box (PIL.size im).1 (PIL.size im).2 bounds) = Py.Ret cropped ->
  saver (Py.path_join (V1.directory cfg) (V1.variant_name name vid +:+ ".png")) cropped
    = true ->
  is_Some (Py.get (V1.image_map (V1.run_crops cfg saver fs variants)) (name, vid)).
Proof.
  intros Hon Hvs Hv Hsrc Hcrop Hsave. unfold V1.run_crops. rewrite Hon.
  apply merged_image_map. right.
  destruct (V1.clamp_box (PIL.size im).1 (PIL.size im).2 bounds)
    as [[[x0 y0] x1] y1] eqn:Hc.
  destruct (crop_task_decoded cfg saver fs name path vid im bounds _ _ _ _ Hsrc Hc)
    as (cropped' & Hcrop' & _ & Htask).
  rewrite Hcrop in Hcrop'. injection Hcrop' as <-. rewrite Hsave in Htask.
  eexists _, _, _. apply list_elem_of_fmap. exists (name, path, vid, bounds).
  split; [symmetry; exact Htask | apply elem_of_tasks_of; eauto].
Qed.

Lemma run_crops_keys (cfg : V1.Settings) (saver : PIL.Saver) (fs : PIL.FileSystem)
    (variants : Py.Dict string (list (Bpy.Box * string * nat))) :
  Py.keys (V1.image_map (V1.run_crops cfg saver fs variants))
    = Py.keys (V1.crop_bounds (V1.run_crops cfg saver fs variants)).
Proof.
  unfold V1.run_crops. destruct (V1.crop_images cfg || V1.crop_per_border cfg);
    [| reflexivity].
  apply (foldl_invariant
    (fun c => Py.keys (V1.image_map c) = Py.keys (V1.crop_bounds c))); [reflexivity |].
  intros c [[[[[n v] out] b] im] |] Hc; [| exact Hc].
  cbn [V1.merge_result V1.image_map V1.crop_bounds]. apply keys_setitem_both. exact Hc.
Qed.

(** X8: with a crop option on, a variant has an entry in [image_map]
    exactly when its source file exists and decodes and the save of its
    crop returns; the entry is [os.path.join] of the directory and
    [<name>_variant<N>.png], and [crop_bounds] has the same keys in the same
    order. *)
Theorem cropped_variants_are_those_saved (cfg : V1.Settings) (saver : PIL.Saver)
    (fs : PIL.FileSystem)
    (variants : Py.Dict string (list (Bpy.Box * string * nat))) :
  V1.crop_images cfg || V1.crop_per_border cfg = true ->
  (forall name vid,
     is_Some (Py.get (V1.image_map (V1.run_crops cfg saver fs variants)) (name, vid)) <->
     exists vs bounds path im cropped,
       (name, vs) ∈ variants /\ (bounds, path, vid) ∈ vs /\ fs !! path = Some (Some im) /\
       PIL.crop im (V1.clamp_box (PIL.size im).1 (PIL.size im).2 bounds) = Py.Ret cropped /\
       saver (Py.path_join (V1.directory cfg) (V1.variant_name name vid +:+ ".png"))
             cropped = true) /\
  (forall name vid out,
     Py.get (V1.image_map (V1.run_crops cfg saver fs variants)) (name, vid) = Some out ->
     out = Py.path_join (V1.directory cfg) (V1.variant_name name vid +:+ ".png")) /\
  Py.keys (V1.image_map (V1.run_crops cfg saver fs variants))
    = Py.keys (V1.crop_bounds (V1.run_crops cfg saver fs variants)).
Proof.
  intros Hon. split; [| split; [| apply run_crops_keys]].
  - intros name vid. split.
    + unfold V1.run_crops. rewrite Hon, merged_image_map. cbn [V1.image_map Py.get fst snd].
      intros [[x Hx] | (out & b & im' & Hin)]; [discriminate |].
      apply list_elem_of_fmap in Hin as ([[[n p] v] b0] & Hres & Htask).
      symmetry in Hres. destruct (crop_task_Some _ _ _ _ _ _ _ _ _ Hres)
        as (im & x0 & y0 & x1 & y1 & Hsrc & Hc & [= -> -> _ _] & _ & _ & _ & Hcrop & Hsave).
      apply elem_of_tasks_of in Htask as (vs & Hvs & Hv).
      exists vs, b0, p, im, im'. rewrite Hc. split_and!; assumption.
    + intros (vs & bounds & path & im & cropped & Hvs & Hv & Hsrc & Hcrop & Hsave).
      eapply image_map_has_cropped; eassumption.
  - intros name vid out. unfold V1.run_crops. rewrite Hon.
    apply (foldl_invariant_in
      (fun c => forall name vid out, Py.get (V1.image_map c) (name, vid) = Some out ->
         out = Py.path_join (V1.directory cfg) (V1.variant_name name vid +:+ ".png"))).
    + intros ? ? ?. discriminate.
    + intros c r Hin Hc n v o. destruct r as [[[[[n' v'] out'] b] im] |]; [| apply Hc].
      apply list_elem_of_fmap in Hin as ([[[n0 p0] v0] b0] & Hres & _).
      symmetry in Hres. destruct (crop_task_Some _ _ _ _ _ _ _ _ _ Hres)
        as (_ & x0 & y0 & x1 & y1 & _ & _ & [= -> -> -> _] & _).
      cbn [V1.merge_result V1.image_map].
      destruct (decide ((n0, v0) = (n, v))) as [[= <- <-] | Hne].
      * rewrite get_setitem_eq. congruence.
      * rewrite get_setitem_ne by exact Hne. apply Hc.
Qed.

Lemma cropped_variants_are_those_saved_witness :
  is_Some (Py.get (V1.image_map (V1.run_crops Scenes.cfg_face Scenes.saves Scenes.disk_A
                      [("A.png", [((0, 4, 4, 8), "/tex/A.png", 1%nat)]);
                       ("B.png", [((2, 0, 4, 2), "/tex/B.png", 1%nat)])]))
             ("A.png", 1%nat)) /\
  ~ is_Some (Py.get (V1.image_map (V1.run_crops Scenes.cfg_face Scenes.saves Scenes.disk_A
                      [("A.png", [((0, 4, 4, 8), "/tex/A.png", 1%nat)]);
                       ("B.png", [((2, 0, 4, 2), "/tex/B.png", 1%nat)])]))
               ("B.png", 1%nat)).
Proof.
  destruct (cropped_variants_are_those_saved Scenes.cfg_face Scenes.saves Scenes.disk_A
              [("A.png", [((0, 4, 4, 8), "/tex/A.png", 1%nat)]);
               ("B.png", [((2, 0, 4, 2), "/tex/B.png", 1%nat)])]) as (Hiff & _ & _);
    [reflexivity |].
  split.
  - apply Hiff. eexists _, _, _, _, _. split; [left |]. split; [left |].
    split; [vm_compute; reflexivity |]. split; reflexivity.
  - intros Hsome. vm_compute in Hsome. destruct Hsome as [x Hx]. discriminate.
Defined.

(** With a source that decodes but a host that refuses the save, the
    variant gets no entry. *)
Example unsaved_crop_has_no_entry :
  V1.image_map (V1.run_crops Scenes.cfg_face (fun _ _ => false) Scenes.disk_AB
                  [("A.png", [((0, 4, 4, 8), "/tex/A.png", 1%nat)])]) = [].
Proof. vm_compute. reflexivity. Qed.



Lemma mapM_length {A B} (f : A -> Py.Exc B) (l : list A) (l' : list B) :
  mapM f l = Py.Ret l' -> length l' = length l.
Proof.
  revert l'. induction l as [| x l IH]; intros l'.
  - intros [= <-]. reflexivity.
  - cbn [mapM]. destruct (f x) as [y | e]; [| discriminate].
    cbn [mbind Py.exc_bind Py.bind]. destruct (mapM f l) as [k | e]; [| discriminate].
    cbn [mbind mret Py.exc_bind Py.exc_ret Py.bind]. intros [= <-].
    simpl. f_equal. apply IH. reflexivity.
Qed.

Lemma div_int_nonzero (a : float) (n : Z) :
  n <> 0 -> V1.div_int a n = Py.Ret (PrimFloat.div a (Py.float_of_int n)).
Proof. intros Hn. unfold V1.div_int. rewrite decide_False by exact Hn. reflexivity. Qed.

Lemma place_in_crop_returns (ow oh x0 y0 x1 y1 : Z) (uvs : list Bpy.UV) :
  x0 < x1 -> y0 < y1 ->
  exists uvs', V1.place_in_crop ow oh (x0, y0, x1, y1) uvs = Py.Ret uvs' /\
               length uvs' = length uvs.
Proof.
  intros Hx Hy. unfold V1.place_in_crop.
  induction uvs as [| uv uvs (uvs' & IH & Hlen)]; [exists []; auto |].
  cbn [mapM]. rewrite !div_int_nonzero by lia.
  cbn [mbind mret Py.exc_bind Py.exc_ret Py.bind].
  rewrite IH. cbn [mbind mret Py.exc_bind Py.exc_ret Py.bind].
  eexists. split; [reflexivity |]. simpl. rewrite Hlen. reflexivity.
Qed.

(** Every box the crop pool recorded has positive width and height and
    starts at or after the origin. *)
Lemma crop_bounds_positive (cfg : V1.Settings) (saver : PIL.Saver) (fs : PIL.FileSystem)
    (variants : Py.Dict string (list (Bpy.Box * string * nat)))
    (k : string * nat) (x0 y0 x1 y1 : Z) :
  (k, (x0, y0, x1, y1)) ∈ V1.crop_bounds (V1.run_crops cfg saver fs variants) ->
  0 <= x0 < x1 /\ 0 <= y0 < y1.
Proof.
  unfold V1.run_crops. destruct (V1.crop_images cfg || V1.crop_per_border cfg);
    [| cbn [V1.crop_bounds]; intros Hin; exfalso; eapply not_elem_of_nil; exact Hin].
  apply (foldl_invariant_in
    (fun c => (k, (x0, y0, x1, y1)) ∈ V1.crop_bounds c -> 0 <= x0 < x1 /\ 0 <= y0 < y1)).
  - cbn [V1.crop_bounds]. intros Hin. exfalso. eapply not_elem_of_nil. exact Hin.
  - intros c r Hin Hc. destruct r as [[[[[n v] out] b] im] |]; [| exact Hc].
    apply list_elem_of_fmap in Hin as ([[[n0 p0] v0] b0] & Hres & _).
    symmetry in Hres. destruct (crop_task_Some _ _ _ _ _ _ _ _ _ Hres)
      as (_ & cx0 & cy0 & cx1 & cy1 & _ & _ & [= -> -> -> ->] & _ & Hx & Hy & _).
    cbn [V1.merge_result V1.crop_bounds]. intros Hk.
    apply elem_of_setitem in Hk as [[= _ -> -> -> ->] | Hk]; [| exact (Hc Hk)].
    split; [exact Hx | exact Hy].
Qed.

(** Every path the crop pool recorded names a file that decodes to an
    image of positive size. *)
Lemma image_files_exist (cfg : V1.Settings) (saver : PIL.Saver) (fs : PIL.FileSystem)
    (variants : Py.Dict string (list (Bpy.Box * string * nat)))
    (k : string * nat) (out : string) :
  (k, out) ∈ V1.image_map (V1.run_crops cfg saver fs variants) ->
  exists im,
    V1.files (V1.run_crops cfg saver fs variants) !! out = Some (Some im) /\
    0 < (PIL.size im).1 /\ 0 < (PIL.size im).2.
Proof.
  unfold V1.run_crops. destruct (V1.crop_images cfg || V1.crop_per_border cfg);
    [| cbn [V1.image_map]; intros Hin; exfalso; eapply not_elem_of_nil; exact Hin].
  revert k out.
  apply (foldl_invariant_in
    (fun c => forall (k : string * nat) (out : string), (k, out) ∈ V1.image_map c ->
       exists im, V1.files c !! out = Some (Some im) /\
                  0 < (PIL.size im).1 /\ 0 < (PIL.size im).2)).
  - cbn [V1.image_map]. intros k out Hin. exfalso. eapply not_elem_of_nil. exact Hin.
  - intros c r Hin Hc k out. destruct r as [[[[[n v] out'] b] im] |]; [| apply Hc].
    apply list_elem_of_fmap in Hin as ([[[n0 p0] v0] b0] & Hres & _).
    symmetry in Hres. destruct (crop_task_Some _ _ _ _ _ _ _ _ _ Hres)
      as (_ & cx0 & cy0 & cx1 & cy1 & _ & _ & _ & Hsz & Hx & Hy & _).
    cbn [V1.merge_result V1.image_map V1.files]. intros Hk.
    destruct (decide (out' = out)) as [<- | Hne].
    + exists im. split; [apply lookup_insert_eq |]. rewrite Hsz. simpl. lia.
    + apply elem_of_setitem in Hk as [[= _ ->] | Hk]; [congruence |].
      destruct (Hc _ _ Hk) as (im' & Hf & Hpos). exists im'. split; [| exact Hpos].
      etransitivity; [apply lookup_insert_ne; assumption | exact Hf].
Qed.

(** X10: whatever the crop pool recorded can be used by the remap. Every
    box in [crop_bounds] has positive width and height and starts at or
    after the origin, so placing UVs inside it never divides by zero; and
    every path in [image_map] names a file that decodes to an image of
    positive size, so loading it for the material never fails. *)
Theorem crop_results_are_usable (cfg : V1.Settings) (saver : PIL.Saver) (fs : PIL.FileSystem)
    (variants : Py.Dict string (list (Bpy.Box * string * nat))) :
  (forall k x0 y0 x1 y1,
     (k, (x0, y0, x1, y1)) ∈ V1.crop_bounds (V1.run_crops cfg saver fs variants) ->
     0 <= x0 < x1 /\ 0 <= y0 < y1 /\
     forall ow oh uvs,
       exists uvs', V1.place_in_crop ow oh (x0, y0, x1, y1) uvs = Py.Ret uvs' /\
                    length uvs' = length uvs) /\
  (forall k out,
     (k, out) ∈ V1.image_map (V1.run_crops cfg saver fs variants) ->
     exists im,
       V1.files (V1.run_crops cfg saver fs variants) !! out = Some (Some im) /\
       0 < (PIL.size im).1 /\ 0 < (PIL.size im).2 /\
       V1.load_image (V1.files (V1.run_crops cfg saver fs variants)) out =
         Py.Ret {| Bpy.img_name := Bpy.basename out; Bpy.img_filepath := out;
                   Bpy.img_size := PIL.size im |}).
Proof.
  split.
  - intros k x0 y0 x1 y1 Hin.
    destruct (crop_bounds_positive _ _ _ _ _ _ _ _ _ Hin) as [Hx Hy].
    split; [exact Hx |]. split; [exact Hy |]. intros ow oh uvs.
    apply place_in_crop_returns; lia.
  - intros k out Hin. destruct (image_files_exist _ _ _ _ _ _ Hin) as (im & Hf & Hw & Hh).
    exists im. split_and!; try assumption. unfold V1.load_image. rewrite Hf. reflexivity.
Qed.

(** ** Material slots *)

Lemma find_range (slots : list (option Bpy.Material)) (name : string) :
  -1 <= V1.find slots name < Z.of_nat (length slots).
Proof.
  induction slots as [| m slots IH]; simpl; [lia |].
  destruct (decide (Bpy.mat_name <$> m = Some name)); [lia |].
  destruct (decide (V1.find slots name = -1)); lia.
Qed.

Lemma find_absent (slots : list (option Bpy.Material)) (name : string) :
  V1.find slots name = -1 <-> Some name ∉ slot_names slots.
Proof.
  unfold slot_names. induction slots as [| m slots IH]; cbn [V1.find].
  - split; [intros _; apply not_elem_of_nil | reflexivity].
  - rewrite fmap_cons, not_elem_of_cons.
    destruct (decide (Bpy.mat_name <$> m = Some name)) as [Heq | Hne].
    + split; [discriminate | intros [Hn _]; congruence].
    + pose proof (find_range slots name).
      destruct (decide (V1.find slots name = -1)) as [Hf | Hf].
      * split; [intros _; split; [congruence | apply IH; exact Hf] | reflexivity].
      * split; [lia | intros [_ Hn]; apply IH in Hn; contradiction].
Qed.

Lemma find_lookup (slots : list (option Bpy.Material)) (name : string) :
  V1.find slots name <> -1 ->
  exists m, slots !! Z.to_nat (V1.find slots name) = Some (Some m) /\
    Bpy.mat_name m = name /\
    forall j m', (j < Z.to_nat (V1.find slots name))%nat -> slots !! j = Some (Some m') ->
                 Bpy.mat_name m' <> name.
Proof.
  induction slots as [| s slots IH]; simpl; [congruence |].
  destruct (decide (Bpy.mat_name <$> s = Some name)) as [Heq | Hne].
  - intros _. destruct s as [m |]; [| discriminate]. injection Heq as Heq.
    exists m. split_and!; [reflexivity | exact Heq | intros; lia].
  - pose proof (find_range slots name).
    destruct (decide (V1.find slots name = -1)) as [Hf | Hf]; [congruence |].
    intros _. destruct (IH Hf) as (m0 & Hm0 & Hn0 & Hfirst). exists m0.
    replace (Z.to_nat (V1.find slots name + 1)) with (S (Z.to_nat (V1.find slots name)))
      by lia.
    split_and!; [exact Hm0 | exact Hn0 |].
    intros [| j] m' Hj; simpl; [intros [= ->] Hn; apply Hne; simpl; congruence |].
    apply Hfirst. lia.
Qed.

Lemma find_app_l (slots more : list (option Bpy.Material)) (name : string) :
  V1.find slots name <> -1 -> V1.find (slots ++ more) name = V1.find slots name.
Proof.
  induction slots as [| m slots IH]; simpl; [congruence |].
  destruct (decide (Bpy.mat_name <$> m = Some name)); [reflexivity |].
  destruct (decide (V1.find slots name = -1)) as [Hf | Hf]; [congruence |].
  intros _. rewrite (IH Hf). rewrite decide_False by exact Hf. reflexivity.
Qed.

Lemma add_slots_cons (slots : list (option Bpy.Material)) (k : string) (m : Bpy.Material)
    (mats : Py.Dict string Bpy.Material) :
  V1.add_slots slots ((k, m) :: mats) =
    V1.add_slots (if decide (V1.find slots k = -1) then slots ++ [Some m] else slots) mats.
Proof. reflexivity. Qed.

Lemma add_slots_prefix (slots : list (option Bpy.Material))
    (mats : Py.Dict string Bpy.Material) :
  exists added, V1.add_slots slots mats = slots ++ (Some <$> added).
Proof.
  revert slots. induction mats as [| [k m] mats IH]; intros slots.
  - exists []. rewrite app_nil_r. reflexivity.
  - rewrite add_slots_cons. destruct (decide (V1.find slots k = -1)).
    + destruct (IH (slots ++ [Some m])) as [added ->]. exists (m :: added).
      rewrite <- app_assoc. reflexivity.
    + apply IH.
Qed.

Lemma add_slots_found (slots : list (option Bpy.Material))
    (mats : Py.Dict string Bpy.Material) (k : string) :
  well_named mats -> k ∈ Py.keys mats -> V1.find (V1.add_slots slots mats) k <> -1.
Proof.
  unfold well_named, Py.keys. revert slots.
  induction mats as [| [k0 m] mats IH]; intros slots Hnamed Hk.
  - apply not_elem_of_nil in Hk. contradiction.
  - apply Forall_cons in Hnamed as [Hm Hnamed]. simpl in Hm. rewrite add_slots_cons.
    destruct (decide (k ∈ mats.*1)) as [Hin | Hnin]; [apply IH; assumption |].
    rewrite fmap_cons in Hk. apply elem_of_cons in Hk as [-> | Hk]; [| contradiction].
    simpl.
    set (slots1 := if decide (V1.find slots k0 = -1) then slots ++ [Some m] else slots).
    assert (Hfound : V1.find slots1 k0 <> -1).
    { subst slots1. destruct (decide (V1.find slots k0 = -1)) as [Hf | Hf]; [| exact Hf].
      rewrite find_absent. unfold slot_names. rewrite fmap_app. intros Hn. apply Hn.
      apply elem_of_app. right. simpl. rewrite Hm. left. }
    destruct (add_slots_prefix slots1 mats) as [added ->].
    rewrite find_app_l; assumption.
Qed.

(** X11: the slot loop of the remap only appends, and what it appends are
    filled slots. The slots the object had keep their places, so a name
    that had a slot keeps its index; and afterwards every material of
    [mats] has a slot, [find] returning the first slot that holds a
    material of that name, while a name without a slot gives -1. *)
Theorem slots_are_appended_and_found (slots : list (option Bpy.Material))
    (mats : Py.Dict string Bpy.Material) :
  well_named mats ->
  (exists added, V1.add_slots slots mats = slots ++ (Some <$> added)) /\
  (forall name, Some name ∈ slot_names slots ->
     V1.find (V1.add_slots slots mats) name = V1.find slots name) /\
  (forall k, k ∈ Py.keys mats ->
     exists m,
       0 <= V1.find (V1.add_slots slots mats) k /\
       V1.add_slots slots mats !! Z.to_nat (V1.find (V1.add_slots slots mats) k)
         = Some (Some m) /\
       Bpy.mat_name m = k /\
       forall j m', (j < Z.to_nat (V1.find (V1.add_slots slots mats) k))%nat ->
         V1.add_slots slots mats !! j = Some (Some m') -> Bpy.mat_name m' <> k) /\
  (forall name, V1.find (V1.add_slots slots mats) name = -1 <->
     Some name ∉ slot_names (V1.add_slots slots mats)).
Proof.
  intros Hnamed. split; [apply add_slots_prefix |]. split; [| split].
  - intros name Hin. destruct (add_slots_prefix slots mats) as [added ->].
    apply find_app_l. rewrite find_absent. tauto.
  - intros k Hk. pose proof (add_slots_found slots mats k Hnamed Hk) as Hf.
    destruct (find_lookup _ _ Hf) as (m & Hm & Hn & Hfirst).
    pose proof (find_range (V1.add_slots slots mats) k).
    exists m. split_and!; [lia | exact Hm | exact Hn | exact Hfirst].
  - intros name. apply find_absent.
Qed.

Lemma slots_are_appended_and_found_witness :
  exists m,
    V1.add_slots [Some Scenes.matA; None]
      [("A.png_variant1", V1.new_material "A.png_variant1")]
      !! 2%nat = Some (Some m) /\ Bpy.mat_name m = "A.png_variant1".
Proof.
  destruct (slots_are_appended_and_found [Some Scenes.matA; None]
              [("A.png_variant1", V1.new_material "A.png_variant1")]) as (_ & _ & Hk & _).
  - constructor; [reflexivity | constructor].
  - destruct (Hk "A.png_variant1") as (m & _ & Hm & Hn & _); [left |].
    exists m. split; [exact Hm | exact Hn].
Defined.
(** ** The remap keeps the mesh *)

(** One step through a sequence of binds that is known to return. *)
Tactic Notation "bind_step" hyp(H) "as" simple_intropattern(p) :=
  match type of H with
  | (?m ≫= _) = Py.Ret _ =>
      destruct m as [p | ?] eqn:?;
        [cbn [mbind mret Py.exc_bind Py.exc_ret Py.bind] in H | discriminate H]
  end.

Lemma same_shape_refl (fs : list Bpy.BMFace) : same_shape fs fs.
Proof. apply Forall2_same_length_lookup. split; [reflexivity |]. intros i f f' -> [= ->]. auto. Qed.

Lemma same_shape_trans (fs1 fs2 fs3 : list Bpy.BMFace) :
  same_shape fs1 fs2 -> same_shape fs2 fs3 -> same_shape fs1 fs3.
Proof.
  unfold same_shape. intros H12 H23. revert fs3 H23.
  induction H12 as [| f1 f2 fs1 fs2 (? & ? & ?) _ IH]; intros fs3 H23;
    inversion H23 as [| ? f3 ? fs3' (? & ? & ?) H23']; subst; constructor.
  - split_and!; congruence.
  - apply IH. exact H23'.
Qed.

Lemma same_shape_insert (fs : list Bpy.BMFace) (i : nat) (f f' : Bpy.BMFace) :
  fs !! i = Some f ->
  Bpy.index f' = Bpy.index f -> Bpy.edges f' = Bpy.edges f ->
  length (Bpy.loops f') = length (Bpy.loops f) ->
  same_shape fs (<[i := f']> fs).
Proof.
  intros Hi ? ? ?. apply Forall2_same_length_lookup. split; [rewrite length_insert; reflexivity |].
  intros j g g' Hg Hg'. destruct (decide (i = j)) as [<- | Hne].
  - rewrite list_lookup_insert_eq in Hg' by (eapply lookup_lt_Some; exact Hi).
    injection Hg' as <-. rewrite Hi in Hg. injection Hg as <-. auto.
  - rewrite list_lookup_insert_ne in Hg' by exact Hne. rewrite Hg in Hg'.
    injection Hg' as <-. auto.
Qed.

Lemma fill_own_extent_length (uvs uvs' : list Bpy.UV) :
  V1.fill_own_extent uvs = Py.Ret uvs' -> length uvs' = length uvs.
Proof.
  unfold V1.fill_own_extent. intros H. bind_step H as min_u. bind_step H as max_u.
  bind_step H as min_v. bind_step H as max_v.
  destruct (_ && _) in H; injection H as <-; [apply length_fmap | reflexivity].
Qed.

Lemma remap_face_shape (cfg : V1.Settings)
    (variants : Py.Dict string (list (Bpy.Box * string * nat)))
    (sizes : Py.Dict string (Z * Z)) (c : V1.Crops) (mat_index_map : Py.Dict string Z)
    (fcs fcs' : list Bpy.BMFace) (a : V1.Assignment) :
  V1.remap_face cfg variants sizes c mat_index_map fcs a = Py.Ret fcs' ->
  same_shape fcs fcs' /\ forall j, j <> a.1.1 -> fcs' !! j = fcs !! j.
Proof.
  destruct a as [[face_idx name] bounds]. unfold V1.remap_face. intros H.
  destruct (fcs !! face_idx) as [face |] eqn:Hface; [| discriminate H].
  cbn [Py.of_option mbind Py.exc_bind Py.bind] in H.
  bind_step H as vs. bind_step H as vid. bind_step H as mi. bind_step H as [ow oh].
  destruct (if V1.crop_per_border cfg then _ else _) as [uvs | e] eqn:Huvs;
    [| discriminate H].
  cbn [mbind mret Py.exc_bind Py.exc_ret Py.bind] in H. injection H as <-.
  assert (Hlen : length uvs = length (Bpy.loops face)).
  { destruct (V1.crop_per_border cfg);
      [destruct (Py.get (V1.crop_bounds c) (name, vid)) as [[[[x0 y0] x1] y1] |] |];
      first [exact (fill_own_extent_length _ _ Huvs) | exact (mapM_length _ _ _ Huvs)]. }
  split; [apply (same_shape_insert _ _ face); auto |].
  intros j Hj. apply list_lookup_insert_ne. cbn [fst snd] in Hj. congruence.
Qed.

(** X12: a remap of an object that returns has only rewritten UVs and
    material indices and appended material slots. The object keeps its
    name, its type and its UV layer; the faces keep their order, their
    indices, their edges and their numbers of loops; a face that has no
    assignment is untouched; and the material slots it had stay in place, the new
    ones being filled slots after them. *)
Theorem remap_keeps_the_mesh (cfg : V1.Settings)
    (variants : Py.Dict string (list (Bpy.Box * string * nat)))
    (sizes : Py.Dict string (Z * Z)) (c : V1.Crops)
    (fmap : Py.Dict string (list V1.Assignment))
    (store store' : Py.Dict string Bpy.Material) (obj obj' : Bpy.Object) :
  V1.remap_object cfg variants sizes c fmap store obj = Py.Ret (store', obj') ->
  Bpy.obj_name obj' = Bpy.obj_name obj /\ Bpy.obj_type obj' = Bpy.obj_type obj /\
  Bpy.uv_layer obj' = Bpy.uv_layer obj /\
  same_shape (Bpy.faces (Bpy.bm obj)) (Bpy.faces (Bpy.bm obj')) /\
  (forall j,
     j ∉ (fun a => a.1.1) <$> default [] (Py.get fmap (Bpy.obj_name obj)) ->
     Bpy.faces (Bpy.bm obj') !! j = Bpy.faces (Bpy.bm obj) !! j) /\
  exists added, Bpy.materials obj' = Bpy.materials obj ++ (Some <$> added).
Proof.
  unfold V1.remap_object.
  destruct (V1.remap_model cfg && bool_decide (V1.image_map c <> [])).
  - intros H. bind_step H as [store1 mats].
    set (slots := V1.add_slots (Bpy.materials obj) mats) in *.
    set (mim := (fun '(name, _) => (name, V1.find slots name)) <$> mats) in *.
    destruct (Py.for_each (V1.remap_face cfg variants sizes c mim) _ _) as [fcs | e] eqn:Hfcs;
      [| discriminate H].
    cbn [mbind mret Py.exc_bind Py.exc_ret Py.bind] in H. injection H as <- <-.
    cbn [Bpy.obj_name Bpy.obj_type Bpy.uv_layer Bpy.bm Bpy.faces Bpy.materials].
    do 3 (split; [reflexivity |]).
    assert (Hinv : same_shape (Bpy.faces (Bpy.bm obj)) fcs /\
      forall j, j ∉ (fun a : V1.Assignment => a.1.1) <$> default [] (Py.get fmap (Bpy.obj_name obj)) ->
                fcs !! j = Bpy.faces (Bpy.bm obj) !! j).
    { revert Hfcs. generalize (default [] (Py.get fmap (Bpy.obj_name obj))).
      generalize (Bpy.faces (Bpy.bm obj)). intros fcs0 asg. revert fcs0.
      induction asg as [| a asg IH]; intros fcs0.
      - simpl. intros [= <-]. split; [apply same_shape_refl | reflexivity].
      - cbn [Py.for_each]. intros H.
        destruct (V1.remap_face cfg variants sizes c mim fcs0 a) as [fcs1 | e] eqn:E;
          [| discriminate H].
        cbn [mbind Py.exc_bind Py.bind] in H.
        destruct (remap_face_shape _ _ _ _ _ _ _ _ E) as [Hs Hother].
        destruct (IH _ H) as [Hs' Hother']. split; [eapply same_shape_trans; eassumption |].
        intros j Hj. rewrite fmap_cons, not_elem_of_cons in Hj. destruct Hj as [Hj1 Hj2].
        rewrite (Hother' j Hj2). apply Hother. exact Hj1. }
    destruct Hinv as [Hs Hother]. split; [exact Hs |]. split; [exact Hother |].
    apply add_slots_prefix.
  - intros [= <- <-]. do 3 (split; [reflexivity |]).
    split; [apply same_shape_refl |]. split; [reflexivity |].
    exists []. rewrite app_nil_r. reflexivity.
Qed.

Lemma remap_keeps_the_mesh_witness :
  match V1.remap_object Scenes.cfg_face
          [("T.png", [((0, 96, 512, 128), "/tex/T.png", 1%nat)])] [("T.png", (1024, 128))]
          (V1.run_crops Scenes.cfg_face Scenes.saves Scenes.disk_T
             [("T.png", [((0, 96, 512, 128), "/tex/T.png", 1%nat)])])
          [("Strip", [(0%nat, "T.png", (0, 96, 512, 128))])] [] Scenes.strip with
  | Py.Ret (_, obj') =>
      same_shape (Bpy.faces (Bpy.bm Scenes.strip)) (Bpy.faces (Bpy.bm obj')) /\
      Bpy.material_index <$> Bpy.faces (Bpy.bm obj') = [1%nat] /\
      exists added, Bpy.materials obj' = Bpy.materials Scenes.strip ++ (Some <$> added)
  | Py.Raise _ => False
  end.
Proof.
  destruct (V1.remap_object Scenes.cfg_face _ _ _ _ [] Scenes.strip)
    as [[store' obj'] | e] eqn:Hrun; [| vm_compute in Hrun; discriminate].
  destruct (remap_keeps_the_mesh _ _ _ _ _ _ _ _ _ Hrun) as (_ & _ & _ & Hs & _ & Hm).
  split; [exact Hs |]. split; [| exact Hm].
  vm_compute in Hrun. injection Hrun as _ <-. reflexivity.
Defined.

(** ** The remap loop of the older script *)

Lemma legacy_fill_uvs_length (uvs uvs' : list Bpy.UV) :
  Legacy.fill_uvs uvs = Py.Ret uvs' -> length uvs' = length uvs.
Proof.
  unfold Legacy.fill_uvs. intros H. bind_step H as min_u. bind_step H as max_u.
  bind_step H as min_v. bind_step H as max_v.
  destruct (_ && _) in H; injection H as <-; [apply length_fmap | reflexivity].
Qed.

Lemma zip_seq_snoc {A} (l : list A) (x : A) (a n : nat) :
  n = length l ->
  zip (l ++ [x]) (seq a (n + 1)) = zip l (seq a n) ++ [(x, (a + n)%nat)].
Proof.
  intros ->. rewrite Nat.add_1_r, seq_S.
  rewrite zip_with_app by (rewrite length_seq; reflexivity). reflexivity.
Qed.

Lemma legacy_remap_face_step (fs : PIL.FileSystem)
    (imap : Py.Dict (string * nat) (string * string)) (slots0 : list (option Bpy.Material))
    (st st' : Legacy.Remap) (a : nat * string * nat * Bpy.Box) :
  lookup_matches_slots slots0 st ->
  Legacy.remap_face fs imap st a = Py.Ret st' ->
  lookup_matches_slots slots0 st' /\
  same_shape (Legacy.r_faces st) (Legacy.r_faces st') /\
  Legacy.r_reports st' = Legacy.r_reports st /\
  (forall j, j <> a.1.1.1 -> Legacy.r_faces st' !! j = Legacy.r_faces st !! j) /\
  (st' = st \/
   exists i face',
     Py.get (Legacy.mat_lookup st') (Legacy.variant_name a.1.1.2 a.1.2) = Some i /\
     Legacy.r_faces st' !! a.1.1.1 = Some face' /\ Bpy.material_index face' = i).
Proof.
  intros Hinv. destruct a as [[[face_idx name] variant] bounds]. unfold Legacy.remap_face.
  assert (Hsame : lookup_matches_slots slots0 st /\
    same_shape (Legacy.r_faces st) (Legacy.r_faces st) /\
    Legacy.r_reports st = Legacy.r_reports st /\
    (forall j, j <> (face_idx, name, variant, bounds).1.1.1 ->
       Legacy.r_faces st !! j = Legacy.r_faces st !! j) /\
    (st = st \/
     exists i face',
       Py.get (Legacy.mat_lookup st)
         (Legacy.variant_name (face_idx, name, variant, bounds).1.1.2
            (face_idx, name, variant, bounds).1.2) = Some i /\
       Legacy.r_faces st !! (face_idx, name, variant, bounds).1.1.1 = Some face' /\
       Bpy.material_index face' = i)).
  { split_and!; auto. apply same_shape_refl. }
  destruct (Py.get imap (name, variant)) as [[image_path image_filename] |];
    [| intros [= <-]; exact Hsame].
  destruct (decide (image_path = "")); [intros [= <-]; exact Hsame |].
  clear Hsame. intros H. bind_step H as image.
  set (key := Legacy.variant_name name variant) in *.
  destruct Hinv as (added & Hslots & Hlookup & Hnd).
  destruct (Py.get (Legacy.mat_lookup st) key) as [i0 |] eqn:Hkey.
  - rewrite Hkey in H. cbn [Py.of_option mbind Py.exc_bind Py.bind] in H.
    destruct (Legacy.r_faces st !! face_idx) as [face |] eqn:Hface; [| discriminate H].
    cbn [Py.of_option mbind Py.exc_bind Py.bind] in H. bind_step H as uvs.
    injection H as <-. cbn [Legacy.mat_lookup Legacy.slots Legacy.r_faces Legacy.r_reports fst snd].
    split; [exists added; auto |].
    split; [apply (same_shape_insert _ _ face); auto; eapply legacy_fill_uvs_length; eassumption |].
    split; [reflexivity |].
    split; [intros j Hj; apply list_lookup_insert_ne; congruence |].
    right. eexists _, _. split; [exact Hkey |].
    split; [apply list_lookup_insert_eq; eapply lookup_lt_Some; exact Hface | reflexivity].
  - rewrite get_setitem_eq in H. cbn [Py.of_option mbind Py.exc_bind Py.bind] in H.
    destruct (Legacy.r_faces st !! face_idx) as [face |] eqn:Hface; [| discriminate H].
    cbn [Py.of_option mbind Py.exc_bind Py.bind] in H. bind_step H as uvs.
    injection H as <-. cbn [Legacy.mat_lookup Legacy.slots Legacy.r_faces Legacy.r_reports fst snd].
    assert (Hnew : key ∉ Bpy.mat_name <$> added).
    { apply get_None_keys in Hkey. rewrite Hlookup in Hkey. unfold Py.keys in Hkey.
      rewrite fst_zip in Hkey by (rewrite length_seq, length_fmap; reflexivity). exact Hkey. }
    split.
    { eexists (added ++ [_]). cbn [Legacy.mat_lookup Legacy.slots].
      rewrite Hslots, fmap_app, <- app_assoc. split; [reflexivity |].
      rewrite keys_setitem_absent by (apply get_None_keys; exact Hkey).
      rewrite Hlookup, fmap_app, !length_app. cbn [length fmap list_fmap Bpy.mat_name].
      rewrite (zip_seq_snoc _ _ _ (length added)) by (rewrite length_fmap; reflexivity).
      split; [do 3 f_equal; rewrite ?length_fmap; lia |].
      apply NoDup_app. split; [exact Hnd |]. split; [| apply NoDup_singleton].
      intros x Hx Hx'. apply list_elem_of_singleton in Hx'. subst x. contradiction. }
    split; [apply (same_shape_insert _ _ face); auto; eapply legacy_fill_uvs_length; eassumption |].
    split; [reflexivity |].
    split; [intros j Hj; apply list_lookup_insert_ne; congruence |].
    right. eexists _, _. split; [apply get_setitem_eq |].
    split; [apply list_lookup_insert_eq; eapply lookup_lt_Some; exact Hface | reflexivity].
Qed.

Lemma legacy_remap_never_keyerror (fs : PIL.FileSystem)
    (imap : Py.Dict (string * nat) (string * string)) (st : Legacy.Remap)
    (a : nat * string * nat * Bpy.Box) :
  Legacy.remap_face fs imap st a <> Py.Raise Py.KeyError.
Proof.
  destruct a as [[[face_idx name] variant] bounds]. unfold Legacy.remap_face.
  destruct (Py.get imap (name, variant)) as [[image_path image_filename] |]; [| discriminate].
  destruct (decide (image_path = "")); [discriminate |].
  unfold Legacy.load_image. destruct (fs !! image_path) as [[im |] |]; try discriminate.
  cbn [mbind mret Py.exc_bind Py.exc_ret Py.bind].
  assert (Hrest : forall lookup slots' mat_index,
    (face ← Py.of_option Py.IndexError (Legacy.r_faces st !! face_idx);
     uvs ← Legacy.fill_uvs (Bpy.loops face);
     mret {| Legacy.mat_lookup := lookup; Legacy.slots := slots';
             Legacy.r_faces :=
               <[face_idx := {| Bpy.index := Bpy.index face; Bpy.material_index := mat_index;
                                Bpy.loops := uvs; Bpy.edges := Bpy.edges face |}]>
                 (Legacy.r_faces st);
             Legacy.r_reports := Legacy.r_reports st |}) <> Py.Raise Py.KeyError).
  { intros lookup slots' mat_index.
    destruct (Legacy.r_faces st !! face_idx) as [face |]; [| discriminate].
    cbn [Py.of_option mbind Py.exc_bind Py.bind]. unfold Legacy.fill_uvs.
    destruct (Bpy.loops face) as [| uv uvs]; [discriminate |].
    cbn [fmap list_fmap Py.min Py.max mbind mret Py.exc_bind Py.exc_ret Py.bind].
    destruct (_ && _); discriminate. }
  destruct (Py.get (Legacy.mat_lookup st) (Legacy.variant_name name variant)) as [i |] eqn:Hkey.
  - rewrite Hkey. apply Hrest.
  - rewrite get_setitem_eq. apply Hrest.
Qed.

(** X13: the remap loop of the older script, started with an empty
    [mat_lookup], gives every remapped variant one material of its own:
    the object's slots only grow, by filled slots whose materials have
    distinct names, and
    [mat_lookup] maps each such name to the slot the material was appended
    at, so the lookup of the material index never raises [KeyError]. The
    faces keep their order, indices, edges and numbers of loops, and
    nothing is reported. *)
Theorem legacy_remap_gives_each_variant_one_slot (fs : PIL.FileSystem)
    (imap : Py.Dict (string * nat) (string * string))
    (assignments : list (nat * string * nat * Bpy.Box)) (start r : Legacy.Remap) :
  Legacy.mat_lookup start = [] ->
  Py.for_each (Legacy.remap_face fs imap) assignments start = Py.Ret r ->
  lookup_matches_slots (Legacy.slots start) r /\
  (forall k i, Py.get (Legacy.mat_lookup r) k = Some i ->
     exists m, Legacy.slots r !! i = Some (Some m) /\ Bpy.mat_name m = k /\
               (length (Legacy.slots start) <= i)%nat) /\
  same_shape (Legacy.r_faces start) (Legacy.r_faces r) /\
  Legacy.r_reports r = Legacy.r_reports start /\
  (forall st a, Legacy.remap_face fs imap st a <> Py.Raise Py.KeyError).
Proof.
  intros Hempty Hrun.
  assert (Hinv : lookup_matches_slots (Legacy.slots start) r /\
                 same_shape (Legacy.r_faces start) (Legacy.r_faces r) /\
                 Legacy.r_reports r = Legacy.r_reports start).
  { eapply (for_each_invariant
      (fun st => lookup_matches_slots (Legacy.slots start) st /\
                 same_shape (Legacy.r_faces start) (Legacy.r_faces st) /\
                 Legacy.r_reports st = Legacy.r_reports start)); [| | exact Hrun].
    - split; [| split; [apply same_shape_refl | reflexivity]].
      exists []. rewrite app_nil_r, Hempty. split_and!; [reflexivity | reflexivity | constructor].
    - intros s a s' (Hl & Hs & Hr) Hstep.
      destruct (legacy_remap_face_step _ _ _ _ _ _ Hl Hstep) as (Hl' & Hs' & Hr' & _).
      split; [exact Hl' |]. split; [eapply same_shape_trans; eassumption | congruence]. }
  destruct Hinv as (Hl & Hs & Hr). split; [exact Hl |].
  split; [| split; [exact Hs | split; [exact Hr | apply legacy_remap_never_keyerror]]].
  intros k i Hget. destruct Hl as (added & Hslots & Hlookup & _).
  apply get_Some_elem_of in Hget. rewrite Hlookup in Hget.
  apply list_elem_of_lookup in Hget as [j Hj].
  apply lookup_zip_with_Some in Hj as (k' & i' & [= <- <-] & Hk & Hi).
  apply lookup_seq in Hi as [-> Hlt].
  rewrite list_lookup_fmap in Hk. destruct (added !! j) as [m |] eqn:Hm; [| discriminate].
  injection Hk as <-. exists m. split; [| split; [reflexivity | lia]].
  rewrite Hslots, lookup_app_r by lia.
  replace (length (Legacy.slots start) + j - length (Legacy.slots start))%nat with j by lia.
  rewrite list_lookup_fmap, Hm. reflexivity.
Qed.

Lemma legacy_remap_gives_each_variant_one_slot_witness :
  match Py.for_each
          (Legacy.remap_face
             (<["/out/A.png_variant1.png" := Some (Scenes.blank 4 4)]> Scenes.disk_AB)
             [(("A.png", 1%nat), ("/out/A.png_variant1.png", "A.png_variant1.png"))])
          [(0%nat, "A.png", 1%nat, (0, 4, 4, 8)); (1%nat, "B.png", 1%nat, (2, 0, 4, 2))]
          (Legacy.mkRemap [] (Bpy.materials Scenes.cube) (Bpy.faces (Bpy.bm Scenes.cube)) [])
  with
  | Py.Ret r =>
      Legacy.mat_lookup r = [("A.png_variant1", 3%nat)] /\
      exists m, Legacy.slots r !! 3%nat = Some (Some m) /\ Bpy.mat_name m = "A.png_variant1"
  | Py.Raise _ => False
  end.
Proof.
  destruct (Py.for_each _ _ (Legacy.mkRemap [] _ _ [])) as [r | e] eqn:Hrun;
    [| vm_compute in Hrun; discriminate].
  destruct (legacy_remap_gives_each_variant_one_slot _ _ _
              (Legacy.mkRemap [] (Bpy.materials Scenes.cube)
                 (Bpy.faces (Bpy.bm Scenes.cube)) []) r eq_refl Hrun)
    as (_ & Hfind & _).
  assert (Hl : Legacy.mat_lookup r = [("A.png_variant1", 3%nat)]).
  { vm_compute in Hrun. injection Hrun as <-. reflexivity. }
  split; [exact Hl |].
  destruct (Hfind "A.png_variant1" 3%nat) as (m & Hm & Hn & _);
    [rewrite Hl; reflexivity | eauto].
Defined.

(** ** The batch over the files of a folder tree *)

Lemma lower_substring (s : string) (n m : nat) :
  Py.lower (String.substring n m s) = String.substring n m (Py.lower s).
Proof.
  revert n m. induction s as [| c s IH]; intros [| n] [| m]; simpl; try reflexivity.
  - rewrite IH. reflexivity.
  - apply IH.
  - apply IH.
Qed.

Lemma lower_length (s : string) : String.length (Py.lower s) = String.length s.
Proof. induction s as [| c s IH]; simpl; [reflexivity | rewrite IH; reflexivity]. Qed.




(** X14: the batch looks at a file only when the last four characters
    of its name, put in lower case, are ".obj" or ".fbx"; every other
    file of the walk is passed over without a call to the host, so the
    batch over a walk is the batch over the model files of the walk. *)
Theorem batch_reads_only_model_files (host : V1.Host) (cfg : V1.Settings)
    (todo : list (string * string)) (st : V1.Batch) :
  V1.process_files host cfg todo st
    = V1.process_files host cfg (filter (fun x => V1.is_asset x.2 = true) todo) st /\
  (forall fname,
     V1.is_asset fname = true <->
     (4 <= String.length fname)%nat /\
     (Py.lower (String.substring (String.length fname - 4) 4 fname) = ".obj" \/
      Py.lower (String.substring (String.length fname - 4) 4 fname) = ".fbx")) /\
  (forall dirpath fname st0,
     V1.is_asset fname = false -> V1.process_file host cfg dirpath st0 fname = (st0, None)).
Proof.
  split; [| split].
  - revert st. induction todo as [| [dirpath fname] todo IH]; intros st; [reflexivity |].
    rewrite filter_cons. cbn [snd]. destruct (decide (V1.is_asset fname = true)) as [Ha | Ha].
    + cbn [V1.process_files].
      destruct (V1.process_file host cfg dirpath st fname) as [st1 [e |]];
        [reflexivity | apply IH].
    + cbn [V1.process_files]. unfold V1.process_file at 1.
      apply not_true_is_false in Ha. rewrite Ha. apply IH.
  - intros fname. unfold V1.is_asset, Py.endswith. rewrite !lower_substring, !lower_length.
    cbn [String.length]. rewrite orb_true_iff, !andb_true_iff, !bool_decide_eq_true. tauto.
  - intros dirpath fname st0 Ha. unfold V1.process_file. rewrite Ha. reflexivity.
Qed.


(** ** The fill of the whole UV layout *)

Lemma SFcompare_refl (x : spec_float) :
  SFcompare x x = match x with S754_nan => None | _ => Some Eq end.
Proof.
  destruct x as [s | s | | s m e]; [destruct s; reflexivity | destruct s; reflexivity
                                    | reflexivity |].
  unfold SFcompare.
  replace (IntDef.Z.compare e e) with Eq by (symmetry; exact (Z.compare_refl e)).
  replace (PosDef.Pos.compare_cont Eq m m) with Eq
    by (symmetry; exact (Pos.compare_cont_refl m Eq)).
  destruct s; reflexivity.
Qed.

Lemma ltb_irrefl (x : float) : PrimFloat.ltb x x = false.
Proof.
  rewrite FloatAxioms.ltb_spec. unfold SFltb. rewrite SFcompare_refl.
  destruct (Prim2SF x); reflexivity.
Qed.

(** A finite float minus itself is zero. *)
Lemma sub_diag_finite (x : float) :
  PrimFloat.is_finite x = true -> PrimFloat.eqb (PrimFloat.sub x x) PrimFloat.zero = true.
Proof.
  unfold PrimFloat.is_finite, PrimFloat.is_nan, PrimFloat.is_infinity.
  rewrite !FloatAxioms.eqb_spec, FloatAxioms.sub_spec, FloatAxioms.abs_spec.
  destruct (Prim2SF x) as [s | s | | s m e] eqn:Hx.
  - intros _. destruct s; reflexivity.
  - destruct s; discriminate.
  - discriminate.
  - intros _. unfold SF64sub, SFsub.
    match goal with |- context [IntDef.Z.sub ?a ?a] =>
      replace (IntDef.Z.sub a a) with 0 by (symmetry; exact (Z.sub_diag a)) end.
    reflexivity.
Qed.

Lemma ltb_zero_not_eqb (d : float) :
  PrimFloat.ltb PrimFloat.zero d = true -> PrimFloat.eqb d PrimFloat.zero = false.
Proof.
  rewrite FloatAxioms.ltb_spec, FloatAxioms.eqb_spec. unfold SFltb, SFeqb.
  destruct (Prim2SF d) as [s | s | | s m e]; try (destruct s; simpl; congruence).
  discriminate.
Qed.

Lemma min_constant (x : float) (l : list float) :
  Forall (fun y => y = x) l -> Py.min (x :: l) = Py.Ret x.
Proof.
  intros Hall. unfold Py.min. f_equal. induction Hall as [| y l -> _ IH]; [reflexivity |].
  simpl. rewrite ltb_irrefl. exact IH.
Qed.

Lemma max_constant (x : float) (l : list float) :
  Forall (fun y => y = x) l -> Py.max (x :: l) = Py.Ret x.
Proof.
  intros Hall. unfold Py.max. f_equal. induction Hall as [| y l -> _ IH]; [reflexivity |].
  simpl. rewrite ltb_irrefl. exact IH.
Qed.

Lemma min_nonempty (x : float) (l : list float) : exists m, Py.min (x :: l) = Py.Ret m.
Proof. eexists. reflexivity. Qed.

Lemma max_nonempty (x : float) (l : list float) : exists m, Py.max (x :: l) = Py.Ret m.
Proof. eexists. reflexivity. Qed.

Lemma mapM_cons_eq {A B} (f : A -> Py.Exc B) (x : A) (l : list A) :
  mapM f (x :: l) = (y ← f x; k ← mapM f l; mret (y :: k)).
Proof. reflexivity. Qed.

Lemma stretch_all (min_u min_v du dv : float) (uvs : list Bpy.UV) :
  PrimFloat.eqb du PrimFloat.zero = false -> PrimFloat.eqb dv PrimFloat.zero = false ->
  mapM (UVIslandFill.stretch min_u min_v du dv) uvs =
    Py.Ret ((fun uv => {| Bpy.uv_x := PrimFloat.div (PrimFloat.sub (Bpy.uv_x uv) min_u) du;
                          Bpy.uv_y := PrimFloat.div (PrimFloat.sub (Bpy.uv_y uv) min_v) dv |})
              <$> uvs).
Proof.
  intros Hdu Hdv. induction uvs as [| uv uvs IH]; [reflexivity |].
  rewrite mapM_cons_eq, IH. unfold UVIslandFill.stretch, UVIslandFill.truediv.
  rewrite Hdu, Hdv. reflexivity.
Qed.

Lemma stretch_faces (min_u min_v du dv : float) (fs : list Bpy.BMFace) :
  PrimFloat.eqb du PrimFloat.zero = false -> PrimFloat.eqb dv PrimFloat.zero = false ->
  exists fcs,
    mapM (fun f =>
        uvs ← mapM (UVIslandFill.stretch min_u min_v du dv) (Bpy.loops f);
        mret {| Bpy.index := Bpy.index f; Bpy.material_index := Bpy.material_index f;
                Bpy.loops := uvs; Bpy.edges := Bpy.edges f |}) fs = Py.Ret fcs /\
    same_shape fs fcs /\
    Bpy.material_index <$> fcs = Bpy.material_index <$> fs.
Proof.
  intros Hdu Hdv. induction fs as [| f fs (fcs & IH & Hs & Hm)].
  - exists []. split_and!; [reflexivity | constructor | reflexivity].
  - rewrite mapM_cons_eq, IH, (stretch_all _ _ _ _ _ Hdu Hdv).
    cbn [mbind mret Py.exc_bind Py.exc_ret Py.bind]. eexists. split; [reflexivity |].
    split.
    + constructor; [| exact Hs]. cbn [Bpy.index Bpy.edges Bpy.loops].
      split_and!; [reflexivity | reflexivity | apply length_fmap].
    + rewrite !fmap_cons, Hm. reflexivity.
Qed.

(** X16: the fill of the whole layout never fails. The extrema are only
    taken of a layout with at least one UV, and the test that skips a layout
    of zero width or height keeps both divisions away from a zero divisor.
    The object it returns keeps its name, type, materials and UV layer, and
    its faces keep their order, indices, material indices, edges and
    numbers of loops. The operator is cancelled, with an error report,
    exactly when no mesh is among the objects. *)
Theorem uv_fill_returns_and_keeps_the_mesh :
  (forall obj,
     exists obj',
       UVIslandFill.fill_object obj = Py.Ret obj' /\
       Bpy.obj_name obj' = Bpy.obj_name obj /\ Bpy.obj_type obj' = Bpy.obj_type obj /\
       Bpy.materials obj' = Bpy.materials obj /\ Bpy.uv_layer obj' = Bpy.uv_layer obj /\
       same_shape (Bpy.faces (Bpy.bm obj)) (Bpy.faces (Bpy.bm obj')) /\
       Bpy.material_index <$> Bpy.faces (Bpy.bm obj')
         = Bpy.material_index <$> Bpy.faces (Bpy.bm obj)) /\
  (forall selected,
     match filter (fun o => Bpy.obj_type o = "MESH") selected with
     | [] => UVIslandFill.execute selected
               = Py.Ret (UVIslandFill.CANCELLED ("ERROR", "No mesh objects in edit mode."))
     | objs => exists objs',
         UVIslandFill.execute selected = Py.Ret (UVIslandFill.FINISHED objs') /\
         Forall2 (fun o o' => UVIslandFill.fill_object o = Py.Ret o') objs objs'
     end).
Proof.
  assert (Hobj : forall obj,
     exists obj',
       UVIslandFill.fill_object obj = Py.Ret obj' /\
       Bpy.obj_name obj' = Bpy.obj_name obj /\ Bpy.obj_type obj' = Bpy.obj_type obj /\
       Bpy.materials obj' = Bpy.materials obj /\ Bpy.uv_layer obj' = Bpy.uv_layer obj /\
       same_shape (Bpy.faces (Bpy.bm obj)) (Bpy.faces (Bpy.bm obj')) /\
       Bpy.material_index <$> Bpy.faces (Bpy.bm obj')
         = Bpy.material_index <$> Bpy.faces (Bpy.bm obj)).
  { intros obj.
    assert (Hsame : exists obj', Py.Ret obj = Py.Ret obj' /\
       Bpy.obj_name obj' = Bpy.obj_name obj /\ Bpy.obj_type obj' = Bpy.obj_type obj /\
       Bpy.materials obj' = Bpy.materials obj /\ Bpy.uv_layer obj' = Bpy.uv_layer obj /\
       same_shape (Bpy.faces (Bpy.bm obj)) (Bpy.faces (Bpy.bm obj')) /\
       Bpy.material_index <$> Bpy.faces (Bpy.bm obj')
         = Bpy.material_index <$> Bpy.faces (Bpy.bm obj)).
    { exists obj. split_and!; try reflexivity. apply same_shape_refl. }
    unfold UVIslandFill.fill_object. destruct (Bpy.uv_layer obj) eqn:Huv; [| exact Hsame].
    destruct (flat_map Bpy.loops (Bpy.faces (Bpy.bm obj))) as [| uv uvs]; [exact Hsame |].
    rewrite !fmap_cons.
    destruct (min_nonempty (Bpy.uv_x uv) (Bpy.uv_x <$> uvs)) as [min_u ->].
    destruct (max_nonempty (Bpy.uv_x uv) (Bpy.uv_x <$> uvs)) as [max_u ->].
    destruct (min_nonempty (Bpy.uv_y uv) (Bpy.uv_y <$> uvs)) as [min_v ->].
    destruct (max_nonempty (Bpy.uv_y uv) (Bpy.uv_y <$> uvs)) as [max_v ->].
    cbn [mbind mret Py.exc_bind Py.exc_ret Py.bind].
    destruct (PrimFloat.eqb (PrimFloat.sub max_u min_u) PrimFloat.zero) eqn:Hdu;
      [exact Hsame |].
    destruct (PrimFloat.eqb (PrimFloat.sub max_v min_v) PrimFloat.zero) eqn:Hdv;
      [exact Hsame |].
    cbn [orb].
    destruct (stretch_faces min_u min_v _ _ (Bpy.faces (Bpy.bm obj)) Hdu Hdv)
      as (fcs & -> & Hs & Hm).
    cbn [mbind mret Py.exc_bind Py.exc_ret Py.bind]. eexists. split; [reflexivity |].
    cbn [Bpy.obj_name Bpy.obj_type Bpy.materials Bpy.uv_layer Bpy.bm Bpy.faces].
    split_and!; auto. }
  split; [exact Hobj |].
  intros selected. unfold UVIslandFill.execute.
  destruct (filter (fun o => Bpy.obj_type o = "MESH") selected) as [| ob objs];
    [reflexivity |].
  assert (Hall : forall l, exists l',
    mapM UVIslandFill.fill_object l = Py.Ret l' /\
    Forall2 (fun o o' => UVIslandFill.fill_object o = Py.Ret o') l l').
  { induction l as [| o l (l' & IH & Hl)]; [exists []; split; [reflexivity | constructor] |].
    destruct (Hobj o) as (o' & Ho & _). exists (o' :: l'). rewrite mapM_cons_eq, IH, Ho.
    split; [reflexivity | constructor; assumption]. }
  destruct (Hall (ob :: objs)) as (objs' & Hrun & Hf). exists objs'. rewrite Hrun.
  split; [reflexivity | exact Hf].
Qed.

(** X17: the fill leaves an object as it is when the object has no
    active UV layer, when its faces have no loop at all, or when all its
    UVs share one finite u or one finite v (a layout of zero width or
    height): nothing is rewritten, and nothing is divided. *)
Theorem uv_fill_leaves_flat_layouts (obj : Bpy.Object) :
  (Bpy.uv_layer obj = false -> UVIslandFill.fill_object obj = Py.Ret obj) /\
  (flat_map Bpy.loops (Bpy.faces (Bpy.bm obj)) = [] ->
     UVIslandFill.fill_object obj = Py.Ret obj) /\
  (forall u, PrimFloat.is_finite u = true ->
     Forall (fun uv => Bpy.uv_x uv = u) (flat_map Bpy.loops (Bpy.faces (Bpy.bm obj))) ->
     UVIslandFill.fill_object obj = Py.Ret obj) /\
  (forall v, PrimFloat.is_finite v = true ->
     Forall (fun uv => Bpy.uv_y uv = v) (flat_map Bpy.loops (Bpy.faces (Bpy.bm obj))) ->
     UVIslandFill.fill_object obj = Py.Ret obj).
Proof.
  unfold UVIslandFill.fill_object. split; [intros ->; reflexivity |].
  split; [intros ->; destruct (Bpy.uv_layer obj); reflexivity |].
  destruct (Bpy.uv_layer obj); [| split; reflexivity].
  destruct (flat_map Bpy.loops (Bpy.faces (Bpy.bm obj))) as [| uv uvs]; [split; reflexivity |].
  rewrite !fmap_cons. split.
  - intros u Hfin Hall. apply Forall_cons in Hall as [Hu Hall].
    rewrite Hu, (min_constant u), (max_constant u) by (apply Forall_fmap; exact Hall).
    destruct (min_nonempty (Bpy.uv_y uv) (Bpy.uv_y <$> uvs)) as [min_v ->].
    destruct (max_nonempty (Bpy.uv_y uv) (Bpy.uv_y <$> uvs)) as [max_v ->].
    cbn [mbind mret Py.exc_bind Py.exc_ret Py.bind].
    rewrite (sub_diag_finite u Hfin). reflexivity.
  - intros v Hfin Hall. apply Forall_cons in Hall as [Hv Hall].
    destruct (min_nonempty (Bpy.uv_x uv) (Bpy.uv_x <$> uvs)) as [min_u ->].
    destruct (max_nonempty (Bpy.uv_x uv) (Bpy.uv_x <$> uvs)) as [max_u ->].
    rewrite Hv, (min_constant v), (max_constant v) by (apply Forall_fmap; exact Hall).
    cbn [mbind mret Py.exc_bind Py.exc_ret Py.bind].
    rewrite (sub_diag_finite v Hfin), orb_true_r. reflexivity.
Qed.

(** The fill of the object of the end-to-end run: the quad over the
    lower-left eighth of the texture is stretched over the unit square. *)
Example uv_fill_stretches_strip :
  exists ob,
    UVIslandFill.fill_object Scenes.strip = Py.Ret ob /\
    Bpy.loops <$> Bpy.faces (Bpy.bm ob)
      = [[Bpy.mkUV 0 0; Bpy.mkUV 1 0; Bpy.mkUV 1 1; Bpy.mkUV 0 1]]%float.
Proof. eexists. split; [vm_compute; reflexivity | reflexivity]. Qed.

(** ** Islands of one face *)

Lemma setitem_idem {K V} `{EqDecision K} (d : Py.Dict K V) (k : K) (v : V) :
  Py.setitem (Py.setitem d k v) k v = Py.setitem d k v.
Proof.
  induction d as [| [k' v'] d IH]; simpl.
  - rewrite decide_True by reflexivity. reflexivity.
  - destruct (decide (k' = k)) as [-> | Hne]; simpl.
    + rewrite decide_True by reflexivity. reflexivity.
    + rewrite decide_False by exact Hne. rewrite IH. reflexivity.
Qed.

Lemma scan_loops_fold (img : Bpy.Image) (w h : Z) (l : list Bpy.UV) (sc : V1.Scan) :
  foldl (fun sc uv =>
      {| V1.sc_coords := V1.sc_coords sc ++ [V1.to_pixels w h uv];
         V1.sc_img := Some img;
         V1.sc_sizes := Py.setitem (V1.sc_sizes sc) (Bpy.img_name img) (w, h) |}) sc l =
    match l with
    | [] => sc
    | _ :: _ =>
        {| V1.sc_coords := V1.sc_coords sc ++ (V1.to_pixels w h <$> l);
           V1.sc_img := Some img;
           V1.sc_sizes := Py.setitem (V1.sc_sizes sc) (Bpy.img_name img) (w, h) |}
    end.
Proof.
  revert sc. induction l as [| uv l IH]; intros sc; [reflexivity |].
  cbn [foldl]. rewrite IH. destruct l as [| uv' l]; [reflexivity |].
  cbn [V1.sc_coords V1.sc_sizes]. rewrite setitem_idem, <- app_assoc. reflexivity.
Qed.

Lemma scanned_face_coords (mats : list (option Bpy.Material)) (sc : V1.Scan) (f : Bpy.BMFace)
    (img : Bpy.Image) (uv : Bpy.UV) (uvs : list Bpy.UV) :
  V1.resolved mats f = Some img -> Bpy.loops f = uv :: uvs ->
  scanned_face mats sc f =
    {| V1.sc_coords := V1.sc_coords sc ++
         (V1.to_pixels (Bpy.img_size img).1 (Bpy.img_size img).2 <$> Bpy.loops f);
       V1.sc_img := Some img;
       V1.sc_sizes := Py.setitem (V1.sc_sizes sc) (Bpy.img_name img) (Bpy.img_size img) |}.
Proof.
  intros Himg Hloops. unfold scanned_face. rewrite Himg.
  destruct (Bpy.img_size img) as [w h]. cbn [fst snd].
  rewrite scan_loops_fold, Hloops. reflexivity.
Qed.

(** An island of one face is gathered as per-face mode gathers the face,
    with the same exception when the image lookup of the face raises. *)
Lemma gather_island_singleton (mats : list (option Bpy.Material)) (st : V1.Gathered) (f : Bpy.BMFace) :
  V1.gather_island mats st [f] = V1.gather_face mats st f.
Proof.
  unfold V1.gather_island, V1.scan_group. cbn [Py.for_each].
  rewrite scan_face_eq, gather_face_eq.
  destruct (Bpy.loops f) as [| uv uvs] eqn:Hloops.
  { unfold V1.get_image_from_face, gathered_face, V1.resolved, V1.get_image_from_face,
      scanned_face.
    rewrite Hloops. cbn. destruct st. reflexivity. }
  destruct (V1.get_image_from_face mats f) as [r | e] eqn:Hres; [| reflexivity].
  cbn [mbind mret Py.exc_bind Py.exc_ret Py.bind]. unfold gathered_face.
  apply (resolved_Ret mats) in Hres. destruct r as [img |].
  - rewrite (scanned_face_coords mats _ f img uv uvs Hres Hloops), Hres.
    cbn [V1.sc_coords V1.sc_img V1.sc_sizes app]. rewrite Hloops, fmap_cons.
    destruct (Bpy.img_size img) as [w h]. cbn [fst snd]. reflexivity.
  - unfold scanned_face. rewrite Hres.
    assert (Hsame : forall (l : list Bpy.UV) (sc : V1.Scan), foldl (fun sc _ => sc) sc l = sc)
      by (induction l as [| x l IH]; intros sc; [reflexivity | apply IH]).
    rewrite Hsame. cbn [V1.sc_coords]. destruct st. reflexivity.
Qed.

Lemma no_shared_edges_closed (m : Bpy.BMesh) (visited : gset nat) :
  no_shared_edges m -> closed m visited.
Proof. intros Hiso f g Hadj Hf. rewrite (Hiso f g Hadj). exact Hf. Qed.

Lemma flood_fill_alone (m : Bpy.BMesh) (visited : gset nat) (f : Bpy.BMFace) :
  Bpy.wf_mesh m -> no_shared_edges m -> f ∈ Bpy.faces m -> Bpy.index f ∉ visited ->
  V1.flood_fill m visited f = Py.Ret (visited ∪ {[Bpy.index f]}, [f]).
Proof.
  intros Hwf Hiso Hf Hnew.
  destruct (flood_fill_component m Hwf visited f (no_shared_edges_closed m visited Hiso)
              Hf Hnew) as (visited' & group & Hrun & -> & Hnd & _ & Hgroup & _).
  assert (Hone : group = [f]).
  { apply singleton_group.
    - eapply NoDup_fmap_1. exact Hnd.
    - apply Hgroup. split; [exact Hf | apply rtc_refl].
    - intros g Hg. apply Hgroup in Hg as [_ Hc].
      apply (isolated_connected m f g); [intros h; apply Hiso | exact Hc]. }
  rewrite Hrun, Hone. f_equal. f_equal. cbn [fmap list_fmap list_to_set foldr].
  set_solver.
Qed.

Lemma island_loop_alone {S} (m : Bpy.BMesh) (body : S -> list Bpy.BMFace -> Py.Exc S)
    (l : list Bpy.BMFace) (visited : gset nat) (st : S) :
  Bpy.wf_mesh m -> no_shared_edges m ->
  (forall f, f ∈ l -> f ∈ Bpy.faces m) -> NoDup (Bpy.index <$> l) ->
  (forall f, f ∈ l -> Bpy.index f ∉ visited) ->
  Py.for_each (V1.island_step m body) l (visited, st) =
    (st' ← Py.for_each (fun s f => body s [f]) l st;
     mret (visited ∪ list_to_set (Bpy.index <$> l), st')).
Proof.
  intros Hwf Hiso. revert visited st. induction l as [| f l IH]; intros visited st Hin Hnd Hnew.
  - cbn [Py.for_each fmap list_fmap list_to_set foldr mbind mret Py.exc_bind Py.exc_ret Py.bind].
    do 2 f_equal. set_solver.
  - rewrite fmap_cons in Hnd. apply NoDup_cons in Hnd as [Hf Hnd].
    cbn [Py.for_each]. rewrite island_step_eq.
    rewrite decide_False by (apply Hnew; left).
    rewrite (flood_fill_alone m visited f Hwf Hiso) by (first [apply Hin | apply Hnew]; left).
    cbn [mbind mret Py.exc_bind Py.exc_ret Py.bind].
    destruct (body st [f]) as [st1 | e]; [| reflexivity].
    cbn [mbind mret Py.exc_bind Py.exc_ret Py.bind]. rewrite IH.
    + destruct (Py.for_each _ l st1) as [st2 | e]; [| reflexivity].
      cbn [mbind mret Py.exc_bind Py.exc_ret Py.bind]. do 2 f_equal.
      rewrite fmap_cons. cbn [list_to_set foldr]. set_solver.
    + intros g Hg. apply Hin. right. exact Hg.
    + exact Hnd.
    + intros g Hg. apply not_elem_of_union. split; [apply Hnew; right; exact Hg |].
      intros Heq. apply elem_of_singleton in Heq. apply Hf. rewrite <- Heq.
      apply list_elem_of_fmap. eauto.
Qed.

Lemma wf_mesh_indices_NoDup (m : Bpy.BMesh) :
  Bpy.wf_mesh m -> NoDup (Bpy.index <$> Bpy.faces m).
Proof.
  intros Hwf. apply NoDup_alt. intros i j x Hi Hj.
  rewrite list_lookup_fmap in Hi, Hj.
  destruct (Bpy.faces m !! i) as [f |] eqn:Hfi; [| discriminate].
  destruct (Bpy.faces m !! j) as [g |] eqn:Hgj; [| discriminate].
  injection Hi as <-. injection Hj as Hj.
  rewrite (Bpy.wf_index m Hwf i f Hfi) in Hj. rewrite (Bpy.wf_index m Hwf j g Hgj) in Hj.
  congruence.
Qed.

(** X18: on a mesh in which no two faces share an edge, every island is
    one face and per-island mode gathers exactly what per-face mode
    gathers: the same variants, sizes and assignments, or the same
    exception. *)
Theorem island_mode_on_separate_faces_is_face_mode (cfg cfg' : V1.Settings)
    (col : V1.Collected) (obj : Bpy.Object) :
  Bpy.wf_mesh (Bpy.bm obj) -> no_shared_edges (Bpy.bm obj) ->
  (forall g0,
     (r ← V1.island_loop (Bpy.bm obj) (V1.gather_island (Bpy.materials obj)) g0; mret r.2)
       = Py.for_each (V1.gather_face (Bpy.materials obj)) (Bpy.faces (Bpy.bm obj)) g0) /\
  V1.gather_object cfg col obj = V1.gather_object cfg' col obj.
Proof.
  intros Hwf Hiso.
  assert (Hloop : forall g0,
     (r ← V1.island_loop (Bpy.bm obj) (V1.gather_island (Bpy.materials obj)) g0; mret r.2)
       = Py.for_each (V1.gather_face (Bpy.materials obj)) (Bpy.faces (Bpy.bm obj)) g0).
  { intros g0. unfold V1.island_loop.
    rewrite (island_loop_alone (Bpy.bm obj) _ (Bpy.faces (Bpy.bm obj)) ∅ g0 Hwf Hiso
               (fun f Hf => Hf) (wf_mesh_indices_NoDup _ Hwf)
               (fun f _ => not_elem_of_empty (Bpy.index f))).
    assert (Hbody : forall l g,
      Py.for_each (fun s f => V1.gather_island (Bpy.materials obj) s [f]) l g =
      Py.for_each (V1.gather_face (Bpy.materials obj)) l g).
    { induction l as [| f l IH]; intros g; [reflexivity |].
      cbn [Py.for_each]. rewrite gather_island_singleton.
      destruct (V1.gather_face (Bpy.materials obj) g f); [apply IH | reflexivity]. }
    rewrite Hbody. destruct (Py.for_each _ (Bpy.faces (Bpy.bm obj)) g0); reflexivity. }
  split; [exact Hloop |].
  unfold V1.gather_object. destruct (Bpy.uv_layer obj); [| reflexivity].
  destruct (V1.crop_per_border cfg), (V1.crop_per_border cfg'); try reflexivity;
    rewrite Hloop; reflexivity.
Qed.

Lemma island_mode_on_separate_faces_is_face_mode_witness :
  V1.gather_object Scenes.cfg_island (V1.mkCollected (V1.mkGathered [] [] []) [] [])
      Scenes.twins
    = V1.gather_object Scenes.cfg_face (V1.mkCollected (V1.mkGathered [] [] []) [] [])
        Scenes.twins.
Proof.
  apply (island_mode_on_separate_faces_is_face_mode Scenes.cfg_island Scenes.cfg_face).
  - apply mesh_of_wf. intros [| [| [| i]]] f; simpl; try discriminate; intros [= <-]; reflexivity.
  - intros f g (Hf & Hg & e & Hef & Heg). simpl in Hf, Hg.
    repeat (apply elem_of_cons in Hf as [-> | Hf]); [| | | inversion Hf];
      repeat (apply elem_of_cons in Hg as [-> | Hg]); try reflexivity; try (inversion Hg);
      exfalso; simpl in Hef, Heg;
      repeat (apply elem_of_cons in Hef as [-> | Hef]); try (inversion Hef);
      repeat (apply elem_of_cons in Heg as [Heg | Heg]); try discriminate; inversion Heg.
Defined.

(** ** The lookups of the remap *)

Lemma gather_island_step (mats : list (option Bpy.Material)) (st st' : V1.Gathered)
    (group : list Bpy.BMFace) :
  V1.gather_island mats st group = Py.Ret st' ->
  V1.global_sizes st' = V1.sc_sizes (scanned_group mats (V1.global_sizes st) group) /\
  ((V1.global_variants st' = V1.global_variants st /\
    V1.assignments st' = V1.assignments st) \/
   exists img bounds,
     V1.sc_img (scanned_group mats (V1.global_sizes st) group) = Some img /\
     V1.global_variants st' =
       V1.append_variant (V1.global_variants st) (Bpy.img_name img)
         (bounds, Bpy.abspath (Bpy.img_filepath img), None) /\
     V1.assignments st' = V1.assignments st ++
       ((fun f2 => (Bpy.index f2, Bpy.img_name img, bounds)) <$> group)).
Proof.
  intros H. apply gather_island_returns in H as [H _]. revert H.
  unfold gathered_island. cbv zeta.
  destruct (V1.sc_coords (scanned_group mats (V1.global_sizes st) group)) as [| c cs];
    [intros [= <-]; split; [reflexivity | left; split; reflexivity] |].
  destruct (V1.sc_img (scanned_group mats (V1.global_sizes st) group)) as [img |];
    [| intros [= <-]; split; [reflexivity | left; split; reflexivity]].
  intros H. bind_step H as bounds. injection H as <-.
  split; [reflexivity |]. right. exists img, bounds. split_and!; reflexivity.
Qed.

Lemma assignment_known_mono (g g' : V1.Gathered) (a : V1.Assignment) :
  (forall name, exists more,
     default [] (Py.get (V1.global_variants g') name)
       = default [] (Py.get (V1.global_variants g) name) ++ more) ->
  (forall name, is_Some (Py.get (V1.global_sizes g) name) ->
                is_Some (Py.get (V1.global_sizes g') name)) ->
  assignment_known g a -> assignment_known g' a.
Proof.
  intros Hgv Hsz [Hb Hs]. split; [| apply Hsz; exact Hs].
  destruct (Hgv a.1.2) as [more ->]. rewrite !fmap_app. apply elem_of_app. left. exact Hb.
Qed.

Lemma append_variant_grows (gv : Py.Dict string (list V1.Variant)) (n : string)
    (v : V1.Variant) (name : string) :
  exists more,
    default [] (Py.get (V1.append_variant gv n v) name) = default [] (Py.get gv name) ++ more.
Proof.
  rewrite get_append_variant. destruct (decide (n = name)) as [<- | _].
  - exists [v]. reflexivity.
  - exists []. rewrite app_nil_r. reflexivity.
Qed.

Lemma gather_face_known (mats : list (option Bpy.Material)) (outer : list V1.Assignment)
    (g g' : V1.Gathered) (face : Bpy.BMFace) :
  gather_known outer g -> V1.gather_face mats g face = Py.Ret g' -> gather_known outer g'.
Proof.
  intros [Hk Hall] Hstep. split; [eapply gather_face_well_keyed; eassumption |].
  destruct (gather_face_step _ _ _ _ Hstep)
    as [[_ ->] | (img & bounds & _ & _ & Hgv & Hsz & Ha)]; [exact Hall |].
  rewrite Ha, app_assoc. apply Forall_app. split.
  - eapply Forall_impl; [exact Hall |]. intros a. apply assignment_known_mono.
    + intros name. rewrite Hgv. apply append_variant_grows.
    + intros name. rewrite Hsz, get_setitem_is_Some. auto.
  - apply Forall_singleton. split; cbn [fst snd].
    + rewrite Hgv, get_append_variant, decide_True by reflexivity.
      rewrite !fmap_app. apply elem_of_app. right. left.
    + rewrite Hsz, get_setitem_is_Some. auto.
Qed.

Lemma gather_island_known (mats : list (option Bpy.Material)) (outer : list V1.Assignment)
    (g g' : V1.Gathered) (group : list Bpy.BMFace) :
  gather_known outer g -> V1.gather_island mats g group = Py.Ret g' -> gather_known outer g'.
Proof.
  intros [Hk Hall] Hstep. split; [eapply gather_island_well_keyed; eassumption |].
  destruct Hk as (_ & Hnd & _).
  destruct (scan_group_sized mats _ group Hnd) as (_ & Hkept & Himg).
  destruct (gather_island_step _ _ _ _ Hstep)
    as [Hsz [[Hgv Ha] | (img & bounds & Hsc & Hgv & Ha)]].
  - rewrite Ha. eapply Forall_impl; [exact Hall |]. intros a. apply assignment_known_mono.
    + intros name. rewrite Hgv. exists []. rewrite app_nil_r. reflexivity.
    + intros name. rewrite Hsz. apply Hkept.
  - rewrite Ha, app_assoc. apply Forall_app. split.
    + eapply Forall_impl; [exact Hall |]. intros a. apply assignment_known_mono.
      * intros name. rewrite Hgv. apply append_variant_grows.
      * intros name. rewrite Hsz. apply Hkept.
    + apply Forall_fmap, Forall_forall. intros f2 _. split; cbn [fst snd].
      * rewrite Hgv, get_append_variant, decide_True by reflexivity.
        rewrite !fmap_app. apply elem_of_app. right. left.
      * rewrite Hsz. apply Himg. exact Hsc.
Qed.

Lemma gather_object_known (cfg : V1.Settings) (col col' : V1.Collected) (obj : Bpy.Object) :
  collected_known col -> V1.gather_object cfg col obj = Py.Ret col' -> collected_known col'.
Proof.
  intros [Hk Hall]. unfold V1.gather_object. destruct (Bpy.uv_layer obj).
  - set (g0 := {| V1.global_variants := V1.global_variants (V1.gathered col);
                  V1.global_sizes := V1.global_sizes (V1.gathered col);
                  V1.assignments := [] |}).
    set (outer := concat (V1.face_map col).*2) in *.
    assert (H0 : gather_known outer g0).
    { split; [exact Hk |]. cbn [V1.assignments]. rewrite app_nil_r. exact Hall. }
    intros H.
    assert (Hg : exists g,
      gather_known outer g /\
      col' = {| V1.gathered := g;
                V1.face_map := Py.setitem (V1.face_map col) (Bpy.obj_name obj) (V1.assignments g);
                V1.reports := V1.reports col |}).
    { destruct (V1.crop_per_border cfg).
      - destruct (V1.island_loop (Bpy.bm obj) (V1.gather_island (Bpy.materials obj)) g0)
          as [r | e] eqn:Hloop; [| discriminate H].
        cbn [mbind mret Py.exc_bind Py.exc_ret Py.bind] in H. injection H as <-.
        exists r.2. split; [| reflexivity].
        apply (island_loop_invariant (gather_known outer) _ _ _ _ H0
                 (fun s group s' Hs Hb => gather_island_known _ outer s s' group Hs Hb)
                 Hloop).
      - bind_step H as g. injection H as <-. exists g. split; [| reflexivity].
        match goal with E : Py.for_each _ _ _ = _ |- _ =>
          apply (for_each_invariant (gather_known outer) _ _ _ _ H0
                   (fun s f s' Hs Hb => gather_face_known _ outer s s' f Hs Hb) E) end. }
    destruct Hg as (g & [Hkg Hallg] & ->). split; [exact Hkg |].
    cbn [V1.gathered V1.face_map]. apply Forall_forall. intros a Ha.
    rewrite Forall_forall in Hallg. apply Hallg.
    apply list_elem_of_In, in_concat in Ha as (asg & Hasg & Hin).
    apply list_elem_of_In in Hasg, Hin.
    apply list_elem_of_fmap in Hasg as ([name asg'] & -> & Hentry). cbn [snd] in Hin.
    apply elem_of_setitem in Hentry as [[= _ ->] | Hentry].
    + apply elem_of_app. right. exact Hin.
    + apply elem_of_app. left. subst outer.
      apply list_elem_of_In, in_concat. exists asg'. rewrite <- !list_elem_of_In.
      split; [| exact Hin]. apply list_elem_of_fmap. exists (name, asg'). auto.
  - intros [= <-]. split; [exact Hk | exact Hall].
Qed.

(** What an assignment known to the tables finds in them. *)
Lemma known_lookups (g : V1.Gathered) (a : V1.Assignment) :
  assignment_known g a ->
  exists vs vid path size,
    Py.get (V1.deduplicate_all (V1.global_variants g)) a.1.2 = Some vs /\
    V1.variant_of vs a.2 = Py.Ret vid /\ (a.2, path, vid) ∈ vs /\
    Py.get (V1.global_sizes g) a.1.2 = Some size.
Proof.
  intros [Hb [size Hsize]].
  destruct (Py.get (V1.global_variants g) a.1.2) as [lst |] eqn:Hlst;
    [| apply not_elem_of_nil in Hb; contradiction].
  cbn [default] in Hb. apply deduplicate_bounds in Hb.
  destruct (variant_of_first _ _ Hb) as (i & [[b p] v] & Hi & Hbe & _ & Hv).
  cbn [fst snd] in Hbe, Hv. subst b.
  exists (V1.deduplicate lst), v, p, size. rewrite get_deduplicate_all, Hlst.
  split_and!; [reflexivity | exact Hv | eapply list_elem_of_lookup_2; exact Hi | exact Hsize].
Qed.

Lemma gather_run_known (cfg : V1.Settings) (objs : list Bpy.Object) (col : V1.Collected) :
  Py.for_each (V1.gather_object cfg) objs
    {| V1.gathered := {| V1.global_variants := []; V1.global_sizes := [];
                         V1.assignments := [] |};
       V1.face_map := []; V1.reports := [] |} = Py.Ret col ->
  collected_known col.
Proof.
  intros Hrun. eapply (for_each_invariant collected_known); [| | exact Hrun].
  - split; [| constructor]. split_and!; [constructor | constructor |].
    intros n [x Hx]. discriminate.
  - intros s ob s'. apply gather_object_known.
Qed.

(** X19: the lookups the remap makes for an assignment cannot fail once
    the gathering loops have returned. For every assignment in [face_map],
    the deduplicated variants have an entry for its image, the search for
    its box among them finds a variant, and [global_sizes] has the size of
    its image: neither [StopIteration] nor a [KeyError] from these tables
    is possible. *)
Theorem remap_lookups_find_every_assignment (cfg : V1.Settings) (objs : list Bpy.Object)
    (col : V1.Collected) :
  Py.for_each (V1.gather_object cfg) objs
    {| V1.gathered := {| V1.global_variants := []; V1.global_sizes := [];
                         V1.assignments := [] |};
       V1.face_map := []; V1.reports := [] |} = Py.Ret col ->
  forall name asg face_idx img_name bounds,
    (name, asg) ∈ V1.face_map col -> (face_idx, img_name, bounds) ∈ asg ->
    exists vs vid path size,
      Py.get (V1.deduplicate_all (V1.global_variants (V1.gathered col))) img_name = Some vs /\
      V1.variant_of vs bounds = Py.Ret vid /\ (bounds, path, vid) ∈ vs /\
      Py.get (V1.global_sizes (V1.gathered col)) img_name = Some size.
Proof.
  intros Hrun name asg face_idx img_name bounds Hentry Ha.
  destruct (gather_run_known _ _ _ Hrun) as [_ Hall]. rewrite Forall_forall in Hall.
  apply (known_lookups _ (face_idx, img_name, bounds)). apply Hall.
  apply list_elem_of_In, in_concat. exists asg. rewrite <- !list_elem_of_In.
  split; [| exact Ha]. apply list_elem_of_fmap. exists (name, asg). auto.
Qed.

Lemma remap_lookups_find_every_assignment_witness :
  match Py.for_each (V1.gather_object Scenes.cfg_island) [Scenes.cube]
          {| V1.gathered := {| V1.global_variants := []; V1.global_sizes := [];
                               V1.assignments := [] |};
             V1.face_map := []; V1.reports := [] |} with
  | Py.Ret col =>
      exists vs vid path size,
        Py.get (V1.deduplicate_all (V1.global_variants (V1.gathered col))) "B.png" = Some vs /\
        V1.variant_of vs (0, 0, 4, 4) = Py.Ret vid /\ ((0, 0, 4, 4), path, vid) ∈ vs /\
        Py.get (V1.global_sizes (V1.gathered col)) "B.png" = Some size
  | Py.Raise _ => False
  end.
Proof.
  destruct (Py.for_each (V1.gather_object Scenes.cfg_island) [Scenes.cube] _)
    as [col | e] eqn:Hrun; [| vm_compute in Hrun; discriminate].
  apply (remap_lookups_find_every_assignment _ _ _ Hrun "Cube"
           [(0%nat, "B.png", (0, 0, 4, 4)); (1%nat, "B.png", (0, 0, 4, 4))] 1%nat).
  - vm_compute in Hrun. injection Hrun as <-. left.
  - right. left.
Defined.

(** ** Files the crops leave alone *)

Lemma endswith_separator (dir : string) : Py.endswith (dir +:+ "/") "/" = true.
Proof.
  unfold Py.endswith.
  assert (Hlen : String.length (dir +:+ "/") = S (String.length dir))
    by (induction dir as [| c dir IH]; simpl; [reflexivity | rewrite IH; reflexivity]).
  rewrite Hlen. cbn [String.length].
  replace (S (String.length dir) - 1)%nat with (String.length dir) by lia.
  apply andb_true_intro. split; apply bool_decide_eq_true; [lia |].
  clear Hlen. induction dir as [| c dir IH]; [reflexivity | exact IH].
Qed.

(** X20: cropping only ever writes the files that [os.path.join] names
    for the output directory and [<name>_variant<N>.png], for the variants
    that are cropped. Every other path holds after the crops what it held
    before, in both scripts: no source image is overwritten or removed
    unless it is such a file. With a directory that ends in a separator
    the file is [<directory><name>_variant<N>.png], and with an image name
    that starts with a separator the file is outside the directory. *)
Theorem crops_write_only_variant_files :
  (forall cfg saver fs variants p,
     (forall name src vid b,
        (name, src, vid, b) ∈ V1.tasks_of variants ->
        p <> Py.path_join (V1.directory cfg) (V1.variant_name name vid +:+ ".png")) ->
     V1.files (V1.run_crops cfg saver fs variants) !! p = fs !! p) /\
  (forall cfg saver fs st p,
     (forall name bounds_list b path variant,
        (name, bounds_list) ∈ Legacy.bounds_per_image st ->
        (b, path, variant) ∈ bounds_list ->
        p <> Py.path_join (Legacy.directory cfg)
               (Legacy.variant_name name variant +:+ ".png")) ->
     Legacy.files (Legacy.crop_all cfg saver fs st) !! p = fs !! p) /\
  (forall dir file,
     (Py.startswith file "/" = false ->
      Py.path_join (dir +:+ "/") file = dir +:+ "/" +:+ file) /\
     (Py.startswith file "/" = true -> Py.path_join dir file = file)).
Proof.
  split; [| split].
  - intros cfg saver fs variants p Hp. unfold V1.run_crops.
    destruct (V1.crop_images cfg || V1.crop_per_border cfg); [| reflexivity].
    apply (foldl_invariant_in (fun c => V1.files c !! p = fs !! p)); [reflexivity |].
    intros c r Hin Hc. destruct r as [[[[[n v] out] b] im] |]; [| exact Hc].
    apply list_elem_of_fmap in Hin as ([[[n0 p0] v0] b0] & Hres & Htask).
    symmetry in Hres. destruct (crop_task_Some _ _ _ _ _ _ _ _ _ Hres)
      as (_ & x0 & y0 & x1 & y1 & _ & _ & [= -> -> -> _] & _).
    cbn [V1.merge_result V1.files].
    etransitivity; [apply lookup_insert_ne; apply not_eq_sym, (Hp _ _ _ _ Htask) | exact Hc].
  - intros cfg saver fs st p Hp. unfold Legacy.crop_all.
    destruct (Legacy.crop_images cfg); [| reflexivity].
    apply (foldl_invariant_in (fun c => Legacy.files c !! p = fs !! p)); [reflexivity |].
    intros c [name bounds_list] Hentry Hc. apply foldl_invariant_in; [exact Hc |].
    clear c Hc. intros c [[bounds path] variant] Hv Hc. unfold Legacy.crop_variant.
    destruct (Legacy.files c !! path) as [[im |] |]; try exact Hc.
    destruct (PIL.crop im bounds) as [cropped | e]; [| exact Hc].
    destruct (saver _ cropped); [| exact Hc].
    cbn [Legacy.files].
    etransitivity;
      [apply lookup_insert_ne; apply not_eq_sym, (Hp _ _ _ _ _ Hentry Hv) | exact Hc].
  - intros dir file. unfold Py.path_join. split; intros ->; [| reflexivity].
    rewrite endswith_separator, orb_true_r.
    induction dir as [| c dir IH]; [reflexivity |].
    change (String c ((dir +:+ "/") +:+ file) = String c (dir +:+ "/" +:+ file)).
    rewrite IH. reflexivity.
Qed.

(** With "/out/" as directory the crop of the first variant of A.png is
    written to "/out/A.png_variant1.png", and the source is kept. *)
Example crop_into_directory_with_separator :
  let c := V1.run_crops (V1.mkSettings "/out/" true false false) Scenes.saves Scenes.disk_A
             [("A.png", [((0, 0, 4, 4), "/tex/A.png", 1%nat)])] in
  is_Some (V1.files c !! "/out/A.png_variant1.png") /\
  V1.files c !! "/out//A.png_variant1.png" = None /\
  V1.files c !! "/tex/A.png" = Scenes.disk_A !! "/tex/A.png".
Proof. vm_compute. split; [eexists; reflexivity | split; reflexivity]. Qed.
(** ** One crop per face in the older script *)

Lemma legacy_collect_face_bounds (mats : list (option Bpy.Material)) (st st' : Legacy.Collected)
    (face : Bpy.BMFace) :
  Legacy.collect_face mats st face = Py.Ret st' ->
  (Legacy.face_assignments st' = Legacy.face_assignments st /\
   Legacy.bounds_per_image st' = Legacy.bounds_per_image st) \/
  exists idx name variant bounds path,
    Legacy.face_assignments st' = Legacy.face_assignments st ++ [(idx, name, variant, bounds)] /\
    forall other,
      default [] (Py.get (Legacy.bounds_per_image st') other) =
        default [] (Py.get (Legacy.bounds_per_image st) other) ++
        (if decide (name = other) then [(bounds, path, variant)] else []).
Proof.
  unfold Legacy.collect_face. destruct (Legacy.get_image_from_face mats face) as [image |];
    [| intros [= <-]; left; split; reflexivity].
  destruct (Bpy.img_size image) as [w h]. intros H.
  bind_step H as bounds. bind_step H as [unique' variant]. injection H as <-.
  right. eexists _, _, _, _, _. cbn [Legacy.face_assignments Legacy.bounds_per_image].
  split; [reflexivity |]. intros other.
  set (name := Bpy.basename (Bpy.img_filepath image)).
  destruct (decide (name = other)) as [<- | Hne].
  - rewrite get_setitem_eq. cbn [default]. f_equal. rewrite get_setdefault.
    destruct (Py.get (Legacy.bounds_per_image st) name); [reflexivity |].
    rewrite decide_True by reflexivity. reflexivity.
  - rewrite get_setitem_ne by exact Hne. rewrite get_setdefault, app_nil_r.
    destruct (Py.get (Legacy.bounds_per_image st) other); [reflexivity |].
    rewrite decide_False by exact Hne. reflexivity.
Qed.

(** X21: the older script queues one crop for every face that resolves
    an image, not one for every variant: after the collecting loop, the
    list of [bounds_per_image] of an image holds, in face order, the box
    and the variant of each face assigned to that image, so a variant that
    n faces share is cropped and saved n times. *)
Theorem legacy_queues_one_crop_per_face (mats : list (option Bpy.Material))
    (faces : list Bpy.BMFace) (st : Legacy.Collected) :
  Py.for_each (Legacy.collect_face mats) faces Legacy.empty = Py.Ret st ->
  forall name,
    (fun e => (e.1.1, e.2)) <$> default [] (Py.get (Legacy.bounds_per_image st) name) =
    (fun a => (a.2, a.1.2)) <$>
      filter (fun a => a.1.1.2 = name) (Legacy.face_assignments st).
Proof.
  intros Hrun.
  refine (for_each_invariant
    (fun st => forall name,
       (fun e : Bpy.Box * string * nat => (e.1.1, e.2)) <$>
         default [] (Py.get (Legacy.bounds_per_image st) name) =
       (fun a : nat * string * nat * Bpy.Box => (a.2, a.1.2)) <$>
         filter (fun a => a.1.1.2 = name) (Legacy.face_assignments st))
    _ _ _ _ _ _ Hrun); [intros name; reflexivity |].
  intros s f s' Hs Hstep name.
  destruct (legacy_collect_face_bounds _ _ _ _ Hstep)
    as [[-> ->] | (idx & n & variant & bounds & path & -> & Hb)]; [apply Hs |].
  rewrite Hb, filter_app, !fmap_app, Hs. f_equal.
  rewrite filter_cons, filter_nil. cbn [fst snd].
  destruct (decide (n = name)); reflexivity.
Qed.

Lemma legacy_queues_one_crop_per_face_witness :
  match Py.for_each (Legacy.collect_face (Bpy.materials Scenes.twins))
          (Bpy.faces (Bpy.bm Scenes.twins)) Legacy.empty with
  | Py.Ret st =>
      (fun e => (e.1.1, e.2)) <$> default [] (Py.get (Legacy.bounds_per_image st) "A.png")
        = [((0, 4, 4, 8), 1%nat); ((0, 4, 4, 8), 1%nat); ((4, 0, 8, 4), 2%nat)]
  | Py.Raise _ => False
  end.
Proof.
  destruct (Py.for_each _ _ Legacy.empty) as [st | e] eqn:Hrun;
    [| vm_compute in Hrun; discriminate].
  rewrite (legacy_queues_one_crop_per_face _ _ _ Hrun).
  vm_compute in Hrun. injection Hrun as <-. reflexivity.
Defined.

(** ** When the export finishes *)






















